(** * Momentum: the percentile-band backtest engine

    A shallow embedding of [src/Analysis/mean_reversion_portfolio.py]
    (class [MeanReversionPortfolio]) together with the properties of its
    weight allocators, its performance compounder, its scenario runner and
    its two reports over the stored results.

    Conventions of the embedding.
    - A pandas float cell is an [option Qc]: [None] is NaN ("no value"),
      [Some q] an exact rational.  Arithmetic is exact; rounding of IEEE
      doubles is outside the model.
    - A [DataFrame] is a list of column labels and a list of rows, each row
      a period label and one cell per column.
    - [numpy]'s default [argsort] (kind "quicksort"), on which
      [Series.sort_values] relies, is a member of the class [ArgSort]: any
      function that returns a sorting permutation.  How it orders equal keys
      is left open, as numpy leaves it.
    - [np.exp] is a parameter of the compounder, [np.sqrt] of the report of
      standard deviations.
    - [fetch_data] (an SQL query through a [query] function the module does
      not define, a pivot and a calendar resampling) and the three plotting
      methods are not embedded. *)

From Stdlib Require Import String Ascii Bool ZArith QArith Qcanon Qround.
From Stdlib Require Import DecimalString.
From Stdlib Require Import List Permutation Sorted Lia Arith.
Import ListNotations.

Set Implicit Arguments.

Open Scope Qc_scope.

(** ** Cells, series and frames *)

Definition date := Z.
Definition ticker := string.
Bind Scope string_scope with ticker.
Definition cell := option Qc.
Definition Series := list (ticker * cell).

Record DataFrame := mkDataFrame {
  columns : list ticker;
  rows : list (date * list cell)
}.

Definition index (df : DataFrame) : list date := map fst (rows df).

Definition Qc_of_Z (z : Z) : Qc := Q2Qc (inject_Z z).
Definition Qc_of_nat (n : nat) : Qc := Qc_of_Z (Z.of_nat n).

Definition isna (c : cell) : bool :=
  match c with None => true | Some _ => false end.

Definition notna (c : cell) : bool := negb (isna c).

(** The values of the cells that hold one, in order. *)
Fixpoint nonnan (cs : list cell) : list Qc :=
  match cs with
  | [] => []
  | Some q :: cs' => q :: nonnan cs'
  | None :: cs' => nonnan cs'
  end.

Definition Qcsum (qs : list Qc) : Qc := fold_right Qcplus 0 qs.

(** [sum(skipna=True, min_count=0)]: NaN cells are left out, and the sum of
    no cell at all is 0. *)
Definition sum_skipna (cs : list cell) : Qc := Qcsum (nonnan cs).

(** [Series.dropna()]. *)
Definition dropna (s : Series) : Series :=
  filter (fun kv => notna (snd kv)) s.

(** [DataFrame.iterrows()]: each row as a series labelled by the columns. *)
Definition iterrows (df : DataFrame) : list (date * Series) :=
  map (fun r => (fst r, combine (columns df) (snd r))) (rows df).

(** ** Python builtins *)

(** [min(a, b)] and [max(a, b)] keep the first argument unless the second
    is strictly smaller (resp. larger). *)
Definition Qcltb (a b : Qc) : bool :=
  match a ?= b with Lt => true | _ => false end.

Definition py_min (a b : Qc) : Qc := if Qcltb b a then b else a.
Definition py_max (a b : Qc) : Qc := if Qcltb a b then b else a.

(** [int(x)] truncates towards zero. *)
Definition py_int (q : Qc) : Z := Z.quot (Qnum q) (Zpos (Qden q)).

(** A slice bound of [l[start:stop]]: a negative bound counts from the end,
    and every bound is clamped to [0, len(l)]. *)
Definition py_slice_bound (n : nat) (i : Z) : nat :=
  if (i <? 0)%Z then Z.to_nat (Z.max 0 (i + Z.of_nat n))
  else Nat.min (Z.to_nat i) n.

Definition py_slice {A : Type} (l : list A) (start stop : Z) : list A :=
  let s := py_slice_bound (length l) start in
  let e := py_slice_bound (length l) stop in
  firstn (e - s) (skipn s l).

(** An insertion-ordered [dict] with string keys. *)
Definition dict (V : Type) := list (string * V).

Fixpoint dict_set {V : Type} (d : dict V) (k : string) (v : V) : dict V :=
  match d with
  | [] => [(k, v)]
  | (k', v') :: d' =>
      if String.eqb k k' then (k', v) :: d' else (k', v') :: dict_set d' k v
  end.

Fixpoint dict_get {V : Type} (d : dict V) (k : string) : option V :=
  match d with
  | [] => None
  | (k', v') :: d' => if String.eqb k k' then Some v' else dict_get d' k
  end.

Definition dict_keys {V : Type} (d : dict V) : list string := map fst d.

(** ** Sorting a series *)

(** [ndarray.argsort(kind="quicksort")] on floats without NaN: the indices
    that put the array in non-decreasing order. *)
Class ArgSort := {
  np_argsort : list Qc -> list nat;
  np_argsort_perm :
    forall v, Permutation (np_argsort v) (seq 0 (length v));
  np_argsort_sorted :
    forall v, StronglySorted (fun i j => nth i v 0 <= nth j v 0)
                (np_argsort v)
}.

Definition take {A : Type} (d : A) (l : list A) (ix : list nat) : list A :=
  map (fun i => nth i l d) ix.

Section Sorting.
Context {sorter : ArgSort}.

(** pandas' [nargsort(items, kind, ascending=False, na_position="last")]:
    the non-NaN items are reversed, argsorted in ascending order and
    reversed again; the NaN positions follow in their original order. *)
Definition nargsort_desc (items : list cell) : list nat :=
  let idx := seq 0 (length items) in
  let mask := fun i => isna (nth i items None) in
  let nonnans := rev (nonnan items) in
  let nonnan_idx := rev (filter (fun i => negb (mask i)) idx) in
  let nan_idx := filter mask idx in
  let indexer := take 0%nat nonnan_idx (np_argsort nonnans) in
  rev indexer ++ nan_idx.

(** [Series.sort_values(ascending=False)]. *)
Definition sort_values_desc (s : Series) : Series :=
  take (EmptyString, None) s (nargsort_desc (map snd s)).

End Sorting.

(** ** Errors *)

Inductive exn :=
| ValueError (msg : string)
| KeyError (key : string).

Inductive result (A : Type) :=
| Ok (a : A)
| Raise (e : exn).

Arguments Ok {A} a.
Arguments Raise {A} e.

(** ** Building the weight table *)

(** The body shared by both allocators once the sorted row and the
    population size [l] are known (source lines 93-116 and 169-184): slice
    indices, equal weight, a dict initialised to 0.0 for every label of the
    sorted row, then the weight for the labels in the slice. *)
Definition band_weights (pct_min pct_max : Qc) (l : nat) (sorted_row : Series)
  : dict Qc :=
  let start_index := py_int (pct_min * Qc_of_nat l / Qc_of_Z 100) in
  let end_index := py_int (pct_max * Qc_of_nat l / Qc_of_Z 100) in
  let amount_of_holdings := Z.max 1 (end_index - start_index) in
  let ticker_weight := 1 / Qc_of_Z amount_of_holdings in
  let sorted_tickers := map fst sorted_row in
  let ticker_to_weight :=
    fold_left (fun d t => dict_set d t 0) sorted_tickers [] in
  let selected_tickers := py_slice sorted_tickers start_index end_index in
  fold_left (fun d t => dict_set d t ticker_weight)
    selected_tickers ticker_to_weight.

(** One record per appended row: the ["date"] entry of the source's dict is
    kept apart from the ticker entries (no ticker is called "date"). *)
Definition record := (date * dict Qc)%type.

Definition add_key (acc : list string) (k : string) : list string :=
  if existsb (String.eqb k) acc then acc else acc ++ [k].

(** Column labels of [pd.DataFrame(list_of_dicts)]: the keys in order of
    first appearance. *)
Definition record_columns (records : list record) : list ticker :=
  fold_left (fun acc r => fold_left add_key (dict_keys (snd r)) acc)
    records [].

(** [pd.DataFrame(rows)] followed by [set_index("date", inplace=True)].  A
    key missing from a record is NaN in its row; with no record at all the
    frame has no "date" column and [set_index] raises [KeyError]. *)
Definition DataFrame_of_records (records : list record) : result DataFrame :=
  match records with
  | [] => Raise (KeyError "date")
  | _ :: _ =>
      let cols := record_columns records in
      Ok {| columns := cols;
            rows := map (fun r => (fst r, map (dict_get (snd r)) cols))
                      records |}
  end.

(** ** Rolling sums and the momentum signal *)

(** One cell of [rolling(window).sum()]: [min_periods] defaults to the
    window size, so the cell has a value only when the window holds that
    many observations that are not NaN. *)
Definition window_sum (min_periods : nat) (obs : list cell) : cell :=
  let vals := nonnan obs in
  if (min_periods <=? List.length vals)%nat then Some (Qcsum vals) else None.

(** [hist] holds the rows already seen, most recent first. *)
Fixpoint rolling_rows (window ncols : nat) (hist : list (list cell))
  (rs : list (date * list cell)) : list (date * list cell) :=
  match rs with
  | [] => []
  | (d, vs) :: rest =>
      let hist' := vs :: hist in
      let win := firstn window hist' in
      (d, map (fun j => window_sum window (map (fun r => nth j r None) win))
            (seq 0 ncols))
      :: rolling_rows window ncols hist' rest
  end.

(** [df.rolling(window=window).sum()]. *)
Definition rolling_sum (window : nat) (df : DataFrame) : DataFrame :=
  {| columns := columns df;
     rows := rolling_rows window (List.length (columns df)) [] (rows df) |}.

Definition cell_binop (f : Qc -> Qc -> Qc) (a b : cell) : cell :=
  match a, b with
  | Some x, Some y => Some (f x y)
  | _, _ => None
  end.

(** [a - b] for two frames with the same index and columns (both operands
    below are rolling sums of one panel): cell by cell. *)
Definition df_sub (a b : DataFrame) : DataFrame :=
  {| columns := columns a;
     rows := map (fun rr => (fst (fst rr),
                             map (fun cc => cell_binop Qcminus (fst cc) (snd cc))
                                 (combine (snd (fst rr)) (snd (snd rr)))))
               (combine (rows a) (rows b)) |}.

(** Source lines 142-148. *)
Definition momentum_signal (data : DataFrame) : DataFrame :=
  let twelve_month_return := rolling_sum 12 data in
  let one_month_return := rolling_sum 1 data in
  df_sub twelve_month_return one_month_return.

Section Allocators.
Context {sorter : ArgSort}.

(** ** [compute_weights_last_month_direction]

    The unused [weight_strategy] argument is left out. *)
Definition last_month_records (pct_min pct_max : Qc)
  (it : list (date * Series)) : list record :=
  map (fun dr =>
         let sorted_row := sort_values_desc (snd dr) in
         let l := List.length sorted_row in
         (fst dr, band_weights pct_min pct_max l sorted_row))
      it.

Definition compute_weights_last_month_direction (data : DataFrame)
  (top_percentile bottom_percentile : Qc) : result DataFrame :=
  let pct_min := py_min top_percentile bottom_percentile in
  let pct_max := py_max top_percentile bottom_percentile in
  DataFrame_of_records (last_month_records pct_min pct_max (iterrows data)).

(** ** [compute_weight_momentum_12_minus_1] *)

(** The loop of source lines 157-187; a [continue] appends nothing. *)
Fixpoint momentum_records (pct_min pct_max : Qc) (it : list (date * Series))
  : list record :=
  match it with
  | [] => []
  | (date, row_signal) :: rest =>
      if forallb isna (map snd row_signal)
      then momentum_records pct_min pct_max rest
      else
        let sorted_row := sort_values_desc row_signal in
        let l := List.length (dropna sorted_row) in
        if (l =? 0)%nat
        then momentum_records pct_min pct_max rest
        else (date, band_weights pct_min pct_max l sorted_row)
             :: momentum_records pct_min pct_max rest
  end.

Definition compute_weight_momentum_12_minus_1 (data : DataFrame)
  (top_percentile bottom_percentile : Qc) : result DataFrame :=
  let pct_min := py_min top_percentile bottom_percentile in
  let pct_max := py_max top_percentile bottom_percentile in
  DataFrame_of_records
    (momentum_records pct_min pct_max (iterrows (momentum_signal data))).

End Allocators.

(** ** Label alignment *)

Fixpoint insert_by {A : Type} (leb : A -> A -> bool) (x : A) (l : list A)
  : list A :=
  match l with
  | [] => [x]
  | y :: l' => if leb x y then x :: l else y :: insert_by leb x l'
  end.

Definition sort_by {A : Type} (leb : A -> A -> bool) (l : list A) : list A :=
  fold_right (insert_by leb) [] l.

(** [Index.union] as the outer join of an arithmetic operation uses it: an
    index equal to the other one is returned as it is, otherwise the result
    holds every label once, in sorted order. *)
Definition union_labels {A : Type} (eq_dec : forall x y : A, {x = y} + {x <> y})
  (leb : A -> A -> bool) (a b : list A) : list A :=
  if list_eq_dec eq_dec a b then a
  else sort_by leb (nodup eq_dec (a ++ b)).

Definition union_index : list date -> list date -> list date :=
  union_labels Z.eq_dec Z.leb.

Definition union_columns : list ticker -> list ticker -> list ticker :=
  union_labels string_dec String.leb.

Fixpoint position (t : ticker) (l : list ticker) : option nat :=
  match l with
  | [] => None
  | x :: l' => if String.eqb t x then Some 0%nat
               else option_map S (position t l')
  end.

Fixpoint row_of (rs : list (date * list cell)) (d : date)
  : option (list cell) :=
  match rs with
  | [] => None
  | (d', vs) :: rs' => if Z.eqb d d' then Some vs else row_of rs' d
  end.

(** The cell of a row under a column label; NaN when the label is absent. *)
Definition cell_of (cols : list ticker) (vs : list cell) (t : ticker) : cell :=
  match position t cols with
  | Some j => nth j vs None
  | None => None
  end.

(** [df.reindex(...)] read at one place: the cell at period [d] and column
    [t], NaN when either label is absent. *)
Definition lookup (df : DataFrame) (d : date) (t : ticker) : cell :=
  match row_of (rows df) d with
  | Some vs => cell_of (columns df) vs t
  | None => None
  end.

(** ** The performance compounder *)

(** [df.shift(1)]: the index stays, every row moves down by one place, the
    first row becomes NaN and the last row is lost. *)
Definition shift1 (df : DataFrame) : DataFrame :=
  {| columns := columns df;
     rows := combine (index df)
               (repeat None (List.length (columns df))
                :: removelast (map snd (rows df))) |}.

(** [a * b] for frames with unique labels: both operands are aligned on the
    union of the indexes and of the columns, and a cell missing on either
    side is NaN. *)
Definition df_mul (a b : DataFrame) : DataFrame :=
  let idx := union_index (index a) (index b) in
  let cols := union_columns (columns a) (columns b) in
  {| columns := cols;
     rows := map (fun d =>
                    (d, map (fun t => cell_binop Qcmult (lookup a d t)
                                                        (lookup b d t))
                          cols))
               idx |}.

Definition TimeSeries := list (date * cell).

(** [df.sum(axis=1)]: [skipna=True] and [min_count=0], so a row of NaN sums
    to 0.0. *)
Definition sum_axis1 (df : DataFrame) : TimeSeries :=
  map (fun r => (fst r, Some (sum_skipna (snd r)))) (rows df).

(** [pd.DataFrame()]. *)
Definition empty_frame : DataFrame := {| columns := []; rows := [] |}.

(** [df[name] = s] for a new column [name]: a frame with no index yet
    adopts the index of [s], its other columns being NaN there; otherwise
    [s] carries the frame's own index and its values are appended to the
    rows. *)
Definition assign_column (df : DataFrame) (name : string) (s : TimeSeries)
  : DataFrame :=
  match rows df with
  | [] => {| columns := columns df ++ [name];
             rows := map (fun dv =>
                            (fst dv,
                             repeat None (List.length (columns df))
                             ++ [snd dv]))
                       s |}
  | _ :: _ =>
      {| columns := columns df ++ [name];
         rows := map (fun rv => (fst (fst rv), snd (fst rv) ++ [snd (snd rv)]))
                   (combine (rows df) s) |}
  end.

(** [df.dropna()]: rows holding a NaN are removed. *)
Definition df_dropna (df : DataFrame) : DataFrame :=
  {| columns := columns df;
     rows := filter (fun r => forallb notna (snd r)) (rows df) |}.

(** [df[name]]. *)
Definition get_column (df : DataFrame) (name : string) : TimeSeries :=
  map (fun r => (fst r, cell_of (columns df) (snd r) name)) (rows df).

(** [cumsum()] skips NaN: such a cell stays NaN and adds nothing. *)
Fixpoint cumsum_from (acc : Qc) (cs : list cell) : list cell :=
  match cs with
  | [] => []
  | Some x :: cs' => Some (acc + x) :: cumsum_from (acc + x) cs'
  | None :: cs' => None :: cumsum_from acc cs'
  end.

Definition cumsum (s : TimeSeries) : TimeSeries :=
  combine (map fst s) (cumsum_from 0 (map snd s)).

Section Compounder.
Variable np_exp : Qc -> Qc.

(** ** [compute_index_level_and_returns] *)
Definition compute_index_level_and_returns (weights data : DataFrame)
  (start_index : Qc) : DataFrame :=
  let effective_weights := shift1 weights in
  let weighted_returns := df_mul effective_weights data in
  let performance := empty_frame in
  let performance :=
    assign_column performance "portfolio_log_return"
      (sum_axis1 weighted_returns) in
  let performance := df_dropna performance in
  let performance :=
    assign_column performance "cumulative_log_return"
      (cumsum (get_column performance "portfolio_log_return")) in
  let performance :=
    assign_column performance "index_level"
      (map (fun dv => (fst dv,
                       option_map (fun c => start_index * np_exp c) (snd dv)))
         (get_column performance "cumulative_log_return")) in
  performance.

End Compounder.

(** ** The object and its methods

    [MeanReversionPortfolio] holds its tables in fields; the performance
    tables are objects of a heap, named by their location, so that two names
    of one table can be told from two tables with equal contents.  A method
    is a state transformer that returns a value or raises; what it wrote
    before raising stays written. *)

Definition loc := nat.

Record MeanReversionPortfolio := mkPortfolio {
  data : option DataFrame;
  weights : option DataFrame;
  performance : option loc;
  percentile_results : dict loc
}.

Record world := mkWorld {
  heap : list DataFrame;
  self : MeanReversionPortfolio
}.

Definition method (A : Type) := world -> result A * world.

Definition ret {A : Type} (a : A) : method A := fun w => (Ok a, w).

Definition raise {A : Type} (e : exn) : method A := fun w => (Raise e, w).

Definition bind {A B : Type} (m : method A) (k : A -> method B) : method B :=
  fun w =>
    match m w with
    | (Ok a, w') => k a w'
    | (Raise e, w') => (Raise e, w')
    end.

Notation "x <- m ;; k" := (bind m (fun x => k))
  (at level 61, m at next level, right associativity).
Notation "m ;;; k" := (bind m (fun _ => k))
  (at level 61, right associativity).

Definition get_self : method MeanReversionPortfolio :=
  fun w => (Ok (self w), w).

Definition set_weights (W : DataFrame) : method unit :=
  fun w => (Ok tt, mkWorld (heap w)
                     (mkPortfolio (data (self w)) (Some W)
                        (performance (self w))
                        (percentile_results (self w)))).

Definition set_performance (l : loc) : method unit :=
  fun w => (Ok tt, mkWorld (heap w)
                     (mkPortfolio (data (self w)) (weights (self w))
                        (Some l) (percentile_results (self w)))).

Definition set_percentile_results (d : dict loc) : method unit :=
  fun w => (Ok tt, mkWorld (heap w)
                     (mkPortfolio (data (self w)) (weights (self w))
                        (performance (self w)) d)).

(** A new object at the next free location. *)
Definition new_object (df : DataFrame) : method loc :=
  fun w => (Ok (List.length (heap w)), mkWorld (heap w ++ [df]) (self w)).

Definition read_object (l : loc) : method DataFrame :=
  fun w => (Ok (nth l (heap w) empty_frame), w).

Fixpoint update (l : loc) (df : DataFrame) (h : list DataFrame)
  : list DataFrame :=
  match h, l with
  | [], _ => []
  | _ :: t, O => df :: t
  | x :: t, S l' => x :: update l' df t
  end.

(** The object at [l] changed in place. *)
Definition write_object (l : loc) (df : DataFrame) : method unit :=
  fun w => (Ok tt, mkWorld (update l df (heap w)) (self w)).

Section Methods.
Context {sorter : ArgSort}.
Variable np_exp : Qc -> Qc.

(** How an f-string renders a percentile. *)
Variable py_format : Qc -> string.

(** [self.weights = pd.DataFrame(rows)] is assigned before
    [set_index("date", inplace=True)] can raise. *)
Definition self_compute_weights_last_month_direction
  (top_percentile bottom_percentile : Qc) : method unit :=
  me <- get_self ;;
  match data me with
  | None => raise (ValueError "Data not fetched. Call fetch_data() first.")
  | Some d =>
      match compute_weights_last_month_direction d top_percentile
              bottom_percentile with
      | Ok W => set_weights W
      | Raise e => set_weights empty_frame ;;; raise e
      end
  end.

Definition self_compute_weight_momentum_12_minus_1
  (top_percentile bottom_percentile : Qc) : method unit :=
  me <- get_self ;;
  match data me with
  | None => raise (ValueError "Data not fetched.")
  | Some d =>
      match compute_weight_momentum_12_minus_1 d top_percentile
              bottom_percentile with
      | Ok W => set_weights W
      | Raise e => set_weights empty_frame ;;; raise e
      end
  end.

(** [self.performance = pd.DataFrame()] makes a new object, which the
    following statements fill in place; the method returns that object. *)
Definition self_compute_index_level_and_returns (start_index : Qc)
  : method loc :=
  me <- get_self ;;
  match weights me, data me with
  | Some W, Some d =>
      l <- new_object empty_frame ;;
      set_performance l ;;;
      write_object l (compute_index_level_and_returns np_exp W d start_index) ;;;
      ret l
  | _, _ => raise (ValueError "Weights or Data missing.")
  end.

(** [f"Top {top_p}% / Bottom {bottom_p}%"]. *)
Definition key_name (band : Qc * Qc) : string :=
  ("Top " ++ py_format (fst band) ++ "% / Bottom "
   ++ py_format (snd band) ++ "%")%string.

(** The loop of source lines 255-269. *)
Fixpoint scenario_loop (percentiles : list (Qc * Qc)) : method unit :=
  match percentiles with
  | [] => ret tt
  | (top_p, bottom_p) :: rest =>
      self_compute_weight_momentum_12_minus_1 top_p bottom_p ;;;
      perf_df <- self_compute_index_level_and_returns (Qc_of_Z 100) ;;
      content <- read_object perf_df ;;
      copy <- new_object content ;;
      me <- get_self ;;
      set_percentile_results
        (dict_set (percentile_results me) (key_name (top_p, bottom_p)) copy) ;;;
      scenario_loop rest
  end.

Definition construct_performances_for_percentiles
  (percentiles : list (Qc * Qc)) : method unit :=
  me <- get_self ;;
  match data me with
  | None => raise (ValueError "Data not loaded. Please call fetch_data() first.")
  | Some _ =>
      set_percentile_results [] ;;;
      scenario_loop percentiles
  end.

End Methods.

(** [__init__]: no table yet and an empty store.  The [tickers] field is
    written by [fetch_data] only and read by no method below; it is left
    out. *)
Definition new_portfolio : MeanReversionPortfolio :=
  mkPortfolio None None None [].

(** ** The reports over the store *)

(** [Series.mean()]: NaN cells are skipped, and the mean of no value is
    NaN. *)
Definition series_mean (cs : list cell) : cell :=
  let vals := nonnan cs in
  match vals with
  | [] => None
  | _ :: _ => Some (Qcsum vals / Qc_of_nat (List.length vals))
  end.

(** [Series.var()] with the default [ddof=1]: NaN cells are skipped; NaN
    unless two cells at least hold a value; otherwise the squared
    deviations from the mean, summed and divided by [count - 1]. *)
Definition series_var (cs : list cell) : cell :=
  let vals := nonnan cs in
  let count := List.length vals in
  if (count <=? 1)%nat then None
  else
    let avg := Qcsum vals / Qc_of_nat count in
    Some (Qcsum (map (fun x => (avg - x) * (avg - x)) vals)
          / Qc_of_nat (count - 1)).

(** [df[name]] for a frame with distinct column labels: the cells of the
    column, [KeyError] when there is no such column. *)
Definition getitem (df : DataFrame) (name : string) : result (list cell) :=
  if existsb (String.eqb name) (columns df)
  then Ok (map snd (get_column df name))
  else Raise (KeyError name).

(** A named series with string labels, as [pd.Series(stats, name=...)]
    builds it from a dict. *)
Definition Report := (string * dict cell)%type.

Section Reports.

(** [Series.std()] is the square root of [Series.var()]; [np.sqrt] is a
    parameter. *)
Variable np_sqrt : Qc -> Qc.

Definition series_std (cs : list cell) : cell :=
  option_map np_sqrt (series_var cs).

(** The loop shared by both reports:
    [for name, df in self.percentile_results.items(): stats[name] = f(df["portfolio_log_return"])]. *)
Fixpoint stats_loop (f : list cell -> cell) (items : dict loc)
  (stats : dict cell) : method (dict cell) :=
  match items with
  | [] => ret stats
  | (name, l) :: rest =>
      df <- read_object l ;;
      match getitem df "portfolio_log_return" with
      | Raise e => raise e
      | Ok col => stats_loop f rest (dict_set stats name (f col))
      end
  end.

(** Both reports return the lines they printed together with their value:
    [None] and one line when the store is empty, the series otherwise. *)
Definition construct_portfolio_average_holding_period_returns
  : method (list string * option Report) :=
  me <- get_self ;;
  match percentile_results me with
  | [] =>
      ret (["No performances stored. Run construct_performances_for_percentiles() first."%string],
           None)
  | _ :: _ =>
      stats <- stats_loop series_mean (percentile_results me) [] ;;
      ret ([], Some ("Average HPR (Log)"%string, stats))
  end.

Definition construct_portfolio_average_standard_deviation_for_holding_period_return
  : method (list string * option Report) :=
  me <- get_self ;;
  match percentile_results me with
  | [] =>
      ret (["No performances stored. Run construct_performances_for_percentiles() first."%string],
           None)
  | _ :: _ =>
      stats <- stats_loop series_std (percentile_results me) [] ;;
      ret ([], Some ("Std Dev HPR (Log)"%string, stats))
  end.

End Reports.

(** * Definitions used in the statements *)

Section Ranking.
Context {sorter : ArgSort}.

(** The positions of the cells that hold a value, best first. *)
Definition ranked (items : list cell) : list nat :=
  rev (take 0%nat
         (rev (filter (fun i => negb (isna (nth i items None)))
                 (seq 0 (List.length items))))
         (np_argsort (rev (nonnan items)))).

Definition nan_positions (items : list cell) : list nat :=
  filter (fun i => isna (nth i items None)) (seq 0 (List.length items)).

(** What one pass of the loop of [compute_weight_momentum_12_minus_1]
    appends for a signal row: nothing when it [continue]s. *)
Definition momentum_record (pmin pmax : Qc) (row_signal : Series)
  : option (dict Qc) :=
  if forallb isna (map snd row_signal) then None
  else
    let sorted_row := sort_values_desc row_signal in
    let l := List.length (dropna sorted_row) in
    if (l =? 0)%nat then None
    else Some (band_weights pmin pmax l sorted_row).

End Ranking.

Section Compounded.
Variable np_exp : Qc -> Qc.

(** The three cells of each period, the running sum carried along. *)
Fixpoint compounded (start acc : Qc) (l : list (date * Qc))
  : list (date * list cell) :=
  match l with
  | [] => []
  | (d, r) :: rest =>
      (d, [Some r; Some (acc + r); Some (start * np_exp (acc + r))])
      :: compounded start (acc + r) rest
  end.

Definition row_sums (df : DataFrame) : list (date * Qc) :=
  map (fun r => (fst r, sum_skipna (snd r))) (rows df).

End Compounded.

(** What the compounder sums for period [d]. *)
Definition weighted_return (W D : DataFrame) (d : date) : Qc :=
  sum_skipna
    (map (fun t => cell_binop Qcmult (lookup (shift1 W) d t) (lookup D d t))
       (union_columns (columns W) (columns D))).

(** The dict that [band_weights] builds, written out: zeros, then the
    weight on the stretch from [s] to [e], then zeros. *)
Definition band_dict (w : Qc) (s e : nat) (tickers : list ticker) : dict Qc :=
  map (fun t => (t, 0)) (firstn s tickers)
  ++ map (fun t => (t, w)) (firstn (e - s) (skipn s tickers))
  ++ map (fun t => (t, 0)) (skipn e tickers).


(** The returns column of the table stored at [l]. *)
Definition returns_at (h : list DataFrame) (l : loc) : list cell :=
  map snd (get_column (nth l h empty_frame) "portfolio_log_return").

(** The largest integer not above a rational. *)
Definition floor (x : Qc) : Z := Qfloor (this x).

(** The two slice indices of [band_weights] for a population of [l]. *)
Definition slice_index (pct : Qc) (l : nat) : Z :=
  py_int (pct * Qc_of_nat l / Qc_of_Z 100).

(** [selected_tickers] and [ticker_weight] as [band_weights] computes
    them. *)
Definition selected_tickers (pct_min pct_max : Qc) (l : nat)
  (sorted_row : Series) : list ticker :=
  py_slice (map fst sorted_row) (slice_index pct_min l) (slice_index pct_max l).

Definition ticker_weight (pct_min pct_max : Qc) (l : nat) : Qc :=
  1 / Qc_of_Z (Z.max 1 (slice_index pct_max l - slice_index pct_min l)).


(** The last [window] entries among the first [i + 1], most recent first. *)
Definition trailing {A : Type} (window i : nat) (l : list A) : list A :=
  firstn window (rev (firstn (S i) l)).

Definition column_of (j : nat) (rs : list (list cell)) : list cell :=
  map (fun r => nth j r None) rs.

Section Stored.
Context {sorter : ArgSort}.
Variable np_exp : Qc -> Qc.
Variable py_format : Qc -> string.

(** What the loop adds to the store when it starts on a heap of [n]
    objects: each band's copy is the second of the two objects its
    iteration creates. *)
Fixpoint stored (n : nat) (ps : list (Qc * Qc)) : dict loc :=
  match ps with
  | [] => []
  | band :: ps' => (key_name py_format band, S n) :: stored (S (S n)) ps'
  end.

Definition performance_of (D : DataFrame) (band : Qc * Qc) : option DataFrame :=
  match compute_weight_momentum_12_minus_1 D (fst band) (snd band) with
  | Ok W => Some (compute_index_level_and_returns np_exp W D (Qc_of_Z 100))
  | Raise _ => None
  end.

End Stored.

(** ** A concrete sorter

    Insertion sort over the indices: one member of [ArgSort], used to run
    the examples. *)
Definition Qcleb (a b : Qc) : bool :=
  match a ?= b with Gt => false | _ => true end.

Definition insertion_argsort (v : list Qc) : list nat :=
  fold_right (insert_by (fun i j => Qcleb (nth i v 0) (nth j v 0))) []
    (seq 0 (List.length v)).

Section InsertionSort.
Variable A : Type.
Variable leb : A -> A -> bool.

Lemma insert_by_perm (x : A) (l : list A) :
  Permutation (insert_by leb x l) (x :: l).
Proof.
  induction l as [|y l IH]; simpl; [reflexivity|].
  destruct (leb x y); [reflexivity|].
  rewrite IH. apply perm_swap.
Qed.

Lemma sort_by_perm (l : list A) : Permutation (sort_by leb l) l.
Proof.
  induction l as [|x l IH]; simpl; [reflexivity|].
  rewrite insert_by_perm. now constructor.
Qed.

Hypothesis leb_total : forall x y, leb x y = false -> leb y x = true.
Hypothesis leb_trans :
  forall x y z, leb x y = true -> leb y z = true -> leb x z = true.

Lemma insert_by_sorted (x : A) (l : list A) :
  StronglySorted (fun a b => leb a b = true) l ->
  StronglySorted (fun a b => leb a b = true) (insert_by leb x l).
Proof.
  induction 1 as [|y l Hs IH Hy]; simpl.
  - repeat constructor.
  - destruct (leb x y) eqn:E.
    + constructor; [now constructor|].
      constructor; [exact E|].
      eapply Forall_impl; [|exact Hy]. intros z Hz. eauto.
    + constructor; [exact IH|].
      eapply Permutation_Forall; [symmetry; apply insert_by_perm|].
      constructor; auto.
Qed.

Lemma sort_by_sorted (l : list A) :
  StronglySorted (fun a b => leb a b = true) (sort_by leb l).
Proof.
  induction l as [|x l IH]; simpl; [constructor|].
  now apply insert_by_sorted.
Qed.

End InsertionSort.

Lemma StronglySorted_weaken (A : Type) (R S : A -> A -> Prop) (l : list A) :
  (forall x y, R x y -> S x y) -> StronglySorted R l -> StronglySorted S l.
Proof.
  intros HRS. induction 1 as [|x l Hs IH Hx]; constructor; auto.
  eapply Forall_impl; [|exact Hx]. auto.
Qed.

Lemma Qcleb_le (a b : Qc) : Qcleb a b = true <-> a <= b.
Proof.
  unfold Qcleb. rewrite Qcle_alt.
  destruct (a ?= b); split; intros; congruence.
Qed.

Lemma insertion_argsort_perm (v : list Qc) :
  Permutation (insertion_argsort v) (seq 0 (List.length v)).
Proof. apply sort_by_perm. Qed.

Lemma insertion_argsort_sorted (v : list Qc) :
  StronglySorted (fun i j => nth i v 0 <= nth j v 0) (insertion_argsort v).
Proof.
  unfold insertion_argsort.
  eapply StronglySorted_weaken;
    [| apply (sort_by_sorted (fun i j => Qcleb (nth i v 0) (nth j v 0)))].
  - intros i j H. now apply Qcleb_le.
  - intros i j H. apply Qcleb_le.
    destruct (Qclt_le_dec (nth j v 0) (nth i v 0)) as [Hlt|Hle].
    + now apply Qclt_le_weak.
    + apply Qcleb_le in Hle. congruence.
  - intros i j k H1 H2. apply Qcleb_le. apply Qcleb_le in H1, H2.
    eapply Qcle_trans; eauto.
Qed.

#[export] Instance insertion_sorter : ArgSort := {|
  np_argsort := insertion_argsort;
  np_argsort_perm := insertion_argsort_perm;
  np_argsort_sorted := insertion_argsort_sorted
|}.

(** * Worked example

    The panel of four tickers over three periods used throughout:
    A = 0.01, 0.02, -0.01; B = -0.02, 0.00, 0.03; C = 0.03, -0.01, 0.00;
    D = 0.00, 0.01, 0.02. *)

Definition pct (n : Z) (d : positive) : cell := Some (Q2Qc (n # d)).

Definition panel4 : DataFrame :=
  {| columns := ["A"; "B"; "C"; "D"]%string;
     rows := [ (1%Z, [pct 1 100; pct (-2) 100; pct 3 100; pct 0 100]);
               (2%Z, [pct 2 100; pct 0 100; pct (-1) 100; pct 1 100]);
               (3%Z, [pct (-1) 100; pct 3 100; pct 0 100; pct 2 100]) ] |}.

Definition frame_of (r : result DataFrame) : DataFrame :=
  match r with Ok df => df | Raise _ => empty_frame end.

(** Top half of [panel4] under the last-month ranking. *)
Definition weights4 : DataFrame :=
  frame_of (compute_weights_last_month_direction
              (sorter := insertion_sorter) panel4 (Qc_of_Z 50) (Qc_of_Z 0)).

(** [panel4] with another third period and a fourth one. *)
Definition panel4_later : DataFrame :=
  {| columns := ["A"; "B"; "C"; "D"]%string;
     rows := [ (1%Z, [pct 1 100; pct (-2) 100; pct 3 100; pct 0 100]);
               (2%Z, [pct 2 100; pct 0 100; pct (-1) 100; pct 1 100]);
               (3%Z, [pct 5 100; None; pct (-4) 100; pct 7 100]);
               (4%Z, [pct 0 100; pct 1 100; pct 1 100; pct (-9) 100]) ] |}.

Definition weights4_later : DataFrame :=
  frame_of (compute_weights_last_month_direction
              (sorter := insertion_sorter) panel4_later (Qc_of_Z 50)
              (Qc_of_Z 0)).

(** A stand-in for [np.exp] where a concrete function is needed: the first
    two terms of its series. *)
Definition exp_order1 (x : Qc) : Qc := 1 + x.

Definition performance4 : DataFrame :=
  compute_index_level_and_returns exp_order1 weights4 panel4 (Qc_of_Z 100).

(** A panel of two tickers over thirteen periods.  A moves by k percent in
    period k; B by (20 - k) percent, with no observation in period 1. *)
Definition panel13 : DataFrame :=
  {| columns := ["A"; "B"]%string;
     rows := (1%Z, [pct 1 100; None])
             :: map (fun k => (k, [pct k 100; pct (20 - k) 100]))
                  [2; 3; 4; 5; 6; 7; 8; 9; 10; 11; 12; 13]%Z |}.

Definition momentum_weights13 : DataFrame :=
  frame_of (compute_weight_momentum_12_minus_1
              (sorter := insertion_sorter) panel13 (Qc_of_Z 100) (Qc_of_Z 0)).

Definition performance13 : DataFrame :=
  compute_index_level_and_returns exp_order1 momentum_weights13 panel13
    (Qc_of_Z 100).

(** A panel whose second period has no observation at all. *)
Definition panel_gap : DataFrame :=
  {| columns := ["A"; "B"]%string;
     rows := [ (1%Z, [pct 1 100; pct 2 100]);
               (2%Z, [None; None]);
               (3%Z, [pct 3 100; pct (-1) 100]) ] |}.

Definition weights_gap : DataFrame :=
  frame_of (compute_weights_last_month_direction
              (sorter := insertion_sorter) panel_gap (Qc_of_Z 50) (Qc_of_Z 0)).

(** How Python prints a whole-number percentile. *)
Definition format_int (x : Qc) : string :=
  NilZero.string_of_int (Z.to_int (Qnum x)).

(** A fresh engine. *)
Definition world0 : world := mkWorld [] new_portfolio.


(** An engine that has loaded [panel13] and still holds a result of an
    earlier run. *)
Definition world13 : world :=
  mkWorld [empty_frame]
    (mkPortfolio (Some panel13) None None [("Top 5% / Bottom 0%"%string, 0%nat)]).

Definition bands13 : list (Qc * Qc) :=
  [(Qc_of_Z 100, Qc_of_Z 0); (Qc_of_Z 0, Qc_of_Z 50)].

Definition world13' : world :=
  snd (construct_performances_for_percentiles (sorter := insertion_sorter)
         exp_order1 format_int bands13 world13).

(** [world13] after the calls [compute_weight_momentum_12_minus_1(100, 0)],
    [compute_index_level_and_returns(100)],
    [compute_weight_momentum_12_minus_1(0, 50)] and
    [compute_index_level_and_returns(100)]. *)
Definition world13_weighted : world :=
  snd (self_compute_weight_momentum_12_minus_1 (sorter := insertion_sorter)
         (Qc_of_Z 100) (Qc_of_Z 0) world13).

Definition world13_first : world :=
  snd (self_compute_index_level_and_returns exp_order1 (Qc_of_Z 100)
         world13_weighted).

Definition world13_reweighted : world :=
  snd (self_compute_weight_momentum_12_minus_1 (sorter := insertion_sorter)
         (Qc_of_Z 0) (Qc_of_Z 50) world13_first).

Definition world13_second : world :=
  snd (self_compute_index_level_and_returns exp_order1 (Qc_of_Z 100)
         world13_reweighted).

(** A list that names the first band a second time. *)
Definition bands13_twice : list (Qc * Qc) :=
  [(Qc_of_Z 100, Qc_of_Z 0); (Qc_of_Z 0, Qc_of_Z 50);
   (Qc_of_Z 100, Qc_of_Z 0)].

Definition world13_twice : world :=
  snd (construct_performances_for_percentiles (sorter := insertion_sorter)
         exp_order1 format_int bands13_twice world13).

(** * Properties *)


Lemma Qcltb_lt (a b : Qc) : Qcltb a b = true <-> a < b.
Proof.
  unfold Qcltb. rewrite Qclt_alt.
  destruct (a ?= b); split; intros; congruence.
Qed.

(** ** Lists read through their positions *)

Lemma take_seq (A : Type) (d : A) (l : list A) :
  take d l (seq 0 (List.length l)) = l.
Proof.
  unfold take. induction l as [|x l IH] using rev_ind; [reflexivity|].
  rewrite length_app. simpl List.length. rewrite Nat.add_1_r, seq_S, map_app. simpl.
  rewrite nth_middle. f_equal.
  rewrite <- IH at 2. apply map_ext_in. intros i Hi.
  apply in_seq in Hi. apply app_nth1. lia.
Qed.

Lemma take_perm (A : Type) (d : A) (l : list A) (ix : list nat) :
  Permutation ix (seq 0 (List.length l)) -> Permutation (take d l ix) l.
Proof.
  intros H. rewrite <- (take_seq d l) at 2.
  unfold take. now apply Permutation_map.
Qed.

Lemma take_app (A : Type) (d : A) (l : list A) (ix jx : list nat) :
  take d l (ix ++ jx) = take d l ix ++ take d l jx.
Proof. apply map_app. Qed.

Lemma filter_seq_nth (A : Type) (d : A) (p : A -> bool) (l : list A) :
  take d l (filter (fun i => p (nth i l d)) (seq 0 (List.length l)))
  = filter p l.
Proof.
  unfold take. induction l as [|x l IH] using rev_ind; [reflexivity|].
  rewrite length_app. simpl List.length.
  rewrite Nat.add_1_r, seq_S, !filter_app, map_app.
  f_equal.
  - rewrite <- IH.
    rewrite (filter_ext_in (fun i => p (nth i (l ++ [x]) d))
               (fun i => p (nth i l d))).
    + apply map_ext_in. intros i Hi. apply filter_In in Hi.
      destruct Hi as [Hi _]. apply in_seq in Hi. apply app_nth1. lia.
    + intros i Hi. apply in_seq in Hi. now rewrite app_nth1 by lia.
  - cbn [filter Nat.add]. rewrite nth_middle.
    destruct (p x); [cbn [map]; now rewrite nth_middle | reflexivity].
Qed.

Lemma length_filter_seq (A : Type) (d : A) (p : A -> bool) (l : list A) :
  List.length (filter (fun i => p (nth i l d)) (seq 0 (List.length l)))
  = List.length (filter p l).
Proof. rewrite <- (filter_seq_nth d p l). unfold take. now rewrite length_map. Qed.

Lemma filter_partition (A : Type) (p : A -> bool) (l : list A) :
  Permutation (filter (fun x => negb (p x)) l ++ filter p l) l.
Proof.
  induction l as [|x l IH]; simpl; [reflexivity|].
  destruct (p x); simpl.
  - rewrite <- Permutation_middle. now constructor.
  - now constructor.
Qed.

Lemma nonnan_filter (cs : list cell) :
  map Some (nonnan cs) = filter notna cs.
Proof.
  induction cs as [|[x|] cs IH]; simpl; [reflexivity| |exact IH].
  now rewrite IH.
Qed.

Lemma nonnan_length (cs : list cell) :
  List.length (nonnan cs) = List.length (filter notna cs).
Proof. now rewrite <- nonnan_filter, length_map. Qed.

Lemma nonnan_app (a b : list cell) : nonnan (a ++ b) = nonnan a ++ nonnan b.
Proof.
  induction a as [|[x|] a IH]; simpl; [reflexivity| |exact IH].
  now rewrite IH.
Qed.

(** ** What [sort_values] guarantees *)

Section SortFacts.
Context {sorter : ArgSort}.

Lemma nargsort_desc_split (items : list cell) :
  nargsort_desc items = ranked items ++ nan_positions items.
Proof. reflexivity. Qed.

Lemma ranked_perm (items : list cell) :
  Permutation (ranked items)
    (filter (fun i => negb (isna (nth i items None)))
       (seq 0 (List.length items))).
Proof.
  unfold ranked. rewrite <- Permutation_rev.
  rewrite (Permutation_rev (filter _ _)) at 2.
  apply take_perm.
  eapply Permutation_trans; [apply np_argsort_perm|].
  rewrite !length_rev, nonnan_length.
  rewrite <- (length_filter_seq (None : cell) notna items). reflexivity.
Qed.

Lemma nargsort_desc_perm (items : list cell) :
  Permutation (nargsort_desc items) (seq 0 (List.length items)).
Proof.
  rewrite nargsort_desc_split, ranked_perm. apply filter_partition.
Qed.

Lemma sort_values_desc_perm (s : Series) :
  Permutation (sort_values_desc s) s.
Proof.
  unfold sort_values_desc. apply take_perm.
  pose proof (nargsort_desc_perm (map snd s)) as H.
  now rewrite length_map in H.
Qed.

Lemma sort_values_desc_length (s : Series) :
  List.length (sort_values_desc s) = List.length s.
Proof. apply Permutation_length, sort_values_desc_perm. Qed.

End SortFacts.

(** ** Band normalisation *)

Lemma py_min_comm (a b : Qc) : py_min a b = py_min b a.
Proof.
  unfold py_min.
  destruct (Qcltb b a) eqn:Hba, (Qcltb a b) eqn:Hab; try reflexivity.
  - apply Qcltb_lt in Hba, Hab.
    exfalso. eapply Qclt_not_le; [exact Hba|]. now apply Qclt_le_weak.
  - destruct (Qc_dec a b) as [[H|H]|H]; [| |now subst].
    + apply Qcltb_lt in H. congruence.
    + apply Qcltb_lt in H. congruence.
Qed.

Lemma py_max_comm (a b : Qc) : py_max a b = py_max b a.
Proof.
  unfold py_max.
  destruct (Qcltb b a) eqn:Hba, (Qcltb a b) eqn:Hab; try reflexivity.
  - apply Qcltb_lt in Hba, Hab.
    exfalso. eapply Qclt_not_le; [exact Hba|]. now apply Qclt_le_weak.
  - destruct (Qc_dec a b) as [[H|H]|H]; [| |now subst].
    + apply Qcltb_lt in H. congruence.
    + apply Qcltb_lt in H. congruence.
Qed.

Lemma py_min_le_max (a b : Qc) : py_min a b <= py_max a b.
Proof.
  unfold py_min, py_max.
  destruct (Qcltb b a) eqn:Hba, (Qcltb a b) eqn:Hab.
  - apply Qcle_refl.
  - apply Qcltb_lt in Hba. now apply Qclt_le_weak.
  - apply Qcltb_lt in Hab. now apply Qclt_le_weak.
  - apply Qcle_refl.
Qed.

Lemma py_min_cases (a b : Qc) : py_min a b = a \/ py_min a b = b.
Proof. unfold py_min. destruct (Qcltb b a); auto. Qed.

Lemma py_max_cases (a b : Qc) : py_max a b = a \/ py_max a b = b.
Proof. unfold py_max. destruct (Qcltb a b); auto. Qed.

(** ** The rows of the performance table *)

Section CompounderFacts.
Variable np_exp : Qc -> Qc.

Lemma assign_column_eq (df : DataFrame) (name : string) (s : TimeSeries) :
  (rows df = [] -> s = []) ->
  assign_column df name s
  = {| columns := columns df ++ [name];
       rows := map (fun rv => (fst (fst rv), snd (fst rv) ++ [snd (snd rv)]))
                 (combine (rows df) s) |}.
Proof.
  unfold assign_column. destruct (rows df); [|reflexivity].
  intros H. now rewrite H.
Qed.

Lemma first_column_eq (name : string) (s : list (date * Qc)) :
  df_dropna (assign_column empty_frame name
               (map (fun r => (fst r, Some (snd r))) s))
  = {| columns := [name];
       rows := map (fun r => (fst r, [Some (snd r)])) s |}.
Proof.
  unfold df_dropna, assign_column.
  cbn [rows columns empty_frame app List.length repeat].
  f_equal. rewrite map_map. cbn [fst snd].
  induction s as [|[d r] s IH]; [reflexivity|].
  cbn. now rewrite IH.
Qed.

Lemma compounded_aux (start : Qc) (l : list (date * Qc)) (acc : Qc) :
  let rows1 := map (fun r => (fst r, [Some (snd r)])) l in
  let s2 := combine (map fst l) (cumsum_from acc (map (fun r => Some (snd r)) l)) in
  let rows2 := map (fun rv => (fst (fst rv), snd (fst rv) ++ [snd (snd rv)]))
                 (combine rows1 s2) in
  let s3 := map (fun r => (fst r,
                           option_map (fun c => start * np_exp c)
                             (nth 1 (snd r) None))) rows2 in
  map (fun rv => (fst (fst rv), snd (fst rv) ++ [snd (snd rv)]))
    (combine rows2 s3)
  = compounded np_exp start acc l.
Proof.
  revert acc. induction l as [|[d r] l IH]; intros acc; [reflexivity|].
  cbn. f_equal. apply IH.
Qed.

Lemma compute_index_level_and_returns_rows (W D : DataFrame) (start : Qc) :
  rows (compute_index_level_and_returns np_exp W D start)
  = compounded np_exp start 0 (row_sums (df_mul (shift1 W) D)).
Proof.
  unfold compute_index_level_and_returns. cbv zeta.
  replace (sum_axis1 (df_mul (shift1 W) D))
    with (map (fun r : date * Qc => (fst r, Some (snd r)))
            (row_sums (df_mul (shift1 W) D)))
    by (unfold row_sums, sum_axis1; now rewrite map_map).
  generalize (row_sums (df_mul (shift1 W) D)) as l. intros l.
  rewrite first_column_eq.
  rewrite <- compounded_aux. cbv zeta.
  assert (G1 : get_column
                 {| columns := ["portfolio_log_return"%string];
                    rows := map (fun r : date * Qc => (fst r, [Some (snd r)])) l |}
                 "portfolio_log_return"
               = map (fun r : date * Qc => (fst r, Some (snd r))) l).
  { unfold get_column. cbn [rows columns]. rewrite map_map. reflexivity. }
  rewrite G1. unfold cumsum. rewrite !map_map. cbn [fst snd].
  match goal with
  | |- context [assign_column ?a "cumulative_log_return" ?c] =>
      rewrite (@assign_column_eq a "cumulative_log_return" c)
  end.
  2:{ cbn [rows]. destruct l; [reflexivity|discriminate]. }
  cbn [rows columns app].
  match goal with
  | |- context [assign_column ?a "index_level" ?c] =>
      rewrite (@assign_column_eq a "index_level" c)
  end.
  2:{ cbn [rows]. intros ->. reflexivity. }
  cbn [rows]. f_equal. f_equal.
  unfold get_column. cbn [rows columns]. rewrite !map_map.
  apply map_ext. intros [[d vs] [d' c]]. reflexivity.
Qed.

End CompounderFacts.

(** ** Sums and permutations *)

Lemma Qcsum_app (a b : list Qc) : Qcsum (a ++ b) = Qcsum a + Qcsum b.
Proof.
  unfold Qcsum. induction a as [|x a IH]; simpl; [ring|].
  rewrite IH. ring.
Qed.

Lemma Qcsum_perm (a b : list Qc) : Permutation a b -> Qcsum a = Qcsum b.
Proof.
  unfold Qcsum. induction 1; simpl; try congruence; ring.
Qed.

Lemma nonnan_perm (a b : list cell) :
  Permutation a b -> Permutation (nonnan a) (nonnan b).
Proof.
  induction 1 as [|x a b H IH|x y a|a b c H1 IH1 H2 IH2].
  - constructor.
  - destruct x; simpl; [now constructor | exact IH].
  - destruct x, y; simpl; try reflexivity. apply perm_swap.
  - now transitivity (nonnan b).
Qed.

Lemma sum_skipna_perm (a b : list cell) :
  Permutation a b -> sum_skipna a = sum_skipna b.
Proof. intros H. apply Qcsum_perm, nonnan_perm, H. Qed.

Lemma sum_skipna_app (a b : list cell) :
  sum_skipna (a ++ b) = sum_skipna a + sum_skipna b.
Proof. unfold sum_skipna. now rewrite nonnan_app, Qcsum_app. Qed.

Lemma sum_skipna_all_nan (A : Type) (f : A -> cell) (l : list A) :
  (forall x, In x l -> f x = None) -> sum_skipna (map f l) = 0.
Proof.
  induction l as [|x l IH]; intros H; [reflexivity|].
  simpl. unfold sum_skipna in *. simpl.
  rewrite (H x) by now left. apply IH. intros y Hy. apply H. now right.
Qed.

(** A duplicate-free list that covers another one is that list followed by
    a remainder, up to order. *)
Lemma NoDup_incl_split (A : Type) (a u : list A) :
  NoDup a -> NoDup u -> incl a u ->
  exists rest, Permutation u (a ++ rest) /\ forall x, In x rest -> ~ In x a.
Proof.
  intros Ha. revert u. induction Ha as [|x a Hx Ha IH]; intros u Hu Hi.
  - exists u. split; [reflexivity|]. intros y _ [].
  - assert (Hxu : In x u) by (apply Hi; now left).
    apply in_split in Hxu. destruct Hxu as (u1 & u2 & ->).
    apply NoDup_remove in Hu. destruct Hu as [Hu Hxn].
    destruct (IH (u1 ++ u2) Hu) as (rest & Hp & Hr).
    + intros y Hy. assert (Hy' : In y (u1 ++ x :: u2)) by (apply Hi; now right).
      apply in_app_or in Hy'. apply in_or_app.
      destruct Hy' as [Hy'|[Hy'|Hy']]; auto. subst. contradiction.
    + exists rest. split.
      * rewrite <- Permutation_middle. simpl. now constructor.
      * intros y Hy [Hy'|Hy']; [|now apply (Hr y)].
        subst y. apply Hxn. eapply Permutation_in; [symmetry; exact Hp|].
        apply in_or_app. now right.
Qed.

Lemma sum_skipna_cover (f : ticker -> cell) (a u : list ticker) :
  NoDup a -> NoDup u -> incl a u ->
  (forall t, ~ In t a -> f t = None) ->
  sum_skipna (map f u) = sum_skipna (map f a).
Proof.
  intros Ha Hu Hi Hf.
  destruct (NoDup_incl_split Ha Hu Hi) as (rest & Hp & Hr).
  rewrite (sum_skipna_perm (Permutation_map f Hp)).
  rewrite map_app, sum_skipna_app.
  rewrite (sum_skipna_all_nan f rest) by (intros t Ht; apply Hf, Hr, Ht).
  ring.
Qed.

(** ** Sorted unions *)

Lemma sorted_perm_eq (A : Type) (R : A -> A -> Prop) (l1 l2 : list A) :
  (forall x y, R x y -> R y x -> x = y) ->
  (forall x, R x x) ->
  StronglySorted R l1 -> StronglySorted R l2 -> Permutation l1 l2 -> l1 = l2.
Proof.
  intros Hanti Hrefl H1. revert l2.
  induction H1 as [|x l1 Hs IH Hx]; intros l2 H2 Hp.
  - apply Permutation_nil in Hp. now subst.
  - destruct H2 as [|y l2 Hs2 Hy].
    + symmetry in Hp. apply Permutation_nil in Hp. discriminate.
    + assert (x = y).
      { apply Hanti.
        - assert (Hin : In y (x :: l1))
            by (eapply Permutation_in; [symmetry; exact Hp|now left]).
          destruct Hin as [->|Hin]; [apply Hrefl|].
          rewrite Forall_forall in Hx. now apply Hx.
        - assert (Hin : In x (y :: l2))
            by (eapply Permutation_in; [exact Hp|now left]).
          destruct Hin as [->|Hin]; [apply Hrefl|].
          rewrite Forall_forall in Hy. now apply Hy. }
      subst y. f_equal. apply IH; [exact Hs2|].
      eapply Permutation_cons_inv. exact Hp.
Qed.

Lemma Zleb_sort_sorted (l : list Z) : StronglySorted Z.le (sort_by Z.leb l).
Proof.
  eapply StronglySorted_weaken; [|apply (sort_by_sorted Z.leb)].
  - intros x y H. now apply Z.leb_le.
  - intros x y H. apply Z.leb_le. apply Z.leb_gt in H. lia.
  - intros x y z H1 H2. apply Z.leb_le. apply Z.leb_le in H1, H2. lia.
Qed.

Lemma sorted_lt_NoDup (l : list Z) : StronglySorted Z.lt l -> NoDup l.
Proof.
  induction 1 as [|x l Hs IH Hx]; constructor; [|exact IH].
  intros Hin. rewrite Forall_forall in Hx. specialize (Hx x Hin). lia.
Qed.

(** On an ascending index that already holds every label of the other
    operand, the outer join is that index. *)
Lemma union_index_cover (a b : list date) :
  StronglySorted Z.lt b -> incl a b -> union_index a b = b.
Proof.
  intros Hb Hi. unfold union_index, union_labels.
  destruct (list_eq_dec Z.eq_dec a b) as [->|_]; [reflexivity|].
  apply sorted_perm_eq with (R := Z.le).
  - intros; lia.
  - intros; lia.
  - apply Zleb_sort_sorted.
  - eapply StronglySorted_weaken; [|exact Hb]. intros; lia.
  - rewrite sort_by_perm. apply NoDup_Permutation.
    + apply NoDup_nodup.
    + now apply sorted_lt_NoDup.
    + intros x. rewrite nodup_In, in_app_iff. split; [|auto].
      intros [H|H]; auto.
Qed.

Lemma union_columns_NoDup (a b : list ticker) :
  NoDup a -> NoDup (union_columns a b).
Proof.
  intros Ha. unfold union_columns, union_labels.
  destruct (list_eq_dec string_dec a b); [exact Ha|].
  eapply Permutation_NoDup; [symmetry; apply sort_by_perm|].
  apply NoDup_nodup.
Qed.

Lemma union_columns_In (a b : list ticker) (t : ticker) :
  In t (union_columns a b) <-> In t a \/ In t b.
Proof.
  unfold union_columns, union_labels.
  destruct (list_eq_dec string_dec a b) as [->|_]; [tauto|].
  split.
  - intros H. eapply Permutation_in in H; [|apply sort_by_perm].
    now rewrite nodup_In, in_app_iff in H.
  - intros H. eapply Permutation_in; [symmetry; apply sort_by_perm|].
    now rewrite nodup_In, in_app_iff.
Qed.

(** ** Reading frames by label *)

Lemma row_of_nth (rs : list (date * list cell)) (k : nat) (d : date)
  (vs : list cell) :
  NoDup (map fst rs) -> nth_error rs k = Some (d, vs) -> row_of rs d = Some vs.
Proof.
  revert k. induction rs as [|[d' vs'] rs IH]; intros k Hnd Hk.
  - destruct k; discriminate.
  - simpl. inversion Hnd as [|? ? Hnotin Hnd']; subst.
    destruct k as [|k]; simpl in Hk.
    + inversion Hk; subst. now rewrite Z.eqb_refl.
    + destruct (Z.eqb_spec d d') as [->|_]; [|eauto].
      exfalso. apply Hnotin. apply nth_error_In in Hk.
      now apply (in_map fst) in Hk.
Qed.

Lemma row_of_map (g : date -> list cell) (idx : list date) (d : date) :
  In d idx -> row_of (map (fun d => (d, g d)) idx) d = Some (g d).
Proof.
  induction idx as [|d' idx IH]; intros Hin; [destruct Hin|].
  simpl. destruct (Z.eqb_spec d d') as [->|Hne]; [reflexivity|].
  destruct Hin as [->|Hin]; [contradiction|auto].
Qed.

Lemma cell_of_absent (cols : list ticker) (vs : list cell) (t : ticker) :
  ~ In t cols -> cell_of cols vs t = None.
Proof.
  unfold cell_of. intros H.
  assert (E : position t cols = None); [|now rewrite E].
  induction cols as [|c cols IH]; [reflexivity|].
  simpl. destruct (String.eqb_spec t c) as [->|_].
  - exfalso. apply H. now left.
  - rewrite IH; [reflexivity|]. intros Hin. apply H. now right.
Qed.

Lemma lookup_absent_column (df : DataFrame) (d : date) (t : ticker) :
  ~ In t (columns df) -> lookup df d t = None.
Proof.
  intros H. unfold lookup. destruct (row_of (rows df) d); [|reflexivity].
  now apply cell_of_absent.
Qed.

Lemma cell_of_all_nan (cols : list ticker) (n : nat) (t : ticker) :
  cell_of cols (repeat None n) t = None.
Proof.
  unfold cell_of. destruct (position t cols) as [j|]; [|reflexivity].
  revert j. induction n as [|n IH]; intros [|j]; simpl; auto.
Qed.

(** ** The one-period lag *)

Lemma index_combine (A B : Type) (a : list A) (b : list B) :
  (List.length a <= List.length b)%nat -> map fst (combine a b) = a.
Proof.
  revert b. induction a as [|x a IH]; intros [|y b] H; simpl in *;
    try reflexivity; try lia.
  f_equal. apply IH. lia.
Qed.

Lemma removelast_length (A : Type) (l : list A) :
  List.length (removelast l) = pred (List.length l).
Proof.
  induction l as [|x [|y l] IH]; try reflexivity.
  change (removelast (x :: y :: l)) with (x :: removelast (y :: l)).
  cbn [List.length]. now rewrite IH.
Qed.

Lemma index_shift1 (W : DataFrame) : index (shift1 W) = index W.
Proof.
  unfold index, shift1. cbn [rows]. apply index_combine.
  cbn [List.length]. rewrite removelast_length, !length_map. lia.
Qed.

Lemma shifted_rows (rs : list (date * list cell)) (x : list cell) (i : nat)
  (T T' : date) (wT wT' : list cell) :
  nth_error rs i = Some (T, wT) ->
  nth_error rs (S i) = Some (T', wT') ->
  nth_error (combine (map fst rs) (x :: removelast (map snd rs))) (S i)
  = Some (T', wT).
Proof.
  revert x i. induction rs as [|r0 rs IH]; intros x i Hi HSi.
  - destruct i; discriminate.
  - destruct rs as [|r1 rs]; [destruct i; discriminate|].
    change (removelast (map snd (r0 :: r1 :: rs)))
      with (snd r0 :: removelast (map snd (r1 :: rs))).
    cbn [map combine nth_error].
    destruct i as [|i].
    + cbn in Hi, HSi. inversion Hi; inversion HSi; subst. reflexivity.
    + apply IH; assumption.
Qed.

Lemma shift1_next (W : DataFrame) (i : nat) (T T' : date) (wT wT' : list cell) :
  nth_error (rows W) i = Some (T, wT) ->
  nth_error (rows W) (S i) = Some (T', wT') ->
  nth_error (rows (shift1 W)) (S i) = Some (T', wT).
Proof. intros. unfold shift1, index. cbn [rows]. eapply shifted_rows; eauto. Qed.

Lemma shift1_first (W : DataFrame) (T : date) (wT : list cell)
  (rest : list (date * list cell)) :
  rows W = (T, wT) :: rest ->
  nth_error (rows (shift1 W)) 0
  = Some (T, repeat None (List.length (columns W))).
Proof. intros H. unfold shift1, index. cbn [rows]. now rewrite H. Qed.

(** ** The performance table, period by period *)

Section PerformanceFacts.
Variable np_exp : Qc -> Qc.

Lemma row_sums_df_mul (W D : DataFrame) :
  row_sums (df_mul (shift1 W) D)
  = map (fun d => (d, weighted_return W D d))
      (union_index (index W) (index D)).
Proof.
  unfold row_sums, df_mul. cbn [rows]. rewrite index_shift1, map_map.
  reflexivity.
Qed.

Lemma compounded_index (start acc : Qc) (l : list (date * Qc)) :
  map fst (compounded np_exp start acc l) = map fst l.
Proof.
  revert acc. induction l as [|[d r] l IH]; intros acc; [reflexivity|].
  simpl. now rewrite IH.
Qed.

Lemma columns_assign_column (df : DataFrame) (name : string) (s : TimeSeries) :
  columns (assign_column df name s) = columns df ++ [name].
Proof. unfold assign_column. now destruct (rows df). Qed.

Lemma compute_index_level_and_returns_columns (W D : DataFrame) (start : Qc) :
  columns (compute_index_level_and_returns np_exp W D start)
  = ["portfolio_log_return"; "cumulative_log_return"; "index_level"]%string.
Proof.
  unfold compute_index_level_and_returns. cbv zeta.
  now rewrite !columns_assign_column.
Qed.

(** No period of the aligned index is dropped. *)
Lemma compute_index_level_and_returns_index (W D : DataFrame) (start : Qc) :
  index (compute_index_level_and_returns np_exp W D start)
  = union_index (index W) (index D).
Proof.
  unfold index at 1.
  rewrite compute_index_level_and_returns_rows, compounded_index.
  rewrite row_sums_df_mul, map_map. apply map_id.
Qed.

Lemma compounded_return (start acc : Qc) (g : date -> Qc) (idx : list date)
  (d : date) :
  In d idx ->
  exists c,
    row_of (compounded np_exp start acc (map (fun d => (d, g d)) idx)) d
    = Some [Some (g d); Some c; Some (start * np_exp c)].
Proof.
  revert acc. induction idx as [|d' idx IH]; intros acc Hin; [destruct Hin|].
  simpl. destruct (Z.eqb_spec d d') as [->|Hne].
  - eexists; reflexivity.
  - destruct Hin as [->|Hin]; [contradiction|]. now apply IH.
Qed.

Lemma portfolio_return_at (W D : DataFrame) (start : Qc) (d : date) :
  In d (union_index (index W) (index D)) ->
  lookup (compute_index_level_and_returns np_exp W D start) d
    "portfolio_log_return"
  = Some (weighted_return W D d).
Proof.
  intros Hin. unfold lookup.
  rewrite compute_index_level_and_returns_rows,
    compute_index_level_and_returns_columns, row_sums_df_mul.
  destruct (compounded_return start 0 (weighted_return W D) _ _ Hin)
    as (c & E).
  rewrite E. reflexivity.
Qed.

End PerformanceFacts.

(** ** The periods of a weight table *)

Lemma DataFrame_of_records_Ok (records : list record) (W : DataFrame) :
  DataFrame_of_records records = Ok W ->
  records <> [] /\
  W = {| columns := record_columns records;
         rows := map (fun r => (fst r,
                                map (dict_get (snd r))
                                  (record_columns records)))
                   records |}.
Proof.
  unfold DataFrame_of_records. destruct records as [|r rs]; [discriminate|].
  intros H. split; [discriminate|]. now injection H as <-.
Qed.

Lemma DataFrame_of_records_index (records : list record) (W : DataFrame) :
  DataFrame_of_records records = Ok W -> index W = map fst records.
Proof.
  intros H. apply DataFrame_of_records_Ok in H. destruct H as [_ ->].
  unfold index. cbn [rows]. rewrite map_map. reflexivity.
Qed.

Lemma iterrows_index (df : DataFrame) : map fst (iterrows df) = index df.
Proof. unfold iterrows, index. now rewrite map_map. Qed.

Lemma rolling_rows_index (window ncols : nat) (hist : list (list cell))
  (rs : list (date * list cell)) :
  map fst (rolling_rows window ncols hist rs) = map fst rs.
Proof.
  revert hist. induction rs as [|[d vs] rs IH]; intros hist; [reflexivity|].
  simpl. now rewrite IH.
Qed.

Lemma rolling_sum_index (window : nat) (df : DataFrame) :
  index (rolling_sum window df) = index df.
Proof. apply rolling_rows_index. Qed.

Lemma momentum_signal_index (data : DataFrame) :
  index (momentum_signal data) = index data.
Proof.
  unfold momentum_signal, df_sub, index at 1. cbn [rows].
  rewrite map_map. cbn [fst].
  rewrite <- (map_map fst fst), index_combine.
  - apply rolling_sum_index.
  - rewrite <- !(length_map fst).
    change (List.length (index (rolling_sum 12 data))
            <= List.length (index (rolling_sum 1 data)))%nat.
    now rewrite !rolling_sum_index.
Qed.

Section AllocatorPeriods.
Context {sorter : ArgSort}.

Lemma last_month_records_index (pmin pmax : Qc) (it : list (date * Series)) :
  map fst (last_month_records pmin pmax it) = map fst it.
Proof. unfold last_month_records. now rewrite map_map. Qed.

Lemma momentum_records_incl (pmin pmax : Qc) (it : list (date * Series)) :
  incl (map fst (momentum_records pmin pmax it)) (map fst it).
Proof.
  induction it as [|[d row] it IH]; [easy|].
  simpl. destruct (forallb isna (map snd row)).
  - now apply incl_tl.
  - destruct (List.length (dropna (sort_values_desc row)) =? 0)%nat.
    + now apply incl_tl.
    + simpl. apply incl_cons; [now left | now apply incl_tl].
Qed.

Lemma momentum_records_sorted (pmin pmax : Qc) (it : list (date * Series)) :
  StronglySorted Z.lt (map fst it) ->
  StronglySorted Z.lt (map fst (momentum_records pmin pmax it)).
Proof.
  induction it as [|[d row] it IH]; intros Hs; [constructor|].
  simpl in Hs. inversion Hs as [|? ? Hs' Hd]; subst.
  simpl. destruct (forallb isna (map snd row)); [auto|].
  destruct (List.length (dropna (sort_values_desc row)) =? 0)%nat; [auto|].
  simpl. constructor; [auto|].
  rewrite Forall_forall in *. intros x Hx. apply Hd.
  eapply momentum_records_incl; eauto.
Qed.

(** Both allocators emit rows for periods of the panel, in panel order. *)
Lemma allocator_periods (data W : DataFrame) (a b : Qc) :
  StronglySorted Z.lt (index data) ->
  compute_weights_last_month_direction data a b = Ok W
  \/ compute_weight_momentum_12_minus_1 data a b = Ok W ->
  StronglySorted Z.lt (index W) /\ incl (index W) (index data).
Proof.
  intros Hs [H|H].
  - apply DataFrame_of_records_index in H.
    rewrite last_month_records_index, iterrows_index in H. rewrite H.
    split; [exact Hs | apply incl_refl].
  - apply DataFrame_of_records_index in H. rewrite H.
    rewrite <- momentum_signal_index, <- iterrows_index in Hs |- *.
    split; [now apply momentum_records_sorted | apply momentum_records_incl].
Qed.

End AllocatorPeriods.

Lemma nth_error_index (df : DataFrame) (i : nat) (d : date) :
  nth_error (index df) i = Some d ->
  exists vs, nth_error (rows df) i = Some (d, vs).
Proof.
  unfold index. rewrite nth_error_map.
  destruct (nth_error (rows df) i) as [[d' vs]|]; [|discriminate].
  simpl. intros H. inversion H. now exists vs.
Qed.

Lemma sorted_lt_nth (l : list Z) (i j : nat) (x y : Z) :
  StronglySorted Z.lt l -> (i < j)%nat ->
  nth_error l i = Some x -> nth_error l j = Some y -> (x < y)%Z.
Proof.
  intros Hs. revert i j. induction Hs as [|z l Hs IH Hz]; intros i j Hij Hi Hj.
  - destruct i; discriminate.
  - destruct j as [|j]; [lia|]. simpl in Hj.
    destruct i as [|i]; simpl in Hi.
    + inversion Hi; subst. rewrite Forall_forall in Hz.
      apply Hz. eapply nth_error_In; eauto.
    + apply (IH i j); [lia | assumption | assumption].
Qed.

Section LagFacts.
Variable np_exp : Qc -> Qc.

(** The lag, for any weight table whose periods are panel periods. *)
Lemma lagged_return (W D : DataFrame) (start : Qc) (i : nat) (T T' : date) :
  StronglySorted Z.lt (index D) -> NoDup (columns D) ->
  NoDup (index W) -> incl (index W) (index D) ->
  nth_error (index W) i = Some T -> nth_error (index W) (S i) = Some T' ->
  lookup (compute_index_level_and_returns np_exp W D start) T'
    "portfolio_log_return"
  = Some (sum_skipna
            (map (fun t => cell_binop Qcmult (lookup W T t) (lookup D T' t))
               (columns D))).
Proof.
  intros HsD HcD HnW Hincl Hi HSi.
  assert (HT' : In T' (index D))
    by (apply Hincl; eapply nth_error_In; eauto).
  rewrite portfolio_return_at
    by (rewrite union_index_cover; auto).
  f_equal. unfold weighted_return.
  destruct (nth_error_index _ _ Hi) as (wT & Hr).
  destruct (nth_error_index _ _ HSi) as (wT' & Hr').
  assert (EW : forall t, lookup W T t = cell_of (columns W) wT t).
  { intros t. unfold lookup. now rewrite (row_of_nth _ i HnW Hr). }
  assert (ES : forall t, lookup (shift1 W) T' t = cell_of (columns W) wT t).
  { intros t. unfold lookup.
    pose proof (shift1_next _ _ Hr Hr') as Hn.
    rewrite (row_of_nth (rows (shift1 W)) (S i)) with (vs := wT); auto.
    change (map fst (rows (shift1 W))) with (index (shift1 W)).
    now rewrite index_shift1. }
  rewrite (sum_skipna_cover
             (fun t => cell_binop Qcmult (lookup (shift1 W) T' t)
                                         (lookup D T' t))
             (a := columns D) (u := union_columns (columns W) (columns D))).
  - apply f_equal, map_ext. intros t. now rewrite ES, EW.
  - exact HcD.
  - unfold union_columns, union_labels.
    destruct (list_eq_dec string_dec (columns W) (columns D)) as [->|_];
      [exact HcD|].
    eapply Permutation_NoDup; [symmetry; apply sort_by_perm|].
    apply NoDup_nodup.
  - intros t Ht. apply union_columns_In. now right.
  - intros t Ht. rewrite (lookup_absent_column D T' t Ht).
    now destruct (lookup (shift1 W) T' t).
Qed.

End LagFacts.

(** ** Running sums *)

Section RunningSums.
Variable np_exp : Qc -> Qc.

Lemma compounded_length (start acc : Qc) (l : list (date * Qc)) :
  List.length (compounded np_exp start acc l) = List.length l.
Proof.
  revert acc. induction l as [|[d r] l IH]; intros acc; [reflexivity|].
  simpl. now rewrite IH.
Qed.

Lemma compounded_nth (start : Qc) (l : list (date * Qc)) (acc : Qc) (i : nat)
  (d : date) (r : Qc) :
  nth_error l i = Some (d, r) ->
  exists c,
    c = acc + Qcsum (map snd (firstn (S i) l)) /\
    nth_error (compounded np_exp start acc l) i
    = Some (d, [Some r; Some c; Some (start * np_exp c)]).
Proof.
  revert acc i. induction l as [|[d0 r0] l IH]; intros acc i Hi.
  - destruct i; discriminate.
  - destruct i as [|i].
    + inversion Hi; subst. exists (acc + r). split; [|reflexivity].
      simpl. ring.
    + simpl in Hi. destruct (IH (acc + r0) i Hi) as (c & Hc & Hn).
      exists c. split; [|exact Hn].
      rewrite Hc. cbn [firstn map snd Qcsum fold_right].
      change (fold_right Qcplus 0 (map snd (firstn (S i) l)))
        with (Qcsum (map snd (firstn (S i) l))).
      ring.
Qed.

Lemma compounded_returns (start acc : Qc) (l : list (date * Qc)) :
  map (fun r => (fst r, nth 0 (snd r) None)) (compounded np_exp start acc l)
  = map (fun dr => (fst dr, Some (snd dr))) l.
Proof.
  revert acc. induction l as [|[d r] l IH]; intros acc; [reflexivity|].
  simpl. now rewrite IH.
Qed.

Lemma nonnan_map_Some (A : Type) (f : A -> Qc) (l : list A) :
  nonnan (map (fun x => Some (f x)) l) = map f l.
Proof. induction l as [|x l IH]; [reflexivity|]. simpl. now rewrite IH. Qed.

End RunningSums.

(** ** Slice indices *)

Lemma Qc_of_Z_this (z : Z) : (this (Qc_of_Z z) == inject_Z z)%Q.
Proof. apply Qred_correct. Qed.

Lemma Qc_of_Z_nonneg (z : Z) : (0 <= z)%Z -> 0 <= Qc_of_Z z.
Proof.
  intros H. unfold Qcle. rewrite Qc_of_Z_this.
  unfold Qle. simpl. lia.
Qed.

Lemma Qc_of_Z_neq_0 (z : Z) : z <> 0%Z -> Qc_of_Z z <> 0.
Proof.
  intros H E. apply H. unfold Qc_of_Z in E.
  apply Q2Qc_eq_iff in E. unfold Qeq in E. simpl in E. lia.
Qed.

Lemma py_int_floor (x : Qc) : 0 <= x -> py_int x = Qfloor x.
Proof.
  destruct x as [[n d] Hc]. unfold Qcle, Qle, py_int. simpl.
  intros H. apply Z.quot_div_nonneg; lia.
Qed.

Lemma py_int_mono (x y : Qc) : 0 <= x -> x <= y -> (py_int x <= py_int y)%Z.
Proof.
  intros Hx Hxy.
  rewrite !py_int_floor by (try assumption; eapply Qcle_trans; eauto).
  now apply Qfloor_resp_le.
Qed.

Lemma py_int_of_Z (z : Z) : (0 <= z)%Z -> py_int (Qc_of_Z z) = z.
Proof.
  intros H. rewrite py_int_floor by now apply Qc_of_Z_nonneg.
  rewrite (Qfloor_comp _ _ (Qc_of_Z_this z)). apply Qfloor_Z.
Qed.

Lemma hundredth_nonneg : 0 <= / Qc_of_Z 100.
Proof. unfold Qcle, Qle. simpl. lia. Qed.

Lemma scaled_mono (p p' : Qc) (l : nat) :
  p <= p' ->
  p * Qc_of_nat l / Qc_of_Z 100 <= p' * Qc_of_nat l / Qc_of_Z 100.
Proof.
  intros H. unfold Qcdiv.
  apply Qcmult_le_compat_r; [|apply hundredth_nonneg].
  apply Qcmult_le_compat_r; [exact H|].
  apply Qc_of_Z_nonneg. lia.
Qed.

Lemma scaled_zero (l : nat) : 0 * Qc_of_nat l / Qc_of_Z 100 = 0.
Proof. unfold Qcdiv. ring. Qed.

Lemma scaled_hundred (l : nat) :
  Qc_of_Z 100 * Qc_of_nat l / Qc_of_Z 100 = Qc_of_nat l.
Proof. field. now apply Qc_of_Z_neq_0. Qed.

(** For percentiles within [0, 100] the slice indices satisfy
    [0 <= start_index <= end_index <= l]. *)
Lemma slice_indices (pmin pmax : Qc) (l : nat) :
  0 <= pmin -> pmin <= pmax -> pmax <= Qc_of_Z 100 ->
  let start_index := py_int (pmin * Qc_of_nat l / Qc_of_Z 100) in
  let end_index := py_int (pmax * Qc_of_nat l / Qc_of_Z 100) in
  (0 <= start_index <= end_index)%Z /\ (end_index <= Z.of_nat l)%Z.
Proof.
  intros H0 Hmm H100. cbv zeta.
  assert (Hz : 0 <= pmin * Qc_of_nat l / Qc_of_Z 100).
  { rewrite <- (scaled_zero l). now apply scaled_mono. }
  repeat split.
  - change 0%Z with (py_int 0).
    apply py_int_mono; [apply Qcle_refl | exact Hz].
  - apply py_int_mono; [exact Hz | now apply scaled_mono].
  - assert (E : py_int (Qc_of_nat l) = Z.of_nat l)
      by (apply py_int_of_Z; lia).
    rewrite <- E. apply py_int_mono.
    + eapply Qcle_trans; [exact Hz | now apply scaled_mono].
    + rewrite <- (scaled_hundred l) at 2. now apply scaled_mono.
Qed.

(** ** Dictionaries *)

Lemma dict_set_app (V : Type) (d1 d2 : dict V) (k : string) (v : V) :
  ~ In k (dict_keys d1) -> dict_set (d1 ++ d2) k v = d1 ++ dict_set d2 k v.
Proof.
  induction d1 as [|[k' v'] d1 IH]; intros H; [reflexivity|].
  simpl. destruct (String.eqb_spec k k') as [->|_].
  - exfalso. apply H. now left.
  - rewrite IH; [reflexivity|]. intros Hin. apply H. now right.
Qed.

Lemma dict_set_head (V : Type) (d : dict V) (k : string) (v0 v : V) :
  dict_set ((k, v0) :: d) k v = (k, v) :: d.
Proof. simpl. now rewrite String.eqb_refl. Qed.

(** [{k: v for k in ks}] for distinct keys. *)
Lemma dict_comprehension (V : Type) (v : V) (ks : list string) (d : dict V) :
  NoDup (dict_keys d ++ ks) ->
  fold_left (fun d t => dict_set d t v) ks d = d ++ map (fun t => (t, v)) ks.
Proof.
  revert d. induction ks as [|k ks IH]; intros d H.
  - simpl. now rewrite app_nil_r.
  - simpl. rewrite <- (app_nil_r d) at 1.
    rewrite dict_set_app.
    + simpl. rewrite IH.
      * now rewrite <- app_assoc.
      * unfold dict_keys in *. rewrite map_app. simpl.
        now rewrite <- app_assoc.
    + apply NoDup_remove_2 in H. intros Hin. apply H.
      apply in_or_app. now left.
Qed.

(** Assigning [w] to the keys of a stretch of the dict. *)
Lemma dict_update_stretch (V : Type) (v0 w : V) (sel : list string)
  (d1 d2 : dict V) :
  NoDup (dict_keys d1 ++ sel) ->
  fold_left (fun d t => dict_set d t w) sel
    (d1 ++ map (fun t => (t, v0)) sel ++ d2)
  = d1 ++ map (fun t => (t, w)) sel ++ d2.
Proof.
  revert d1. induction sel as [|k sel IH]; intros d1 H; [reflexivity|].
  simpl. rewrite dict_set_app.
  - rewrite dict_set_head.
    change (d1 ++ (k, w) :: map (fun t => (t, v0)) sel ++ d2)
      with (d1 ++ [(k, w)] ++ map (fun t => (t, v0)) sel ++ d2).
    rewrite app_assoc, IH.
    + now rewrite <- app_assoc.
    + unfold dict_keys in *. rewrite map_app. simpl.
      now rewrite <- app_assoc.
  - apply NoDup_remove_2 in H. intros Hin. apply H.
    apply in_or_app. now left.
Qed.


Lemma dict_get_absent (V : Type) (d : dict V) (t : string) :
  ~ In t (dict_keys d) -> dict_get d t = None.
Proof.
  induction d as [|[k v] d IH]; intros H; [reflexivity|].
  simpl. destruct (String.eqb_spec t k) as [->|_].
  - exfalso. apply H. now left.
  - apply IH. intros Hin. apply H. now right.
Qed.

Lemma nonnan_map_Some_id (qs : list Qc) : nonnan (map Some qs) = qs.
Proof. induction qs as [|x qs IH]; [reflexivity|]. simpl. now rewrite IH. Qed.



(** ** The columns of a weight table *)

Lemma add_key_In (acc : list string) (k x : string) :
  In x (add_key acc k) <-> In x acc \/ x = k.
Proof.
  unfold add_key. destruct (existsb (String.eqb k) acc) eqn:E.
  - apply existsb_exists in E. destruct E as (y & Hy & Hky).
    apply String.eqb_eq in Hky. subst y. split; [auto|].
    intros [H| ->]; auto.
  - rewrite in_app_iff. simpl. intuition.
Qed.

Lemma add_key_NoDup (acc : list string) (k : string) :
  NoDup acc -> NoDup (add_key acc k).
Proof.
  intros H. unfold add_key. destruct (existsb (String.eqb k) acc) eqn:E;
    [exact H|].
  apply NoDup_app; [exact H | repeat constructor; intros [] |].
  intros x Hx [->|[]].
  assert (existsb (String.eqb x) acc = true); [|congruence].
  apply existsb_exists. exists x. split; [exact Hx | apply String.eqb_refl].
Qed.

Lemma add_keys_In (ks acc : list string) (x : string) :
  In x (fold_left add_key ks acc) <-> In x acc \/ In x ks.
Proof.
  revert acc. induction ks as [|k ks IH]; intros acc; simpl; [tauto|].
  rewrite IH, add_key_In. intuition.
Qed.



Lemma record_columns_acc_In (records : list record) (acc : list string)
  (x : string) :
  In x acc \/ (exists r, In r records /\ In x (dict_keys (snd r))) ->
  In x (fold_left (fun acc r => fold_left add_key (dict_keys (snd r)) acc)
          records acc).
Proof.
  revert acc. induction records as [|r rs IH]; intros acc H; simpl.
  - destruct H as [H|(r & [] & _)]. exact H.
  - apply IH. destruct H as [H|(r' & [->|Hr] & Hx)].
    + left. apply add_keys_In. now left.
    + left. apply add_keys_In. now right.
    + right. now exists r'.
Qed.


Lemma record_columns_cover (records : list record) (r : record) :
  In r records -> incl (dict_keys (snd r)) (record_columns records).
Proof.
  intros Hr x Hx. apply record_columns_acc_In. right. now exists r.
Qed.

(** ** The shape of a weight record *)

Lemma stretch_split (A : Type) (s e : nat) (l : list A) :
  (s <= e)%nat ->
  l = firstn s l ++ firstn (e - s) (skipn s l) ++ skipn e l.
Proof.
  intros H. rewrite <- (firstn_skipn s l) at 1. f_equal.
  rewrite <- (firstn_skipn (e - s) (skipn s l)) at 1. f_equal.
  rewrite skipn_skipn. f_equal. lia.
Qed.

Lemma py_slice_within (A : Type) (l : list A) (start stop : Z) :
  (0 <= start)%Z -> (0 <= stop <= Z.of_nat (List.length l))%Z ->
  (start <= stop)%Z ->
  py_slice l start stop
  = firstn (Z.to_nat stop - Z.to_nat start) (skipn (Z.to_nat start) l).
Proof.
  intros H0 H1 H2. unfold py_slice, py_slice_bound.
  destruct (Z.ltb_spec start 0); [lia|].
  destruct (Z.ltb_spec stop 0); [lia|].
  rewrite !Nat.min_l by lia. reflexivity.
Qed.

Lemma band_weights_eq (pmin pmax : Qc) (l : nat) (sorted_row : Series) :
  NoDup (map fst sorted_row) ->
  (l <= List.length sorted_row)%nat ->
  0 <= pmin -> pmin <= pmax -> pmax <= Qc_of_Z 100 ->
  let start_index := py_int (pmin * Qc_of_nat l / Qc_of_Z 100) in
  let end_index := py_int (pmax * Qc_of_nat l / Qc_of_Z 100) in
  band_weights pmin pmax l sorted_row
  = band_dict (1 / Qc_of_Z (Z.max 1 (end_index - start_index)))
      (Z.to_nat start_index) (Z.to_nat end_index) (map fst sorted_row).
Proof.
  intros Hnd Hl H0 Hmm H100.
  destruct (slice_indices l H0 Hmm H100) as [[Hs Hse] He].
  cbv zeta. unfold band_weights.
  set (start_index := py_int (pmin * Qc_of_nat l / Qc_of_Z 100)) in *.
  set (end_index := py_int (pmax * Qc_of_nat l / Qc_of_Z 100)) in *.
  set (tickers := map fst sorted_row) in *.
  assert (Hlen : List.length tickers = List.length sorted_row)
    by apply length_map.
  rewrite py_slice_within by lia.
  rewrite (dict_comprehension 0 tickers []) by exact Hnd.
  cbn [app]. unfold band_dict.
  set (s := Z.to_nat start_index). set (e := Z.to_nat end_index).
  assert (Hse' : (s <= e)%nat) by lia.
  match goal with
  | |- fold_left _ _ (map ?g tickers) = _ =>
      replace (map g tickers)
        with (map g (firstn s tickers ++ firstn (e - s) (skipn s tickers)
                     ++ skipn e tickers))
        by (now rewrite <- (stretch_split tickers Hse'))
  end.
  rewrite !map_app. apply dict_update_stretch.
  unfold dict_keys. rewrite map_map. cbn [fst]. rewrite map_id.
  rewrite (stretch_split tickers Hse') in Hnd.
  rewrite app_assoc in Hnd. now apply NoDup_app_remove_r in Hnd.
Qed.




Lemma band_dict_keys (w : Qc) (s e : nat) (tickers : list ticker) :
  (s <= e)%nat -> dict_keys (band_dict w s e tickers) = tickers.
Proof.
  intros H. unfold band_dict, dict_keys.
  rewrite !map_app, !map_map. cbn [fst]. rewrite !map_id.
  symmetry. now apply stretch_split.
Qed.


(** ** The records behind a weight table *)

Lemma combine_labels (A B : Type) (a : list A) (b : list B) :
  map fst (combine a b) = firstn (List.length b) a.
Proof.
  revert b. induction a as [|x a IH]; intros [|y b]; simpl; try reflexivity.
  now rewrite IH.
Qed.

Lemma NoDup_firstn (A : Type) (n : nat) (l : list A) :
  NoDup l -> NoDup (firstn n l).
Proof.
  intros H. rewrite <- (firstn_skipn n l) in H.
  now apply NoDup_app_remove_r in H.
Qed.

Lemma incl_firstn (A : Type) (n : nat) (l : list A) : incl (firstn n l) l.
Proof.
  intros x Hx. rewrite <- (firstn_skipn n l). apply in_or_app. now left.
Qed.

Lemma iterrows_labels (df : DataFrame) (d : date) (row : Series) :
  NoDup (columns df) -> In (d, row) (iterrows df) ->
  NoDup (map fst row) /\ incl (map fst row) (columns df).
Proof.
  intros Hc Hin. unfold iterrows in Hin. apply in_map_iff in Hin.
  destruct Hin as ([d' vs] & E & _). inversion E; subst.
  rewrite combine_labels. split; [now apply NoDup_firstn | apply incl_firstn].
Qed.

Lemma rows_of_records (records : list record) (W : DataFrame) (d : date)
  (ws : list cell) :
  DataFrame_of_records records = Ok W -> In (d, ws) (rows W) ->
  columns W = record_columns records /\
  exists r, In r records /\ d = fst r
            /\ ws = map (dict_get (snd r)) (columns W).
Proof.
  intros H Hin. apply DataFrame_of_records_Ok in H. destruct H as [_ ->].
  split; [reflexivity|].
  cbn [rows] in Hin. apply in_map_iff in Hin.
  destruct Hin as (r & E & Hr). inversion E; subst. now exists r.
Qed.

Section RecordFacts.
Context {sorter : ArgSort}.

Lemma sorted_labels (row : Series) :
  Permutation (map fst (sort_values_desc row)) (map fst row).
Proof. apply Permutation_map, sort_values_desc_perm. Qed.

Lemma last_month_records_In (pmin pmax : Qc) (it : list (date * Series))
  (r : record) :
  In r (last_month_records pmin pmax it) ->
  exists row,
    In (fst r, row) it /\
    snd r = band_weights pmin pmax (List.length (sort_values_desc row))
              (sort_values_desc row).
Proof.
  unfold last_month_records. rewrite in_map_iff.
  intros ([d row] & E & Hin). subst r. now exists row.
Qed.

Lemma momentum_records_In (pmin pmax : Qc) (it : list (date * Series))
  (r : record) :
  In r (momentum_records pmin pmax it) ->
  exists row,
    In (fst r, row) it /\
    forallb isna (map snd row) = false /\
    List.length (dropna (sort_values_desc row)) <> 0%nat /\
    snd r = band_weights pmin pmax
              (List.length (dropna (sort_values_desc row)))
              (sort_values_desc row).
Proof.
  induction it as [|[d row] it IH]; [intros []|].
  simpl. destruct (forallb isna (map snd row)) eqn:E1.
  - intros H. destruct (IH H) as (row' & ? & ?). exists row'. auto.
  - destruct (Nat.eqb_spec (List.length (dropna (sort_values_desc row))) 0)
      as [E2|E2].
    + intros H. destruct (IH H) as (row' & ? & ?). exists row'. auto.
    + intros [<-|H].
      * exists row. simpl. auto.
      * destruct (IH H) as (row' & ? & ?). exists row'. auto.
Qed.

Lemma dropna_length_le (s : Series) :
  (List.length (dropna s) <= List.length s)%nat.
Proof. apply filter_length_le. Qed.


End RecordFacts.

Lemma band_weights_keys (pmin pmax : Qc) (l : nat) (sorted_row : Series) :
  NoDup (map fst sorted_row) ->
  (l <= List.length sorted_row)%nat ->
  0 <= pmin -> pmin <= pmax -> pmax <= Qc_of_Z 100 ->
  dict_keys (band_weights pmin pmax l sorted_row) = map fst sorted_row.
Proof.
  intros Hnd Hl H0 Hmm H100.
  destruct (slice_indices l H0 Hmm H100) as [[Hs Hse] He].
  rewrite band_weights_eq by assumption. cbv zeta.
  apply band_dict_keys. lia.
Qed.

Lemma band_bounds (top bottom : Qc) :
  0 <= top -> top <= Qc_of_Z 100 -> 0 <= bottom -> bottom <= Qc_of_Z 100 ->
  0 <= py_min top bottom /\ py_min top bottom <= py_max top bottom
  /\ py_max top bottom <= Qc_of_Z 100.
Proof.
  intros. repeat split.
  - destruct (py_min_cases top bottom) as [-> | ->]; assumption.
  - apply py_min_le_max.
  - destruct (py_max_cases top bottom) as [-> | ->]; assumption.
Qed.

(** ** Where the tickers without a value end up *)

Section NaNFacts.
Context {sorter : ArgSort}.

Lemma sort_values_desc_split (row : Series) :
  sort_values_desc row
  = take (EmptyString, None) row (ranked (map snd row))
    ++ take (EmptyString, None) row (nan_positions (map snd row)).
Proof.
  unfold sort_values_desc. now rewrite nargsort_desc_split, take_app.
Qed.

Lemma nth_snd (row : Series) (i : nat) :
  snd (nth i row (EmptyString, None)) = nth i (map snd row) None.
Proof.
  change (@None Qc) with (snd (EmptyString, @None Qc)) at 2.
  now rewrite map_nth.
Qed.

Lemma ranked_notna (row : Series) (x : ticker * cell) :
  In x (take (EmptyString, None) row (ranked (map snd row))) ->
  notna (snd x) = true.
Proof.
  unfold take. rewrite in_map_iff. intros (i & <- & Hi).
  eapply Permutation_in in Hi; [|apply ranked_perm].
  apply filter_In in Hi. destruct Hi as [_ Hi].
  unfold notna. now rewrite nth_snd.
Qed.

Lemma nan_positions_isna (row : Series) (x : ticker * cell) :
  In x (take (EmptyString, None) row (nan_positions (map snd row))) ->
  isna (snd x) = true.
Proof.
  unfold take, nan_positions. rewrite in_map_iff. intros (i & <- & Hi).
  apply filter_In in Hi. destruct Hi as [_ Hi]. now rewrite nth_snd.
Qed.

Lemma filter_all (A : Type) (p : A -> bool) (l : list A) :
  (forall x, In x l -> p x = true) -> filter p l = l.
Proof.
  induction l as [|x l IH]; intros H; [reflexivity|].
  simpl. rewrite (H x) by now left. f_equal. apply IH.
  intros y Hy. apply H. now right.
Qed.

Lemma filter_none (A : Type) (p : A -> bool) (l : list A) :
  (forall x, In x l -> p x = false) -> filter p l = [].
Proof.
  induction l as [|x l IH]; intros H; [reflexivity|].
  simpl. rewrite (H x) by now left. apply IH.
  intros y Hy. apply H. now right.
Qed.

Lemma dropna_sorted (row : Series) :
  dropna (sort_values_desc row)
  = take (EmptyString, None) row (ranked (map snd row)).
Proof.
  rewrite sort_values_desc_split. unfold dropna. rewrite filter_app.
  rewrite filter_all by (intros x Hx; now apply (@ranked_notna row)).
  rewrite filter_none; [apply app_nil_r|].
  intros x Hx. unfold notna. now rewrite (@nan_positions_isna row x Hx).
Qed.

(** Past the first [l] places of the sorted row there are only tickers
    without a value, and every such ticker is there. *)
Lemma sorted_tail (row : Series) (t : ticker) :
  In (t, None) row ->
  In (t, None)
    (skipn (List.length (dropna (sort_values_desc row)))
       (sort_values_desc row)).
Proof.
  intros Hin. rewrite dropna_sorted.
  rewrite sort_values_desc_split.
  rewrite skipn_app, Nat.sub_diag, skipn_all. cbn [app skipn].
  assert (H : In (t, None) (sort_values_desc row))
    by (eapply Permutation_in; [symmetry; apply sort_values_desc_perm|auto]).
  rewrite sort_values_desc_split in H. apply in_app_or in H.
  destruct H as [H|H]; [|exact H].
  apply (@ranked_notna row) in H. discriminate.
Qed.

Lemma dropna_perm_length (a b : Series) :
  Permutation a b -> List.length (dropna a) = List.length (dropna b).
Proof.
  intros H. unfold dropna.
  induction H as [|x a b H IH|x y a|a b c H1 IH1 H2 IH2]; simpl.
  - reflexivity.
  - destruct (notna (snd x)); simpl; congruence.
  - destruct (notna (snd x)), (notna (snd y)); reflexivity.
  - congruence.
Qed.

Lemma dropna_sorted_length (row : Series) :
  List.length (dropna (sort_values_desc row)) = List.length (dropna row).
Proof. apply dropna_perm_length, sort_values_desc_perm. Qed.

Lemma StronglySorted_map (A B : Type) (f : A -> B) (R : B -> B -> Prop)
  (l : list A) :
  StronglySorted (fun x y => R (f x) (f y)) l -> StronglySorted R (map f l).
Proof.
  induction 1 as [|x l Hs IH Hx]; simpl; constructor; [exact IH|].
  rewrite Forall_forall in *. intros y Hy. apply in_map_iff in Hy.
  destruct Hy as (z & <- & Hz). now apply Hx.
Qed.

Lemma StronglySorted_snoc (A : Type) (R : A -> A -> Prop) (l : list A) (x : A) :
  StronglySorted R l -> Forall (fun y => R y x) l ->
  StronglySorted R (l ++ [x]).
Proof.
  induction 1 as [|y l Hs IH Hy]; intros Hx; simpl.
  - repeat constructor.
  - inversion Hx as [|? ? Hyx Hx']; subst.
    constructor; [now apply IH|].
    apply Forall_app. split; [exact Hy | now constructor].
Qed.

Lemma StronglySorted_rev (A : Type) (R : A -> A -> Prop) (l : list A) :
  StronglySorted R l -> StronglySorted (fun x y => R y x) (rev l).
Proof.
  induction 1 as [|x l Hs IH Hx]; simpl; [constructor|].
  apply StronglySorted_snoc; [exact IH|].
  rewrite Forall_forall in *. intros y Hy. apply Hx. now apply in_rev.
Qed.

(** The positions with a value, most recent first, read the values in the
    same order. *)
Lemma valued_positions (items : list cell) :
  map (fun i => nth i items None)
    (rev (filter (fun i => negb (isna (nth i items None)))
            (seq 0 (List.length items))))
  = map Some (rev (nonnan items)).
Proof.
  rewrite !map_rev. f_equal.
  rewrite nonnan_filter. apply (filter_seq_nth (None : cell) notna items).
Qed.

Lemma ranked_values (items : list cell) :
  map (fun i => nth i items None) (ranked items)
  = map Some
      (rev (map (fun k => nth k (rev (nonnan items)) 0)
              (np_argsort (rev (nonnan items))))).
Proof.
  unfold ranked, take. rewrite !map_rev, !map_map. f_equal.
  apply map_ext_in. intros k Hk.
  eapply Permutation_in in Hk; [|apply np_argsort_perm].
  apply in_seq in Hk.
  set (idx := rev (filter (fun i => negb (isna (nth i items None)))
                     (seq 0 (List.length items)))).
  pose proof (valued_positions items) as E. fold idx in E.
  assert (Hlen : List.length idx = List.length (rev (nonnan items))).
  { apply (f_equal (@List.length _)) in E. now rewrite !length_map in E. }
  apply (f_equal (fun l => nth k l None)) in E.
  rewrite (nth_indep _ None (nth 0%nat items None)) in E
    by (rewrite length_map; lia).
  rewrite (map_nth (fun i => nth i items None)) in E.
  rewrite E.
  rewrite (nth_indep _ None (Some 0)) by (rewrite length_map; lia).
  apply (map_nth Some).
Qed.

(** [sort_values(ascending=False)] puts the tickers that have a value
    first, in non-increasing order of value. *)
Lemma sort_values_desc_descending (row : Series) :
  exists vals,
    map snd (dropna (sort_values_desc row)) = map Some vals /\
    StronglySorted (fun x y => y <= x) vals.
Proof.
  exists (rev (map (fun k => nth k (rev (nonnan (map snd row))) 0)
                 (np_argsort (rev (nonnan (map snd row)))))).
  split.
  - rewrite dropna_sorted. unfold take. rewrite map_map.
    rewrite <- ranked_values. apply map_ext. intros i. apply nth_snd.
  - apply StronglySorted_rev, StronglySorted_map, np_argsort_sorted.
Qed.

End NaNFacts.

Lemma dict_get_app (V : Type) (d1 d2 : dict V) (t : string) :
  ~ In t (dict_keys d1) -> dict_get (d1 ++ d2) t = dict_get d2 t.
Proof.
  induction d1 as [|[k v] d1 IH]; intros H; [reflexivity|].
  simpl. destruct (String.eqb_spec t k) as [->|_].
  - exfalso. apply H. now left.
  - apply IH. intros Hin. apply H. now right.
Qed.

Lemma dict_get_const (V : Type) (v : V) (ks : list string) (t : string) :
  In t ks -> dict_get (map (fun k => (k, v)) ks) t = Some v.
Proof.
  induction ks as [|k ks IH]; intros H; [destruct H|].
  simpl. destruct (String.eqb_spec t k) as [->|Hne]; [reflexivity|].
  destruct H as [->|H]; [contradiction | auto].
Qed.

Lemma dict_get_present (V : Type) (d : dict V) (t : string) :
  In t (dict_keys d) -> dict_get d t <> None.
Proof.
  induction d as [|[k v] d IH]; intros H; [destruct H|].
  simpl. destruct (String.eqb_spec t k) as [->|Hne]; [discriminate|].
  destruct H as [E|H]; [simpl in E; congruence | auto].
Qed.

Lemma cell_of_map (f : ticker -> cell) (cols : list ticker) (t : ticker) :
  In t cols -> cell_of cols (map f cols) t = f t.
Proof.
  unfold cell_of. induction cols as [|c cols IH]; intros H; [destruct H|].
  simpl. destruct (String.eqb_spec t c) as [->|Hne]; [reflexivity|].
  destruct H as [->|H]; [contradiction|].
  specialize (IH H). destruct (position t cols); simpl in *; auto.
Qed.

(** A ticker past the end of the slice holds 0. *)
Lemma band_dict_tail (w : Qc) (s e : nat) (tickers : list ticker) (t : ticker) :
  NoDup tickers -> (s <= e)%nat -> In t (skipn e tickers) ->
  dict_get (band_dict w s e tickers) t = Some 0.
Proof.
  intros Hnd Hse Hin. unfold band_dict.
  rewrite (stretch_split tickers Hse) in Hnd.
  rewrite app_assoc in Hnd.
  assert (Hnot : ~ In t (firstn s tickers
                         ++ firstn (e - s) (skipn s tickers))).
  { intros H. revert Hin.
    generalize dependent (skipn e tickers). intros post Hnd Hin.
    induction (firstn s tickers ++ firstn (e - s) (skipn s tickers))
      as [|x pre IH]; [destruct H|].
    simpl in Hnd. inversion Hnd as [|? ? Hx Hnd']; subst.
    destruct H as [->|H]; [|auto].
    apply Hx. apply in_or_app. now right. }
  rewrite app_assoc, dict_get_app.
  - now apply dict_get_const.
  - unfold dict_keys. rewrite map_app, !map_map. cbn [fst].
    rewrite !map_id. exact Hnot.
Qed.

Lemma incl_skipn (A : Type) (m n : nat) (l : list A) :
  (m <= n)%nat -> incl (skipn n l) (skipn m l).
Proof.
  intros H x Hx. replace n with ((n - m) + m)%nat in Hx by lia.
  rewrite <- skipn_skipn in Hx.
  rewrite <- (firstn_skipn (n - m) (skipn m l)). apply in_or_app. now right.
Qed.

(** ** The momentum signal, cell by cell *)

Lemma rolling_rows_nth (window ncols : nat) (rs : list (date * list cell)) :
  forall (hist : list (list cell)) (i : nat) (d : date) (vs : list cell),
    nth_error rs i = Some (d, vs) ->
    nth_error (rolling_rows window ncols hist rs) i
    = Some (d, map (fun j =>
                      window_sum window
                        (column_of j
                           (firstn window
                              (rev (map snd (firstn (S i) rs)) ++ hist))))
                 (seq 0 ncols)).
Proof.
  induction rs as [|[d0 vs0] rs IH]; intros hist i d vs Hi.
  - destruct i; discriminate.
  - destruct i as [|i].
    + inversion Hi; subst. reflexivity.
    + cbn [nth_error] in Hi. cbn [rolling_rows nth_error].
      rewrite (IH (vs0 :: hist) i d vs Hi). do 2 f_equal.
      apply map_ext. intros j. do 3 f_equal.
      change (firstn (S (S i)) ((d0, vs0) :: rs))
        with ((d0, vs0) :: firstn (S i) rs).
      cbn [map rev snd]. now rewrite <- app_assoc.
Qed.

Lemma rolling_sum_nth (window : nat) (df : DataFrame) (i : nat) (d : date)
  (vs : list cell) :
  nth_error (rows df) i = Some (d, vs) ->
  nth_error (rows (rolling_sum window df)) i
  = Some (d, map (fun j =>
                    window_sum window
                      (column_of j (trailing window i (map snd (rows df)))))
               (seq 0 (List.length (columns df)))).
Proof.
  intros Hi. unfold rolling_sum. cbn [rows columns].
  rewrite (rolling_rows_nth window _ (rows df) [] i Hi).
  do 2 f_equal. apply map_ext. intros j. unfold trailing.
  now rewrite app_nil_r, firstn_map.
Qed.

Lemma window_sum_one (c : cell) : window_sum 1 [c] = c.
Proof.
  destruct c as [x|]; [|reflexivity].
  unfold window_sum. simpl. f_equal. ring.
Qed.

Lemma trailing_one (A : Type) (i : nat) (l : list A) (x : A) :
  nth_error l i = Some x -> trailing 1 i l = [x].
Proof.
  intros H. unfold trailing.
  assert (E : firstn (S i) l = firstn i l ++ [x]).
  { revert i H. induction l as [|y l IH]; intros i H.
    - destruct i; discriminate.
    - destruct i as [|i]; simpl in *.
      + now inversion H.
      + f_equal. now apply IH. }
  rewrite E, rev_app_distr. reflexivity.
Qed.

Lemma map_combine_seq (A B C : Type) (f : A -> B) (g : A -> B)
  (h : B * B -> C) (l : list A) :
  map h (combine (map f l) (map g l)) = map (fun x => h (f x, g x)) l.
Proof. induction l as [|x l IH]; [reflexivity|]. simpl. now rewrite IH. Qed.

Lemma nth_error_combine (A B : Type) (a : list A) (b : list B) (i : nat)
  (x : A) (y : B) :
  nth_error a i = Some x -> nth_error b i = Some y ->
  nth_error (combine a b) i = Some (x, y).
Proof.
  revert b i. induction a as [|x0 a IH]; intros [|y0 b] [|i] Ha Hb;
    try discriminate.
  - inversion Ha; inversion Hb; reflexivity.
  - simpl in *. now apply IH.
Qed.

(** The signal of period [i] and column [j] is [R12 - R1]: [R12] the sum of
    the trailing twelve cells of the column, present only when all twelve are
    there and hold a value, and [R1] the cell of the period itself. *)
Lemma momentum_signal_nth (data : DataFrame) (i : nat) (d : date)
  (vs : list cell) :
  nth_error (rows data) i = Some (d, vs) ->
  nth_error (rows (momentum_signal data)) i
  = Some (d, map (fun j =>
                    cell_binop Qcminus
                      (window_sum 12
                         (column_of j (trailing 12 i (map snd (rows data)))))
                      (nth j vs None))
               (seq 0 (List.length (columns data)))).
Proof.
  intros Hi. unfold momentum_signal, df_sub. cbn [rows].
  rewrite nth_error_map.
  rewrite (nth_error_combine _ _ _ (rolling_sum_nth 12 data i Hi)
             (rolling_sum_nth 1 data i Hi)).
  cbn [option_map fst snd]. do 2 f_equal.
  rewrite map_combine_seq. apply map_ext. intros j. cbn [fst snd]. f_equal.
  rewrite (trailing_one i (map snd (rows data)) (x := vs)).
  - apply window_sum_one.
  - now rewrite nth_error_map, Hi.
Qed.

Lemma nonnan_length_le (cs : list cell) :
  (List.length (nonnan cs) <= List.length cs)%nat.
Proof. rewrite nonnan_length. apply filter_length_le. Qed.

(** A window that does not yet span twelve periods has no sum. *)
Lemma window_sum_short (j i : nat) (rs : list (list cell)) :
  (i < 11)%nat -> window_sum 12 (column_of j (trailing 12 i rs)) = None.
Proof.
  intros Hi. unfold window_sum.
  destruct (Nat.leb_spec 12 (List.length (nonnan (column_of j (trailing 12 i rs)))))
    as [H|H]; [|reflexivity].
  exfalso. pose proof (nonnan_length_le (column_of j (trailing 12 i rs))) as Hle.
  unfold column_of, trailing in Hle.
  rewrite length_map, length_firstn, length_rev, length_firstn in Hle.
  unfold column_of, trailing in H. lia.
Qed.

(** Each of the first eleven periods has no signal for any ticker. *)
Lemma momentum_signal_short_history (data : DataFrame) (i : nat) (d : date)
  (cells : list cell) :
  (i < 11)%nat ->
  nth_error (rows (momentum_signal data)) i = Some (d, cells) ->
  forallb isna cells = true.
Proof.
  intros Hi Hn.
  destruct (nth_error (rows data) i) as [[d' vs]|] eqn:E.
  - rewrite (momentum_signal_nth data i E) in Hn. inversion Hn; subst.
    apply forallb_forall. intros c Hc. apply in_map_iff in Hc.
    destruct Hc as (j & <- & _). now rewrite window_sum_short.
  - exfalso. apply nth_error_None in E.
    assert (Hlen : List.length (rows (momentum_signal data))
                   = List.length (rows data)).
    { rewrite <- !(length_map fst).
      change (List.length (index (momentum_signal data))
              = List.length (index data)).
      now rewrite momentum_signal_index. }
    assert (nth_error (rows (momentum_signal data)) i = None)
      by (apply nth_error_None; lia).
    congruence.
Qed.

Lemma combine_values (A B : Type) (a : list A) (b : list B) :
  map snd (combine a b) = firstn (List.length a) b.
Proof.
  revert b. induction a as [|x a IH]; intros [|y b]; simpl; try reflexivity.
  now rewrite IH.
Qed.

Lemma forallb_firstn (A : Type) (p : A -> bool) (n : nat) (l : list A) :
  forallb p l = true -> forallb p (firstn n l) = true.
Proof.
  rewrite !forallb_forall. intros H x Hx. apply H.
  now apply (incl_firstn n l).
Qed.

Section SkippedPeriods.
Context {sorter : ArgSort}.

(** A period whose signal row holds no value gets no row in the weight
    table of the momentum allocator. *)
Lemma momentum_skips_empty_signal (data W : DataFrame) (top bottom : Qc)
  (i : nat) (d : date) (cells : list cell) :
  StronglySorted Z.lt (index data) ->
  compute_weight_momentum_12_minus_1 data top bottom = Ok W ->
  nth_error (rows (momentum_signal data)) i = Some (d, cells) ->
  forallb isna cells = true ->
  ~ In d (index W).
Proof.
  intros Hs HW Hi Hnan Hin.
  apply DataFrame_of_records_index in HW. rewrite HW in Hin.
  apply in_map_iff in Hin. destruct Hin as (r & <- & Hr).
  apply momentum_records_In in Hr.
  destruct Hr as (row & Hrow & Hsome & _).
  unfold iterrows in Hrow. apply in_map_iff in Hrow.
  destruct Hrow as ([d' cells'] & E & Hin). inversion E; subst. clear E.
  apply In_nth_error in Hin. destruct Hin as (k & Hk).
  assert (Hnd : NoDup (index (momentum_signal data)))
    by (rewrite momentum_signal_index; now apply sorted_lt_NoDup).
  assert (k = i).
  { rewrite NoDup_nth_error in Hnd. apply Hnd.
    - apply nth_error_Some. unfold index. rewrite nth_error_map, Hk.
      discriminate.
    - unfold index. now rewrite !nth_error_map, Hk, Hi. }
  subst k. rewrite Hk in Hi. inversion Hi; subst.
  rewrite combine_values in Hsome.
  rewrite forallb_firstn in Hsome by assumption. discriminate.
Qed.

(** So none of the first eleven periods has a weight row. *)
Lemma short_history_has_no_weight_row (data W : DataFrame) (top bottom : Qc)
  (i : nat) (d : date) :
  StronglySorted Z.lt (index data) ->
  compute_weight_momentum_12_minus_1 data top bottom = Ok W ->
  (i < 11)%nat ->
  nth_error (index data) i = Some d ->
  ~ In d (index W).
Proof.
  intros Hs HW Hi Hd.
  rewrite <- momentum_signal_index in Hd.
  destruct (nth_error_index _ _ Hd) as (cells & Hc).
  eapply momentum_skips_empty_signal; eauto.
  eapply momentum_signal_short_history; eauto.
Qed.

End SkippedPeriods.

(** * The scenario runner *)

Lemma update_last (h : list DataFrame) (x v : DataFrame) :
  update (List.length h) v (h ++ [x]) = h ++ [v].
Proof. induction h as [|y h IH]; [reflexivity|]. simpl. now rewrite IH. Qed.

Lemma update_other (h : list DataFrame) (l l' : loc) (v : DataFrame) :
  l <> l' -> nth_error (update l v h) l' = nth_error h l'.
Proof.
  revert l l'. induction h as [|x h IH]; intros l l' Hne.
  - now destruct l.
  - destruct l as [|l], l' as [|l']; simpl; try reflexivity; try congruence.
    apply IH. congruence.
Qed.

Lemma update_same (h : list DataFrame) (l : loc) (v : DataFrame) :
  (l < List.length h)%nat -> nth_error (update l v h) l = Some v.
Proof.
  revert l. induction h as [|x h IH]; intros l Hl; [simpl in Hl; lia|].
  destruct l as [|l]; [reflexivity|]. simpl. apply IH. simpl in Hl. lia.
Qed.

Section ScenarioFacts.
Context {sorter : ArgSort}.
Variable np_exp : Qc -> Qc.
Variable py_format : Qc -> string.

Lemma bind_ok (A B : Type) (m : method A) (k : A -> method B) (w w' : world)
  (a : A) :
  m w = (Ok a, w') -> bind m k w = k a w'.
Proof. intros H. unfold bind. now rewrite H. Qed.

Lemma bind_raise (A B : Type) (m : method A) (k : A -> method B)
  (w w' : world) (e : exn) :
  m w = (Raise e, w') -> bind m k w = (Raise e, w').
Proof. intros H. unfold bind. now rewrite H. Qed.

Lemma self_compute_weight_momentum_12_minus_1_ok (D W : DataFrame)
  (top bottom : Qc) (w : world) :
  data (self w) = Some D ->
  compute_weight_momentum_12_minus_1 D top bottom = Ok W ->
  self_compute_weight_momentum_12_minus_1 top bottom w
  = (Ok tt, mkWorld (heap w)
              (mkPortfolio (Some D) (Some W) (performance (self w))
                 (percentile_results (self w)))).
Proof.
  intros HD E. unfold self_compute_weight_momentum_12_minus_1.
  rewrite (@bind_ok _ _ get_self _ w w (self w) eq_refl).
  rewrite HD, E. unfold set_weights. now rewrite HD.
Qed.

Lemma self_compute_weight_momentum_12_minus_1_raise (D : DataFrame)
  (top bottom : Qc) (w : world) (e : exn) :
  data (self w) = Some D ->
  compute_weight_momentum_12_minus_1 D top bottom = Raise e ->
  exists w', self_compute_weight_momentum_12_minus_1 top bottom w
             = (Raise e, w').
Proof.
  intros HD E. unfold self_compute_weight_momentum_12_minus_1.
  rewrite (@bind_ok _ _ get_self _ w w (self w) eq_refl).
  rewrite HD, E. eexists. reflexivity.
Qed.

Lemma self_compute_index_level_and_returns_ok (D W : DataFrame) (start : Qc)
  (w : world) :
  data (self w) = Some D -> weights (self w) = Some W ->
  self_compute_index_level_and_returns np_exp start w
  = (Ok (List.length (heap w)),
     mkWorld (heap w ++ [compute_index_level_and_returns np_exp W D start])
       (mkPortfolio (Some D) (Some W) (Some (List.length (heap w)))
          (percentile_results (self w)))).
Proof.
  intros HD HW. unfold self_compute_index_level_and_returns.
  rewrite (@bind_ok _ _ get_self _ w w (self w) eq_refl).
  rewrite HD, HW.
  unfold bind, new_object, set_performance, write_object, ret.
  cbn [heap self data weights performance percentile_results].
  now rewrite update_last, HD, HW.
Qed.

Lemma scenario_iteration (D : DataFrame) (band : Qc * Qc)
  (rest : list (Qc * Qc)) (w : world) :
  data (self w) = Some D ->
  match compute_weight_momentum_12_minus_1 D (fst band) (snd band) with
  | Ok W =>
      let perf := compute_index_level_and_returns np_exp W D (Qc_of_Z 100) in
      let n := List.length (heap w) in
      scenario_loop np_exp py_format (band :: rest) w
      = scenario_loop np_exp py_format rest
          (mkWorld (heap w ++ [perf; perf])
             (mkPortfolio (Some D) (Some W) (Some n)
                (dict_set (percentile_results (self w))
                   (key_name py_format band) (S n))))
  | Raise e =>
      exists w', scenario_loop np_exp py_format (band :: rest) w = (Raise e, w')
  end.
Proof.
  intros HD. destruct band as [top_p bottom_p]. cbn [fst snd].
  destruct (compute_weight_momentum_12_minus_1 D top_p bottom_p) as [W|e] eqn:E.
  - cbv zeta. cbn [scenario_loop].
    rewrite (@bind_ok _ _ _ _ _ _ _ (@self_compute_weight_momentum_12_minus_1_ok D W top_p bottom_p w HD E)).
    erewrite bind_ok
      by (apply self_compute_index_level_and_returns_ok; reflexivity).
    unfold bind, read_object, new_object, get_self, set_percentile_results.
    cbn [heap self data weights performance percentile_results].
    rewrite app_nth2, Nat.sub_diag by lia. cbn [nth].
    rewrite length_app, Nat.add_1_r, <- app_assoc. reflexivity.
  - destruct (@self_compute_weight_momentum_12_minus_1_raise D top_p bottom_p w e HD E)
      as (w' & Hw').
    exists w'. cbn [scenario_loop]. now apply bind_raise.
Qed.

Lemma stored_keys (n : nat) (ps : list (Qc * Qc)) :
  dict_keys (stored py_format n ps) = map (key_name py_format) ps.
Proof.
  revert n. induction ps as [|band ps IH]; intros n; [reflexivity|].
  simpl. now rewrite IH.
Qed.

Lemma stored_nth (n : nat) (ps : list (Qc * Qc)) (i : nat) (band : Qc * Qc) :
  nth_error ps i = Some band ->
  nth_error (stored py_format n ps) i = Some (key_name py_format band, (n + 2 * i + 1)%nat).
Proof.
  revert n i. induction ps as [|b ps IH]; intros n i Hi.
  - destruct i; discriminate.
  - destruct i as [|i]; simpl in *.
    + inversion Hi. do 2 f_equal. lia.
    + rewrite (IH _ _ Hi). do 2 f_equal. lia.
Qed.

Lemma stored_locs (n : nat) (ps : list (Qc * Qc)) (l : loc) :
  In l (map snd (stored py_format n ps)) ->
  exists i, (i < List.length ps)%nat /\ l = (n + 2 * i + 1)%nat.
Proof.
  revert n. induction ps as [|b ps IH]; intros n H; [destruct H|].
  simpl in H. destruct H as [<-|H].
  - exists 0%nat. simpl. split; lia.
  - destruct (IH _ H) as (i & Hi & ->). exists (S i). simpl. split; lia.
Qed.

Lemma stored_NoDup (n : nat) (ps : list (Qc * Qc)) :
  NoDup (map snd (stored py_format n ps)).
Proof.
  revert n. induction ps as [|b ps IH]; intros n; [constructor|].
  simpl. constructor; [|apply IH].
  intros H. apply stored_locs in H. destruct H as (i & _ & H). lia.
Qed.

Lemma fold_dict_set_fresh (kvs d0 : dict loc) :
  NoDup (dict_keys d0 ++ dict_keys kvs) ->
  fold_left (fun d kv => dict_set d (fst kv) (snd kv)) kvs d0 = d0 ++ kvs.
Proof.
  revert d0. induction kvs as [|[k v] kvs IH]; intros d0 H.
  - simpl. now rewrite app_nil_r.
  - simpl. rewrite <- (app_nil_r d0) at 1. rewrite dict_set_app.
    + simpl. rewrite IH.
      * now rewrite <- app_assoc.
      * unfold dict_keys in *. rewrite map_app. simpl.
        now rewrite <- app_assoc.
    + apply NoDup_remove_2 in H. intros Hin. apply H.
      apply in_or_app. now left.
Qed.

(** The loop, run from a state whose panel is [D] on a heap of [n]
    objects. *)
Lemma scenario_loop_spec (D : DataFrame) (ps : list (Qc * Qc)) :
  forall w w',
    data (self w) = Some D ->
    scenario_loop np_exp py_format ps w = (Ok tt, w') ->
    let n := List.length (heap w) in
    data (self w') = Some D /\
    List.length (heap w') = (n + 2 * List.length ps)%nat /\
    (forall i, (i < n)%nat -> nth_error (heap w') i = nth_error (heap w) i) /\
    percentile_results (self w')
    = fold_left (fun d kv => dict_set d (fst kv) (snd kv)) (stored py_format n ps)
        (percentile_results (self w)) /\
    (forall i band,
        nth_error ps i = Some band ->
        exists perf,
          performance_of np_exp D band = Some perf /\
          nth_error (heap w') (n + 2 * i + 1) = Some perf) /\
    performance (self w')
    = match ps with
      | [] => performance (self w)
      | _ :: _ => Some (n + 2 * (List.length ps - 1))%nat
      end.
Proof.
  induction ps as [|band rest IH]; intros w w' HD Hrun; cbv zeta.
  - cbn in Hrun. inversion Hrun; subst w'.
    repeat split; auto; try lia.
    intros i band Hi. destruct i; discriminate.
  - pose proof (scenario_iteration band rest w HD) as Hit.
    unfold performance_of.
    destruct (compute_weight_momentum_12_minus_1 D (fst band) (snd band))
      as [W|e] eqn:E.
    2:{ destruct Hit as (w0 & Hw0). rewrite Hw0 in Hrun. discriminate. }
    cbv zeta in Hit. rewrite Hit in Hrun. clear Hit.
    set (perf := compute_index_level_and_returns np_exp W D (Qc_of_Z 100)) in *.
    set (n := List.length (heap w)) in *.
    apply IH in Hrun; [|reflexivity].
    cbv zeta in Hrun. cbn [heap self data percentile_results performance] in Hrun.
    assert (Hlen : List.length (heap w ++ [perf; perf]) = S (S n))
      by (rewrite length_app; cbn [List.length]; fold n; lia).
    rewrite Hlen in Hrun.
    destruct Hrun as (HD' & Hl & Hframe & Hstore & Hcont & Hperf).
    repeat split.
    + exact HD'.
    + rewrite Hl. cbn [List.length]. lia.
    + intros i Hi. rewrite Hframe by lia. now apply nth_error_app1.
    + rewrite Hstore. reflexivity.
    + intros i b Hi. destruct i as [|i].
      * cbn in Hi. inversion Hi; subst b. rewrite E. exists perf.
        split; [reflexivity|].
        rewrite Hframe by lia.
        rewrite nth_error_app2 by (fold n; lia). fold n.
        replace (n + 2 * 0 + 1 - n)%nat with 1%nat by lia. reflexivity.
      * cbn in Hi. destruct (Hcont i b Hi) as (p & Hp & Hn).
        exists p. unfold performance_of in Hp. split; [exact Hp|].
        replace (n + 2 * S i + 1)%nat with (S (S n) + 2 * i + 1)%nat by lia.
        exact Hn.
    + rewrite Hperf. destruct rest as [|b rest]; cbn [List.length];
        f_equal; lia.
Qed.

End ScenarioFacts.

(** ** Reading a weight table by period *)

Lemma row_of_absent (rs : list (date * list cell)) (d : date) :
  ~ In d (map fst rs) -> row_of rs d = None.
Proof.
  induction rs as [|[d' vs] rs IH]; intros H; [reflexivity|].
  simpl. destruct (Z.eqb_spec d d') as [->|_].
  - exfalso. apply H. now left.
  - apply IH. intros Hin. apply H. now right.
Qed.

Lemma row_of_records (g : record -> list cell) (records : list record)
  (r : record) :
  NoDup (map fst records) -> In r records ->
  row_of (map (fun r => (fst r, g r)) records) (fst r) = Some (g r).
Proof.
  induction records as [|r0 records IH]; intros Hnd Hin; [destruct Hin|].
  inversion Hnd as [|? ? Hr0 Hnd']; subst.
  simpl. destruct Hin as [->|Hin].
  - now rewrite Z.eqb_refl.
  - destruct (Z.eqb_spec (fst r) (fst r0)) as [E|_]; [|auto].
    exfalso. apply Hr0. rewrite <- E. now apply in_map.
Qed.

Lemma cell_of_row (d : dict Qc) (cols : list ticker) (t : ticker) :
  incl (dict_keys d) cols ->
  cell_of cols (map (dict_get d) cols) t = dict_get d t.
Proof.
  intros Hi. destruct (in_dec string_dec t cols) as [Hin|Hout].
  - now apply cell_of_map.
  - rewrite cell_of_absent by exact Hout.
    symmetry. apply dict_get_absent. intros H. apply Hout. now apply Hi.
Qed.

(** The cell of a weight table at a period and a ticker is the entry of the
    ticker in the record of that period. *)
Lemma lookup_weight_table (records : list record) (W : DataFrame) (r : record)
  (t : ticker) :
  DataFrame_of_records records = Ok W ->
  NoDup (map fst records) -> In r records ->
  lookup W (fst r) t = dict_get (snd r) t.
Proof.
  intros HW Hnd Hin. apply DataFrame_of_records_Ok in HW.
  destruct HW as [_ ->]. unfold lookup. cbn [rows columns].
  match goal with
  | |- match ?x with _ => _ end = _ =>
      replace x with (Some (map (dict_get (snd r)) (record_columns records)))
  end.
  - apply cell_of_row. now apply record_columns_cover.
  - symmetry.
    exact (row_of_records
             (fun r => map (dict_get (snd r)) (record_columns records))
             records r Hnd Hin).
Qed.

Lemma lookup_weight_table_absent (records : list record) (W : DataFrame)
  (T : date) (t : ticker) :
  DataFrame_of_records records = Ok W ->
  ~ In T (map fst records) -> lookup W T t = None.
Proof.
  intros HW Hout. apply DataFrame_of_records_Ok in HW.
  destruct HW as [_ ->]. unfold lookup. cbn [rows].
  rewrite row_of_absent; [reflexivity|].
  now rewrite map_map.
Qed.

Section WeightCells.
Context {sorter : ArgSort}.

Lemma momentum_records_at (pmin pmax : Qc) (it : list (date * Series))
  (T : date) (row : Series) :
  NoDup (map fst it) -> In (T, row) it ->
  match momentum_record pmin pmax row with
  | Some d => In (T, d) (momentum_records pmin pmax it)
  | None => ~ In T (map fst (momentum_records pmin pmax it))
  end.
Proof.
  induction it as [|[d0 row0] it IH]; intros Hnd Hin; [destruct Hin|].
  inversion Hnd as [|? ? Hd0 Hnd']; subst.
  destruct Hin as [E|Hin].
  - inversion E; subst. unfold momentum_record. cbn [momentum_records].
    destruct (forallb isna (map snd row)).
    + intros H. apply Hd0. eapply momentum_records_incl; eauto.
    + cbv zeta.
      destruct (List.length (dropna (sort_values_desc row)) =? 0)%nat.
      * intros H. apply Hd0. eapply momentum_records_incl; eauto.
      * now left.
  - specialize (IH Hnd' Hin).
    assert (Hne : d0 <> T).
    { intros ->. apply Hd0. now apply (in_map fst) in Hin. }
    cbn [momentum_records].
    destruct (momentum_record pmin pmax row) as [d|].
    + destruct (forallb isna (map snd row0)); [exact IH|].
      destruct (List.length (dropna (sort_values_desc row0)) =? 0)%nat;
        [exact IH | now right].
    + destruct (forallb isna (map snd row0)); [exact IH|].
      destruct (List.length (dropna (sort_values_desc row0)) =? 0)%nat;
        [exact IH|].
      intros [H|H]; [now apply Hne | now apply IH].
Qed.

Lemma momentum_records_NoDup (pmin pmax : Qc) (it : list (date * Series)) :
  StronglySorted Z.lt (map fst it) ->
  NoDup (map fst (momentum_records pmin pmax it)).
Proof. intros H. now apply sorted_lt_NoDup, momentum_records_sorted. Qed.

(** The weight of a ticker at a period, read off the signal row of that
    period alone. *)
Lemma momentum_weight_cell (data W : DataFrame) (top bottom : Qc) (T : date)
  (row : Series) (t : ticker) :
  StronglySorted Z.lt (index data) ->
  compute_weight_momentum_12_minus_1 data top bottom = Ok W ->
  In (T, row) (iterrows (momentum_signal data)) ->
  lookup W T t
  = match momentum_record (py_min top bottom) (py_max top bottom) row with
    | Some d => dict_get d t
    | None => None
    end.
Proof.
  intros Hs HW Hin.
  assert (Hs' : StronglySorted Z.lt (map fst (iterrows (momentum_signal data))))
    by now rewrite iterrows_index, momentum_signal_index.
  pose proof (@momentum_records_at (py_min top bottom) (py_max top bottom)
                _ T row (sorted_lt_NoDup Hs') Hin) as Hat.
  destruct (momentum_record (py_min top bottom) (py_max top bottom) row)
    as [d|].
  - apply (@lookup_weight_table _ W (T, d) t HW); [|exact Hat].
    now apply momentum_records_NoDup.
  - now apply (@lookup_weight_table_absent _ W T t HW).
Qed.

Lemma last_month_weight_cell (data W : DataFrame) (top bottom : Qc) (T : date)
  (row : Series) (t : ticker) :
  StronglySorted Z.lt (index data) ->
  compute_weights_last_month_direction data top bottom = Ok W ->
  In (T, row) (iterrows data) ->
  lookup W T t
  = dict_get (band_weights (py_min top bottom) (py_max top bottom)
                (List.length (sort_values_desc row)) (sort_values_desc row)) t.
Proof.
  intros Hs HW Hin.
  apply (@lookup_weight_table _ W
           (T, band_weights (py_min top bottom) (py_max top bottom)
                 (List.length (sort_values_desc row)) (sort_values_desc row))
           t HW).
  - rewrite last_month_records_index, iterrows_index.
    now apply sorted_lt_NoDup.
  - unfold last_month_records. apply in_map_iff. now exists (T, row).
Qed.

End WeightCells.

Lemma nth_error_prefix (A : Type) (l : list A) (n i : nat) :
  (i < n)%nat -> nth_error (firstn n l) i = nth_error l i.
Proof.
  revert l i. induction n as [|n IH]; intros l i Hi; [lia|].
  destruct l as [|x l]; [reflexivity|].
  destruct i as [|i]; [reflexivity|]. simpl. apply IH. lia.
Qed.

Lemma nth_error_firstn_eq (A : Type) (l1 l2 : list A) (n i : nat) :
  firstn n l1 = firstn n l2 -> (i < n)%nat ->
  nth_error l1 i = nth_error l2 i.
Proof.
  intros E Hi.
  rewrite <- (@nth_error_prefix A l1 n i Hi), E.
  now apply nth_error_prefix.
Qed.

(** ** The weight of one ticker *)

Lemma dict_get_set (V : Type) (d : dict V) (k t : string) (v : V) :
  dict_get (dict_set d k v) t
  = if String.eqb t k then Some v else dict_get d t.
Proof.
  induction d as [|[k' v'] d IH]; simpl.
  - reflexivity.
  - destruct (String.eqb_spec k k') as [->|Hk]; simpl.
    + now destruct (String.eqb t k').
    + rewrite IH. destruct (String.eqb_spec t k') as [->|Ht].
      * destruct (String.eqb_spec k' k) as [E|_]; [congruence|reflexivity].
      * reflexivity.
Qed.

Lemma dict_get_fold_set (V : Type) (v : V) (ks : list string) (d : dict V)
  (t : string) :
  dict_get (fold_left (fun d k => dict_set d k v) ks d) t
  = if existsb (String.eqb t) ks then Some v else dict_get d t.
Proof.
  revert d. induction ks as [|k ks IH]; intros d; simpl; [reflexivity|].
  rewrite IH, dict_get_set.
  destruct (String.eqb t k); simpl; [|reflexivity].
  now destruct (existsb (String.eqb t) ks).
Qed.

Lemma existsb_eqb_In (t : string) (ks : list string) :
  existsb (String.eqb t) ks = true <-> In t ks.
Proof.
  rewrite existsb_exists. split.
  - intros [x [Hx E]]. apply String.eqb_eq in E. now subst.
  - intros H. exists t. split; [exact H | apply String.eqb_refl].
Qed.

Lemma existsb_eqb_not_In (t : string) (ks : list string) :
  existsb (String.eqb t) ks = false <-> ~ In t ks.
Proof.
  rewrite <- existsb_eqb_In. destruct (existsb (String.eqb t) ks); split;
    intros; congruence.
Qed.

Lemma band_weights_unfold (pmin pmax : Qc) (l : nat) (sorted_row : Series) :
  band_weights pmin pmax l sorted_row
  = fold_left (fun d t => dict_set d t (ticker_weight pmin pmax l))
      (selected_tickers pmin pmax l sorted_row)
      (fold_left (fun d t => dict_set d t 0) (map fst sorted_row) []).
Proof. reflexivity. Qed.

(** A selected ticker holds the weight. *)
Lemma band_weights_selected (pmin pmax : Qc) (l : nat) (sorted_row : Series)
  (t : ticker) :
  In t (selected_tickers pmin pmax l sorted_row) ->
  dict_get (band_weights pmin pmax l sorted_row) t
  = Some (ticker_weight pmin pmax l).
Proof.
  intros H. rewrite band_weights_unfold, dict_get_fold_set.
  apply existsb_eqb_In in H. now rewrite H.
Qed.

(** Every other ticker of the row holds 0. *)
Lemma band_weights_unselected (pmin pmax : Qc) (l : nat) (sorted_row : Series)
  (t : ticker) :
  ~ In t (selected_tickers pmin pmax l sorted_row) ->
  In t (map fst sorted_row) ->
  dict_get (band_weights pmin pmax l sorted_row) t = Some 0.
Proof.
  intros Hn Hin. rewrite band_weights_unfold, !dict_get_fold_set.
  apply existsb_eqb_not_In in Hn. apply existsb_eqb_In in Hin.
  now rewrite Hn, Hin.
Qed.

Lemma band_weights_absent (pmin pmax : Qc) (l : nat) (sorted_row : Series)
  (t : ticker) :
  ~ In t (map fst sorted_row) ->
  dict_get (band_weights pmin pmax l sorted_row) t = None.
Proof.
  intros Hn. rewrite band_weights_unfold, !dict_get_fold_set.
  assert (Hs : ~ In t (selected_tickers pmin pmax l sorted_row)).
  { intros H. apply Hn. unfold selected_tickers, py_slice in H.
    apply incl_firstn in H.
    revert H. generalize (py_slice_bound (List.length (map fst sorted_row))
                            (slice_index pmin l)).
    intros n H. rewrite <- (firstn_skipn n (map fst sorted_row)).
    apply in_or_app. now right. }
  apply existsb_eqb_not_In in Hs. apply existsb_eqb_not_In in Hn.
  now rewrite Hs, Hn.
Qed.

Lemma Qc_of_Z_pos (z : Z) : (0 < z)%Z -> 0 < Qc_of_Z z.
Proof.
  intros H. unfold Qclt. rewrite Qc_of_Z_this.
  unfold Qlt. simpl. lia.
Qed.

Lemma Qcinv_pos (x : Qc) : 0 < x -> 0 < / x.
Proof.
  unfold Qclt, Qcinv. cbn [this Q2Qc]. intros H.
  rewrite (Qred_correct (/ x)). apply Qinv_lt_0_compat.
  now rewrite (Qred_correct 0) in H.
Qed.

Lemma ticker_weight_pos (pmin pmax : Qc) (l : nat) :
  0 < ticker_weight pmin pmax l.
Proof.
  unfold ticker_weight.
  set (k := Z.max 1 _).
  assert (Hk : 0 < Qc_of_Z k) by (apply Qc_of_Z_pos; subst k; lia).
  unfold Qcdiv. rewrite Qcmult_1_l.
  now apply Qcinv_pos.
Qed.

Lemma ticker_weight_neq_0 (pmin pmax : Qc) (l : nat) :
  ticker_weight pmin pmax l <> 0.
Proof.
  intros E. symmetry in E. revert E.
  apply Qclt_not_eq, ticker_weight_pos.
Qed.

(** ** Positions in a list without duplicates *)

Lemma StronglySorted_nth (A : Type) (R : A -> A -> Prop) (l : list A)
  (i j : nat) (x y : A) :
  StronglySorted R l -> (i < j)%nat ->
  nth_error l i = Some x -> nth_error l j = Some y -> R x y.
Proof.
  intros Hs. revert i j. induction Hs as [|z l Hs IH Hz]; intros i j Hij Hi Hj.
  - destruct i; discriminate.
  - destruct j as [|j]; [lia|]. simpl in Hj.
    destruct i as [|i]; simpl in Hi.
    + injection Hi as ->. rewrite Forall_forall in Hz.
      apply Hz. eapply nth_error_In; eauto.
    + apply (IH i j); [lia | assumption | assumption].
Qed.

Lemma nth_error_Some_lt (A : Type) (l : list A) (i : nat) (x : A) :
  nth_error l i = Some x -> (i < List.length l)%nat.
Proof. intros H. apply nth_error_Some. congruence. Qed.

Lemma NoDup_position_firstn (A : Type) (l : list A) (m i : nat) (a : A) :
  NoDup l -> nth_error l i = Some a -> In a (firstn m l) -> (i < m)%nat.
Proof.
  intros Hnd Hi Hin.
  apply In_nth_error in Hin. destruct Hin as [k Hk].
  assert (Hkm : (k < m)%nat).
  { assert (H : (k < List.length (firstn m l))%nat)
      by (apply nth_error_Some; congruence).
    rewrite length_firstn in H. lia. }
  rewrite (@nth_error_prefix A l m k Hkm) in Hk.
  assert (E : k = i).
  { rewrite NoDup_nth_error in Hnd. apply Hnd.
    - apply nth_error_Some. congruence.
    - congruence. }
  lia.
Qed.

Lemma nth_error_In_firstn (A : Type) (l : list A) (m j : nat) (b : A) :
  nth_error l j = Some b -> (j < m)%nat -> In b (firstn m l).
Proof.
  intros Hj Hm. apply (@nth_error_In A (firstn m l) j).
  now rewrite nth_error_prefix.
Qed.

Lemma py_slice_from_0 (A : Type) (l : list A) (stop : Z) :
  py_slice l 0 stop = firstn (py_slice_bound (List.length l) stop) l.
Proof.
  unfold py_slice. cbn [py_slice_bound Z.ltb Z.compare Z.to_nat Nat.min skipn].
  now rewrite Nat.sub_0_r.
Qed.

Lemma slice_index_0 (l : nat) : slice_index 0 l = 0%Z.
Proof. unfold slice_index. now rewrite scaled_zero. Qed.

Lemma py_min_nonneg_0 (top : Qc) : 0 <= top -> py_min top 0 = 0.
Proof.
  intros H. unfold py_min, Qcltb.
  destruct (0 ?= top) eqn:E; try reflexivity.
  - apply Qceq_alt in E. now subst.
  - apply Qcle_alt in H. exfalso. apply H. exact E.
Qed.

Lemma py_max_nonneg_0 (top : Qc) : 0 <= top -> py_max top 0 = top.
Proof.
  intros H. unfold py_max, Qcltb.
  destruct (top ?= 0) eqn:E; try reflexivity.
  apply Qclt_alt in E. now apply Qcle_not_lt in H.
Qed.

(** ** The ranking behind a band *)

Section BandFacts.
Context {sorter : ArgSort}.

Lemma sort_values_desc_parts (row : Series) :
  exists N,
    sort_values_desc row = dropna (sort_values_desc row) ++ N
    /\ forall x, In x N -> snd x = None.
Proof.
  exists (take (EmptyString, None) row (nan_positions (map snd row))). split.
  - rewrite dropna_sorted. apply sort_values_desc_split.
  - intros x Hx. apply nan_positions_isna in Hx.
    destruct (snd x); [discriminate | reflexivity].
Qed.

Lemma valued_in_dropna (row : Series) (t : ticker) (v : Qc) :
  In (t, Some v) row -> In (t, Some v) (dropna (sort_values_desc row)).
Proof.
  intros H. unfold dropna. apply filter_In. split; [|reflexivity].
  eapply Permutation_in; [symmetry; apply sort_values_desc_perm | exact H].
Qed.

Lemma sorted_labels_NoDup (row : Series) :
  NoDup (map fst row) -> NoDup (map fst (sort_values_desc row)).
Proof.
  intros H. eapply Permutation_NoDup; [symmetry; apply sorted_labels | exact H].
Qed.

(** With the slice starting at the head of the ranking, a ticker inside the
    slice has a value at least as large as any valued ticker outside. *)
Lemma top_slice_outranks (row : Series) (pmax : Qc) (l : nat) (a b : ticker)
  (va vb : Qc) :
  NoDup (map fst row) ->
  In (a, Some va) row -> In (b, Some vb) row ->
  In a (selected_tickers 0 pmax l (sort_values_desc row)) ->
  ~ In b (selected_tickers 0 pmax l (sort_values_desc row)) ->
  vb <= va.
Proof.
  intros Hnd Ha Hb Hsa Hsb.
  unfold selected_tickers in Hsa, Hsb.
  rewrite slice_index_0, py_slice_from_0 in Hsa, Hsb.
  set (m := py_slice_bound _ _) in Hsa, Hsb.
  pose proof (@sorted_labels_NoDup row Hnd) as Hnd'.
  destruct (sort_values_desc_parts row) as [N [Hparts HN]].
  destruct (sort_values_desc_descending row) as [vals [Hvals Hsorted]].
  apply valued_in_dropna in Ha, Hb.
  apply In_nth_error in Ha, Hb.
  destruct Ha as [i Hi], Hb as [j Hj].
  set (V := dropna (sort_values_desc row)) in *.
  assert (Hti : nth_error (map fst (sort_values_desc row)) i = Some a).
  { rewrite Hparts, map_app, nth_error_app1.
    - exact (map_nth_error fst i V Hi).
    - rewrite length_map. exact (@nth_error_Some_lt _ V i _ Hi). }
  assert (Htj : nth_error (map fst (sort_values_desc row)) j = Some b).
  { rewrite Hparts, map_app, nth_error_app1.
    - exact (map_nth_error fst j V Hj).
    - rewrite length_map. exact (@nth_error_Some_lt _ V j _ Hj). }
  assert (Hvi : nth_error vals i = Some va).
  { assert (H : nth_error (map snd V) i = Some (Some va))
      by exact (map_nth_error snd i V Hi).
    rewrite Hvals, nth_error_map in H.
    destruct (nth_error vals i); simpl in H; congruence. }
  assert (Hvj : nth_error vals j = Some vb).
  { assert (H : nth_error (map snd V) j = Some (Some vb))
      by exact (map_nth_error snd j V Hj).
    rewrite Hvals, nth_error_map in H.
    destruct (nth_error vals j); simpl in H; congruence. }
  destruct (Nat.lt_total i j) as [Hlt|[Heq|Hgt]].
  - exact (@StronglySorted_nth Qc (fun x y => y <= x) vals i j va vb
             Hsorted Hlt Hvi Hvj).
  - subst j. exfalso. apply Hsb. congruence.
  - exfalso. apply Hsb.
    apply (@nth_error_In_firstn ticker _ m j b Htj).
    pose proof (@NoDup_position_firstn ticker _ m i a Hnd' Hti Hsa). lia.
Qed.

(** The weight table read at a period that has a row. *)
Lemma momentum_weight_row (data W : DataFrame) (top bottom : Qc) (T : date)
  (row : Series) (t : ticker) (w : Qc) :
  StronglySorted Z.lt (index data) ->
  compute_weight_momentum_12_minus_1 data top bottom = Ok W ->
  In (T, row) (iterrows (momentum_signal data)) ->
  lookup W T t = Some w ->
  forall t',
    lookup W T t'
    = dict_get (band_weights (py_min top bottom) (py_max top bottom)
                  (List.length (dropna (sort_values_desc row)))
                  (sort_values_desc row)) t'.
Proof.
  intros Hs HW Hin Hw t'.
  rewrite (@momentum_weight_cell sorter data W top bottom T row t Hs HW Hin)
    in Hw.
  rewrite (@momentum_weight_cell sorter data W top bottom T row t' Hs HW Hin).
  unfold momentum_record in *.
  destruct (forallb isna (map snd row)); [discriminate|].
  cbv zeta in *.
  destruct (List.length (dropna (sort_values_desc row)) =? 0)%nat;
    [discriminate | reflexivity].
Qed.

Lemma weight_selected_or_zero (pmin pmax : Qc) (l : nat) (sorted_row : Series)
  (t : ticker) (w : Qc) :
  dict_get (band_weights pmin pmax l sorted_row) t = Some w ->
  (In t (selected_tickers pmin pmax l sorted_row)
   /\ w = ticker_weight pmin pmax l)
  \/ (~ In t (selected_tickers pmin pmax l sorted_row)
      /\ In t (map fst sorted_row) /\ w = 0).
Proof.
  intros H.
  destruct (in_dec string_dec t (selected_tickers pmin pmax l sorted_row))
    as [Hs|Hs].
  - left. split; [exact Hs|].
    rewrite (@band_weights_selected pmin pmax l sorted_row t Hs) in H. congruence.
  - right. split; [exact Hs|].
    destruct (in_dec string_dec t (map fst sorted_row)) as [Ht|Ht].
    + split; [exact Ht|].
      rewrite (@band_weights_unselected pmin pmax l sorted_row t Hs Ht) in H.
      congruence.
    + rewrite (@band_weights_absent pmin pmax l sorted_row t Ht) in H.
      discriminate.
Qed.

End BandFacts.

(** ** Empty and full slices *)

Lemma py_slice_same (A : Type) (l : list A) (i : Z) : py_slice l i i = [].
Proof. unfold py_slice. now rewrite Nat.sub_diag. Qed.

Lemma py_slice_bound_of_nat (len n : nat) :
  (n <= len)%nat -> py_slice_bound len (Z.of_nat n) = n.
Proof.
  intros H. unfold py_slice_bound.
  destruct (Z.ltb_spec (Z.of_nat n) 0); [lia|].
  rewrite Nat2Z.id. lia.
Qed.

Lemma slice_index_full (l : nat) : slice_index (Qc_of_Z 100) l = Z.of_nat l.
Proof.
  unfold slice_index. rewrite scaled_hundred.
  apply py_int_of_Z. lia.
Qed.

Lemma Qc_of_nat_nonneg (n : nat) : 0 <= Qc_of_nat n.
Proof. apply Qc_of_Z_nonneg. lia. Qed.

Lemma Qcmult_nonneg (x y : Qc) : 0 <= x -> 0 <= y -> 0 <= x * y.
Proof.
  intros Hx Hy. rewrite <- (Qcmult_0_l y).
  now apply Qcmult_le_compat_r.
Qed.

Lemma scaled_nonneg (p : Qc) (l : nat) :
  0 <= p -> 0 <= p * Qc_of_nat l / Qc_of_Z 100.
Proof.
  intros H. unfold Qcdiv. apply Qcmult_nonneg; [|apply hundredth_nonneg].
  apply Qcmult_nonneg; [exact H | apply Qc_of_nat_nonneg].
Qed.

(** A percentile too small to reach one member of the population gives the
    index 0. *)
Lemma slice_index_small (p : Qc) (l : nat) :
  0 <= p -> p * Qc_of_nat l < Qc_of_Z 100 -> slice_index p l = 0%Z.
Proof.
  intros H0 Hlt. unfold slice_index.
  set (x := p * Qc_of_nat l / Qc_of_Z 100).
  assert (Hx0 : 0 <= x) by now apply scaled_nonneg.
  assert (Hx1 : x < 1).
  { subst x. unfold Qcdiv.
    replace 1 with (Qc_of_Z 100 * / Qc_of_Z 100)
      by (apply Qcmult_inv_r; now apply Qc_of_Z_neq_0).
    apply Qcmult_lt_compat_r; [|exact Hlt].
    apply Qcinv_pos, Qc_of_Z_pos. lia. }
  rewrite py_int_floor by exact Hx0.
  assert (Hlo : (0 <= Qfloor x)%Z).
  { change 0%Z with (Qfloor 0). now apply Qfloor_resp_le. }
  assert (Hhi : (Qfloor x < 1)%Z).
  { rewrite Zlt_Qlt. eapply Qle_lt_trans; [apply Qfloor_le|]. exact Hx1. }
  lia.
Qed.

Lemma NoDup_keys_functional (A B : Type) (l : list (A * B)) (k : A)
  (v v' : B) :
  NoDup (map fst l) -> In (k, v) l -> In (k, v') l -> v = v'.
Proof.
  induction l as [|[k0 v0] l IH]; intros Hnd H1 H2; [destruct H1|].
  simpl in Hnd. inversion Hnd as [|? ? Hk0 Hnd']; subst.
  destruct H1 as [E1|H1], H2 as [E2|H2].
  - congruence.
  - inversion E1; subst. exfalso. apply Hk0.
    now apply (in_map fst) in H2.
  - inversion E2; subst. exfalso. apply Hk0.
    now apply (in_map fst) in H1.
  - now apply IH.
Qed.

Lemma row_of_In (rs : list (date * list cell)) (d : date) (vs : list cell) :
  row_of rs d = Some vs -> In (d, vs) rs.
Proof.
  induction rs as [|[d' vs'] rs IH]; simpl; [discriminate|].
  destruct (Z.eqb_spec d d') as [->|_].
  - intros E. injection E as ->. now left.
  - intros H. right. now apply IH.
Qed.

Section WeightSources.
Context {sorter : ArgSort}.

(** Every cell of a weight table is an entry of the dict [band_weights]
    built for some sorted row. *)
Lemma weight_cell_source (data W : DataFrame) (top bottom : Qc) (T : date)
  (t : ticker) (w : Qc) :
  compute_weights_last_month_direction data top bottom = Ok W
  \/ compute_weight_momentum_12_minus_1 data top bottom = Ok W ->
  lookup W T t = Some w ->
  exists l row,
    dict_get (band_weights (py_min top bottom) (py_max top bottom) l
                (sort_values_desc row)) t = Some w.
Proof.
  intros HW Hw. unfold lookup in Hw.
  destruct (row_of (rows W) T) as [ws|] eqn:Hrow; [|discriminate].
  apply row_of_In in Hrow.
  assert (Hrec : exists records,
             DataFrame_of_records records = Ok W
             /\ forall r, In r records ->
                  exists l row,
                    snd r = band_weights (py_min top bottom)
                              (py_max top bottom) l (sort_values_desc row)).
  { destruct HW as [HW|HW].
    - eexists. split; [exact HW|]. intros r Hr.
      apply last_month_records_In in Hr. destruct Hr as [row [_ E]].
      eauto.
    - eexists. split; [exact HW|]. intros r Hr.
      apply momentum_records_In in Hr. destruct Hr as [row [_ [_ [_ E]]]].
      eauto. }
  destruct Hrec as [records [Hrecs Hall]].
  destruct (@rows_of_records records W T ws Hrecs Hrow)
    as [Hcols [r [Hr [_ Hws]]]].
  destruct (Hall r Hr) as [l [row E]].
  exists l, row. rewrite <- E, <- Hw, Hws.
  symmetry. apply cell_of_row. rewrite Hcols.
  now apply record_columns_cover.
Qed.

End WeightSources.

(** ** Lagged weights that are all 0 or NaN *)

Lemma removelast_In (A : Type) (l : list A) (x : A) :
  In x (removelast l) -> In x l.
Proof.
  induction l as [|y l IH]; simpl; [easy|].
  destruct l as [|z l]; [easy|].
  intros [->|H]; [now left | right; now apply IH].
Qed.

Lemma shift1_cell_source (W : DataFrame) (d : date) (t : ticker) :
  NoDup (index W) ->
  lookup (shift1 W) d t = None
  \/ exists d', lookup (shift1 W) d t = lookup W d' t.
Proof.
  intros Hnd.
  destruct (row_of (rows (shift1 W)) d) as [vs|] eqn:Hrow;
    [|left; unfold lookup; now rewrite Hrow].
  pose proof (@row_of_In _ _ _ Hrow) as Hin.
  unfold shift1 in Hin. cbn [rows] in Hin.
  apply in_combine_r in Hin. destruct Hin as [E|Hin].
  - left. unfold lookup. rewrite Hrow, <- E. apply cell_of_all_nan.
  - right. apply removelast_In in Hin. apply in_map_iff in Hin.
    destruct Hin as ([d' vs'] & E & Hin). simpl in E. subst vs'.
    exists d'. unfold lookup. rewrite Hrow. apply In_nth_error in Hin.
    destruct Hin as [k Hk].
    now rewrite (@row_of_nth (rows W) k d' vs Hnd Hk).
Qed.

Lemma sum_skipna_zeros (A : Type) (f : A -> cell) (l : list A) :
  (forall x, In x l -> f x = None \/ f x = Some 0) ->
  sum_skipna (map f l) = 0.
Proof.
  induction l as [|x l IH]; intros H; [reflexivity|].
  unfold sum_skipna in *. simpl.
  destruct (H x (or_introl eq_refl)) as [E|E]; rewrite E; simpl.
  - apply IH. intros y Hy. apply H. now right.
  - rewrite IH; [apply Qcplus_0_l|]. intros y Hy. apply H. now right.
Qed.

(** When every weight is 0, every period's weighted return is 0. *)
Lemma weighted_return_of_zero_weights (W D : DataFrame) (d : date) :
  NoDup (index W) ->
  (forall T t w, lookup W T t = Some w -> w = 0) ->
  weighted_return W D d = 0.
Proof.
  intros Hnd Hz. unfold weighted_return. apply sum_skipna_zeros.
  intros t _.
  destruct (@shift1_cell_source W d t Hnd) as [E|[d' E]]; rewrite E.
  - now left.
  - destruct (lookup W d' t) as [w|] eqn:Hw; [|now left].
    rewrite (Hz d' t w Hw).
    destruct (lookup D d t) as [r|]; [right|now left].
    simpl. f_equal. ring.
Qed.

(** Before the first row of the weight table there is no lagged weight. *)
Lemma shift1_before_first (W : DataFrame) (d : date) (t : ticker) :
  StronglySorted Z.lt (index W) ->
  (forall d', In d' (index W) -> (d <= d')%Z) ->
  lookup (shift1 W) d t = None.
Proof.
  intros Hs Hle. unfold lookup.
  destruct (rows W) as [|[T0 w0] rest] eqn:Hrows.
  - unfold shift1, index. rewrite Hrows. reflexivity.
  - destruct (Z.eq_dec d T0) as [->|Hne].
    + pose proof (@shift1_first W T0 w0 rest Hrows) as H0.
      destruct (rows (shift1 W)) as [|[T1 w1] rest1]; [discriminate|].
      simpl in H0. injection H0 as -> ->. simpl. rewrite Z.eqb_refl.
      apply cell_of_all_nan.
    + rewrite row_of_absent; [reflexivity|].
      change (map fst (rows (shift1 W))) with (index (shift1 W)).
      rewrite index_shift1. intros Hin.
      unfold index in Hs, Hin, Hle. rewrite Hrows in Hs, Hin, Hle.
      simpl in Hs, Hin, Hle. inversion Hs as [|? ? Hs' Hall]; subst.
      destruct Hin as [E|Hin]; [congruence|].
      rewrite Forall_forall in Hall. specialize (Hall d Hin).
      specialize (Hle T0 (or_introl eq_refl)). lia.
Qed.

Lemma weighted_return_before_first (W D : DataFrame) (d : date) :
  StronglySorted Z.lt (index W) ->
  (forall d', In d' (index W) -> (d <= d')%Z) ->
  weighted_return W D d = 0.
Proof.
  intros Hs Hle. unfold weighted_return. apply sum_skipna_zeros.
  intros t _. left. now rewrite shift1_before_first.
Qed.

(** ** One row of the performance table *)

Section PerformanceRows.
Variable np_exp : Qc -> Qc.

(** On a panel with ascending periods that holds every period of the weight
    table, row [i] of the performance table is the panel's period [i] with
    its weighted return, the sum of the weighted returns so far, and the
    index level. *)
Lemma performance_row (W D : DataFrame) (start : Qc) (i : nat) (d : date) :
  StronglySorted Z.lt (index D) -> incl (index W) (index D) ->
  nth_error (index D) i = Some d ->
  let c := Qcsum (map (weighted_return W D) (firstn (S i) (index D))) in
  nth_error (rows (compute_index_level_and_returns np_exp W D start)) i
  = Some (d, [Some (weighted_return W D d); Some c;
              Some (start * np_exp c)]).
Proof.
  intros Hs Hincl Hi c.
  rewrite compute_index_level_and_returns_rows, row_sums_df_mul.
  rewrite (@union_index_cover (index W) (index D) Hs Hincl).
  set (l := map (fun d => (d, weighted_return W D d)) (index D)).
  assert (Hl : nth_error l i = Some (d, weighted_return W D d)).
  { subst l. now rewrite nth_error_map, Hi. }
  destruct (@compounded_nth np_exp start l 0 i d _ Hl) as (c' & Hc & Hn).
  rewrite Hn. repeat f_equal.
  - subst c c' l. rewrite Qcplus_0_l, firstn_map, map_map. reflexivity.
  - subst c c' l. rewrite Qcplus_0_l, firstn_map, map_map. reflexivity.
Qed.

Lemma performance_cells (W D : DataFrame) (start : Qc) (i : nat) (d : date) :
  StronglySorted Z.lt (index D) -> incl (index W) (index D) ->
  nth_error (index D) i = Some d ->
  let perf := compute_index_level_and_returns np_exp W D start in
  let c := Qcsum (map (weighted_return W D) (firstn (S i) (index D))) in
  lookup perf d "portfolio_log_return" = Some (weighted_return W D d)
  /\ lookup perf d "cumulative_log_return" = Some c
  /\ lookup perf d "index_level" = Some (start * np_exp c).
Proof.
  intros Hs Hincl Hi perf c.
  pose proof (@performance_row W D start i d Hs Hincl Hi) as Hrow.
  cbv zeta in Hrow. fold c in Hrow. fold perf in Hrow.
  assert (Hnd : NoDup (map fst (rows perf))).
  { change (map fst (rows perf)) with (index perf). subst perf.
    rewrite compute_index_level_and_returns_index.
    rewrite (@union_index_cover (index W) (index D) Hs Hincl).
    now apply sorted_lt_NoDup. }
  unfold lookup.
  rewrite (@row_of_nth (rows perf) i d _ Hnd Hrow).
  subst perf. rewrite compute_index_level_and_returns_columns.
  repeat split.
Qed.

End PerformanceRows.

Lemma Qcsum_zeros (A : Type) (f : A -> Qc) (l : list A) :
  (forall x, In x l -> f x = 0) -> Qcsum (map f l) = 0.
Proof.
  induction l as [|x l IH]; intros H; [reflexivity|].
  simpl. rewrite (H x (or_introl eq_refl)), IH; [apply Qcplus_0_l|].
  intros y Hy. apply H. now right.
Qed.

(** ** Periods before the first weight row *)

Lemma sorted_nth_le (l : list Z) (i j : nat) (x y : Z) :
  StronglySorted Z.lt l -> (i <= j)%nat ->
  nth_error l i = Some x -> nth_error l j = Some y -> (x <= y)%Z.
Proof.
  intros Hs Hij Hi Hj.
  destruct (Nat.eq_dec i j) as [->|Hne].
  - assert (x = y) by congruence. lia.
  - assert (x < y)%Z; [|lia].
    apply (@sorted_lt_nth l i j x y Hs); [lia | assumption | assumption].
Qed.

Section FlatStart.
Variable np_exp : Qc -> Qc.

(** Up to and including the first period of the weight table the portfolio
    return is 0 and the index level stays at [start * exp 0]. *)
Lemma flat_before_weights (W D : DataFrame) (start : Qc) (i : nat) (d : date) :
  StronglySorted Z.lt (index D) -> StronglySorted Z.lt (index W) ->
  incl (index W) (index D) ->
  nth_error (index D) i = Some d ->
  (forall d', In d' (index W) -> (d <= d')%Z) ->
  let perf := compute_index_level_and_returns np_exp W D start in
  lookup perf d "portfolio_log_return" = Some 0
  /\ lookup perf d "cumulative_log_return" = Some 0
  /\ lookup perf d "index_level" = Some (start * np_exp 0).
Proof.
  intros HsD HsW Hincl Hi Hle perf.
  destruct (@performance_cells np_exp W D start i d HsD Hincl Hi)
    as (Hr & Hc & Hl).
  fold perf in Hr, Hc, Hl.
  assert (Hz : forall x, In x (firstn (S i) (index D)) ->
                         weighted_return W D x = 0).
  { intros x Hx. apply weighted_return_before_first; [exact HsW|].
    intros d' Hd'. specialize (Hle d' Hd').
    apply In_nth_error in Hx. destruct Hx as [j Hj].
    assert (Hji : (j < S i)%nat).
    { pose proof (@nth_error_Some_lt _ _ _ _ Hj) as H.
      rewrite length_firstn in H. lia. }
    rewrite (@nth_error_prefix _ (index D) (S i) j Hji) in Hj.
    assert (x <= d)%Z; [|lia].
    apply (@sorted_nth_le (index D) j i x d HsD); [lia | assumption | assumption]. }
  rewrite (@Qcsum_zeros _ (weighted_return W D) _ Hz) in Hc, Hl.
  rewrite Hr, Hc, Hl. repeat split.
  f_equal. apply Hz.
  apply (@nth_error_In_firstn _ (index D) (S i) i d Hi). lia.
Qed.

End FlatStart.

Lemma py_min_same (p : Qc) : py_min p p = p.
Proof. unfold py_min. now destruct (Qcltb p p). Qed.

Lemma py_max_same (p : Qc) : py_max p p = p.
Proof. unfold py_max. now destruct (Qcltb p p). Qed.

Lemma selected_tickers_same (p : Qc) (l : nat) (sorted_row : Series) :
  selected_tickers p p l sorted_row = [].
Proof. apply py_slice_same. Qed.

(** ** The full band *)

Section FullBand.
Context {sorter : ArgSort}.

Lemma momentum_row_of_period (data W : DataFrame) (top bottom : Qc) (T : date)
  (row : Series) :
  StronglySorted Z.lt (index data) ->
  compute_weight_momentum_12_minus_1 data top bottom = Ok W ->
  In (T, row) (iterrows (momentum_signal data)) -> In T (index W) ->
  List.length (dropna (sort_values_desc row)) <> 0%nat
  /\ forall t,
       lookup W T t
       = dict_get (band_weights (py_min top bottom) (py_max top bottom)
                     (List.length (dropna (sort_values_desc row)))
                     (sort_values_desc row)) t.
Proof.
  intros Hs HW Hin HT.
  assert (Hs' : StronglySorted Z.lt (map fst (iterrows (momentum_signal data))))
    by now rewrite iterrows_index, momentum_signal_index.
  pose proof (@momentum_records_at sorter (py_min top bottom)
                (py_max top bottom) _ T row (sorted_lt_NoDup Hs') Hin) as Hat.
  assert (Hrec : momentum_record (py_min top bottom) (py_max top bottom) row
                 <> None).
  { intros E. rewrite E in Hat. apply Hat.
    unfold compute_weight_momentum_12_minus_1 in HW.
    now rewrite <- (@DataFrame_of_records_index _ W HW). }
  assert (Hget : forall t,
             lookup W T t
             = match momentum_record (py_min top bottom) (py_max top bottom)
                       row with
               | Some d => dict_get d t
               | None => None
               end).
  { intros t.
    exact (@momentum_weight_cell sorter data W top bottom T row t Hs HW Hin). }
  unfold momentum_record in Hrec, Hget.
  destruct (forallb isna (map snd row)); [congruence|].
  cbv zeta in Hrec, Hget.
  destruct (Nat.eqb_spec (List.length (dropna (sort_values_desc row))) 0)
    as [E|E]; [congruence|].
  split; [exact E | exact Hget].
Qed.

(** With the band from 0 to 100 over the valued tickers, the slice is the
    valued part of the ranking. *)
Lemma full_slice_is_valued (row : Series) :
  selected_tickers 0 (Qc_of_Z 100)
    (List.length (dropna (sort_values_desc row))) (sort_values_desc row)
  = map fst (dropna (sort_values_desc row)).
Proof.
  unfold selected_tickers.
  rewrite slice_index_0, slice_index_full, py_slice_from_0.
  rewrite py_slice_bound_of_nat
    by (rewrite length_map; apply dropna_length_le).
  destruct (sort_values_desc_parts row) as [N [Hparts _]].
  rewrite Hparts at 2. rewrite map_app, firstn_app, length_map, Nat.sub_diag.
  cbn [firstn]. rewrite app_nil_r.
  rewrite <- (length_map fst (dropna (sort_values_desc row))).
  apply firstn_all.
Qed.

Lemma full_slice_is_everything (row : Series) :
  selected_tickers 0 (Qc_of_Z 100) (List.length (sort_values_desc row))
    (sort_values_desc row)
  = map fst (sort_values_desc row).
Proof.
  unfold selected_tickers.
  rewrite slice_index_0, slice_index_full, py_slice_from_0.
  rewrite py_slice_bound_of_nat by now rewrite length_map.
  rewrite <- (length_map fst (sort_values_desc row)).
  apply firstn_all.
Qed.

Lemma ticker_weight_full (l : nat) :
  l <> 0%nat -> ticker_weight 0 (Qc_of_Z 100) l = 1 / Qc_of_nat l.
Proof.
  intros H. unfold ticker_weight.
  rewrite slice_index_0, slice_index_full.
  unfold Qc_of_nat. do 2 f_equal. lia.
Qed.

End FullBand.

Lemma Qc_100_nonneg : 0 <= Qc_of_Z 100.
Proof. apply Qc_of_Z_nonneg. lia. Qed.

(** ** Bands in the usual orientation *)

Lemma py_min_ordered (top bottom : Qc) :
  bottom <= top -> py_min top bottom = bottom.
Proof.
  intros H. unfold py_min, Qcltb.
  destruct (bottom ?= top) eqn:E; try reflexivity.
  - apply Qceq_alt in E. now subst.
  - apply Qcle_alt in H. exfalso. apply H. exact E.
Qed.

Lemma py_max_ordered (top bottom : Qc) :
  bottom <= top -> py_max top bottom = top.
Proof.
  intros H. unfold py_max, Qcltb.
  destruct (top ?= bottom) eqn:E; try reflexivity.
  apply Qclt_alt in E. now apply Qcle_not_lt in H.
Qed.

Lemma firstn_add_split (A : Type) (x y : nat) (l : list A) :
  firstn (x + y) l = firstn x l ++ firstn y (skipn x l).
Proof.
  revert l. induction x as [|x IH]; intros l; [reflexivity|].
  destruct l as [|a l]; simpl.
  - now rewrite firstn_nil.
  - now rewrite IH.
Qed.

Lemma skipn_add (A : Type) (x y : nat) (l : list A) :
  skipn (x + y) l = skipn y (skipn x l).
Proof.
  revert l. induction x as [|x IH]; intros l; [reflexivity|].
  destruct l as [|a l]; simpl; [now rewrite skipn_nil | apply IH].
Qed.

Lemma stretch_join (A : Type) (sa sb sc : nat) (l : list A) :
  (sa <= sb)%nat -> (sb <= sc)%nat ->
  firstn (sc - sa) (skipn sa l)
  = firstn (sb - sa) (skipn sa l) ++ firstn (sc - sb) (skipn sb l).
Proof.
  intros H1 H2.
  replace (sc - sa)%nat with ((sb - sa) + (sc - sb))%nat by lia.
  rewrite firstn_add_split. f_equal. f_equal.
  rewrite <- skipn_add. f_equal. lia.
Qed.

Lemma NoDup_app_disjoint (A : Type) (l1 l2 : list A) (x : A) :
  NoDup (l1 ++ l2) -> In x l1 -> ~ In x l2.
Proof.
  induction l1 as [|y l1 IH]; intros Hnd Hin; [destruct Hin|].
  simpl in Hnd. inversion Hnd as [|? ? Hy Hnd']; subst.
  destruct Hin as [->|Hin].
  - intros H. apply Hy. apply in_or_app. now right.
  - now apply IH.
Qed.

Lemma NoDup_skipn (A : Type) (n : nat) (l : list A) :
  NoDup l -> NoDup (skipn n l).
Proof.
  intros H. rewrite <- (firstn_skipn n l) in H.
  now apply NoDup_app_remove_l in H.
Qed.

(** For percentiles [0 <= a <= b <= c <= 100] the band from [a] to [c] is
    the band from [a] to [b] followed by the band from [b] to [c]. *)
Lemma adjacent_slices (a b c : Qc) (l : nat) (sorted_row : Series) :
  (l <= List.length sorted_row)%nat ->
  0 <= a -> a <= b -> b <= c -> c <= Qc_of_Z 100 ->
  selected_tickers a c l sorted_row
  = selected_tickers a b l sorted_row ++ selected_tickers b c l sorted_row.
Proof.
  intros Hl H0 Hab Hbc H100.
  assert (Hb0 : 0 <= b) by (eapply Qcle_trans; eauto).
  assert (Hb100 : b <= Qc_of_Z 100) by (eapply Qcle_trans; eauto).
  destruct (@slice_indices a b l H0 Hab Hb100) as [[Ha0 Hsab] Hsb].
  destruct (@slice_indices b c l Hb0 Hbc H100) as [[_ Hsbc] Hsc].
  fold (slice_index a l) in Ha0, Hsab.
  fold (slice_index b l) in Hsab, Hsb, Hsbc.
  fold (slice_index c l) in Hsbc, Hsc.
  unfold selected_tickers.
  rewrite !py_slice_within by (rewrite ?length_map; lia).
  apply stretch_join; lia.
Qed.

Lemma adjacent_slices_disjoint (a b c : Qc) (l : nat) (sorted_row : Series)
  (t : ticker) :
  NoDup (map fst sorted_row) ->
  (l <= List.length sorted_row)%nat ->
  0 <= a -> a <= b -> b <= c -> c <= Qc_of_Z 100 ->
  In t (selected_tickers a b l sorted_row) ->
  ~ In t (selected_tickers b c l sorted_row).
Proof.
  intros Hnd Hl H0 Hab Hbc H100 Hin Hin'.
  assert (Hall : NoDup (selected_tickers a c l sorted_row)).
  { unfold selected_tickers, py_slice. now apply NoDup_firstn, NoDup_skipn. }
  rewrite (@adjacent_slices a b c l sorted_row Hl H0 Hab Hbc H100) in Hall.
  exact (@NoDup_app_disjoint _ _ _ t Hall Hin Hin').
Qed.

Lemma selected_tickers_incl (pmin pmax : Qc) (l : nat) (sorted_row : Series) :
  incl (selected_tickers pmin pmax l sorted_row) (map fst sorted_row).
Proof.
  intros t H. unfold selected_tickers, py_slice in H.
  apply incl_firstn in H. revert H.
  generalize (py_slice_bound (List.length (map fst sorted_row))
                (slice_index pmin l)).
  intros n H. rewrite <- (firstn_skipn n (map fst sorted_row)).
  apply in_or_app. now right.
Qed.

(** ** Which periods get a weight row *)

Section EmittedPeriods.
Context {sorter : ArgSort}.





End EmittedPeriods.

(** ** How a run ends *)

Section RunOutcome.
Context {sorter : ArgSort}.
Variable np_exp : Qc -> Qc.
Variable py_format : Qc -> string.





End RunOutcome.

(** ** The store after any run *)

Lemma fold_set_other (V : Type) (kvs : list (string * V)) (d : dict V)
  (k : string) :
  (forall kv, In kv kvs -> fst kv <> k) ->
  dict_get (fold_left (fun d kv => dict_set d (fst kv) (snd kv)) kvs d) k
  = dict_get d k.
Proof.
  revert d. induction kvs as [|kv kvs IH]; intros d H; [reflexivity|].
  simpl. rewrite IH by (intros kv' Hkv'; apply H; now right).
  rewrite dict_get_set.
  destruct (String.eqb_spec k (fst kv)) as [E|_]; [|reflexivity].
  exfalso. apply (H kv (or_introl eq_refl)). now symmetry.
Qed.

(** The last value written under a key is the one read back. *)
Lemma fold_set_last (V : Type) (kvs : list (string * V)) (d : dict V)
  (i : nat) (k : string) (v : V) :
  nth_error kvs i = Some (k, v) ->
  (forall j kv, (i < j)%nat -> nth_error kvs j = Some kv -> fst kv <> k) ->
  dict_get (fold_left (fun d kv => dict_set d (fst kv) (snd kv)) kvs d) k
  = Some v.
Proof.
  revert d i. induction kvs as [|kv kvs IH]; intros d i Hi Hlast.
  - destruct i; discriminate.
  - simpl. destruct i as [|i]; simpl in Hi.
    + injection Hi as ->. rewrite fold_set_other.
      * cbn [fst snd]. rewrite dict_get_set. now rewrite String.eqb_refl.
      * intros kv' Hkv'. apply In_nth_error in Hkv'.
        destruct Hkv' as [j Hj]. apply (Hlast (S j)); [lia | exact Hj].
    + apply (IH _ i Hi). intros j kv' Hj Hkv'.
      apply (Hlast (S j)); [lia | exact Hkv'].
Qed.

(** ** Mean and variance of the returns *)

Section ReturnsColumn.
Variable np_exp : Qc -> Qc.

Lemma performance_returns_column (W D : DataFrame) (start : Qc) :
  getitem (compute_index_level_and_returns np_exp W D start)
    "portfolio_log_return"
  = Ok (map (fun dr => Some (snd dr)) (row_sums (df_mul (shift1 W) D))).
Proof.
  unfold getitem, get_column.
  rewrite compute_index_level_and_returns_columns.
  rewrite compute_index_level_and_returns_rows.
  cbn [existsb String.eqb Ascii.eqb Bool.eqb orb andb].
  f_equal.
  change (fun r : date * list cell =>
            (fst r,
             cell_of ["portfolio_log_return"; "cumulative_log_return";
                      "index_level"]%string (snd r) "portfolio_log_return"))
    with (fun r : date * list cell => (fst r, nth 0 (snd r) None)).
  rewrite compounded_returns, map_map. reflexivity.
Qed.

Lemma performance_length (W D : DataFrame) (start : Qc) :
  List.length (rows (compute_index_level_and_returns np_exp W D start))
  = List.length (row_sums (df_mul (shift1 W) D)).
Proof.
  now rewrite compute_index_level_and_returns_rows, compounded_length.
Qed.

End ReturnsColumn.

Lemma Qc_of_nat_S_neq_0 (n : nat) : Qc_of_nat (S n) <> 0.
Proof. apply Qc_of_Z_neq_0. lia. Qed.

Lemma Qc_of_nat_S_pos (n : nat) : 0 < Qc_of_nat (S n).
Proof. apply Qc_of_Z_pos. lia. Qed.

Lemma Qcsquare_nonneg (x : Qc) : 0 <= x * x.
Proof.
  destruct (Qclt_le_dec x 0) as [Hneg|Hpos].
  - replace (x * x) with ((- x) * (- x)) by ring.
    assert (H : 0 <= - x).
    { apply Qclt_le_weak in Hneg. apply Qcopp_le_compat in Hneg.
      now replace (- 0) with 0 in Hneg by ring. }
    now apply Qcmult_nonneg.
  - now apply Qcmult_nonneg.
Qed.

Lemma Qcsum_nonneg (qs : list Qc) :
  (forall x, In x qs -> 0 <= x) -> 0 <= Qcsum qs.
Proof.
  induction qs as [|x qs IH]; intros H; [apply Qcle_refl|].
  simpl. replace 0 with (0 + 0) by ring.
  apply Qcplus_le_compat; [apply H; now left|].
  apply IH. intros y Hy. apply H. now right.
Qed.

(** The variance is a sum of squares over a positive count. *)
Lemma series_var_nonneg (cs : list cell) (v : Qc) :
  series_var cs = Some v -> 0 <= v.
Proof.
  unfold series_var.
  destruct (List.length (nonnan cs) <=? 1)%nat eqn:E; [discriminate|].
  intros H. injection H as <-.
  apply Nat.leb_gt in E.
  unfold Qcdiv. apply Qcmult_nonneg.
  - apply Qcsum_nonneg. intros x Hx. apply in_map_iff in Hx.
    destruct Hx as (y & <- & _). apply Qcsquare_nonneg.
  - apply Qclt_le_weak, Qcinv_pos, Qc_of_Z_pos. lia.
Qed.

Lemma series_var_None (cs : list cell) :
  series_var cs = None <-> (List.length (nonnan cs) <= 1)%nat.
Proof.
  unfold series_var.
  destruct (Nat.leb_spec (List.length (nonnan cs)) 1); split; intros;
    try reflexivity; try assumption; try discriminate; lia.
Qed.

Lemma series_mean_Some (cs : list cell) :
  nonnan cs <> [] ->
  series_mean cs
  = Some (Qcsum (nonnan cs) / Qc_of_nat (List.length (nonnan cs))).
Proof.
  intros H. unfold series_mean. now destruct (nonnan cs).
Qed.

(** ** The reports *)

Lemma dict_set_keys (V : Type) (d : dict V) (k : string) (v : V) :
  dict_keys (dict_set d k v) = add_key (dict_keys d) k.
Proof.
  unfold add_key. induction d as [|[k' v'] d IH]; [reflexivity|].
  cbn [dict_set dict_keys map fst existsb].
  destruct (String.eqb k k'); cbn [orb]; [reflexivity|].
  cbn [map fst]. change (map fst (dict_set d k v)) with (dict_keys (dict_set d k v)).
  rewrite IH. change (map fst d) with (dict_keys d).
  now destruct (existsb (String.eqb k) (dict_keys d)).
Qed.

Lemma fold_set_keys_NoDup (V : Type) (kvs : list (string * V)) (d : dict V) :
  NoDup (dict_keys d) ->
  NoDup (dict_keys (fold_left (fun d kv => dict_set d (fst kv) (snd kv))
                      kvs d)).
Proof.
  revert d. induction kvs as [|kv kvs IH]; intros d H; [exact H|].
  simpl. apply IH. rewrite dict_set_keys. now apply add_key_NoDup.
Qed.

Lemma dict_set_entries (V : Type) (d : dict V) (k k' : string) (v v' : V) :
  In (k', v') (dict_set d k v) -> (k', v') = (k, v) \/ In (k', v') d.
Proof.
  induction d as [|[k0 v0] d IH]; simpl.
  - intros [E|[]]. left. now symmetry.
  - destruct (String.eqb_spec k k0) as [->|_]; simpl.
    + intros [E|H]; [left; now symmetry | right; now right].
    + intros [E|H]; [right; now left|].
      destruct (IH H) as [E|H']; [now left | right; now right].
Qed.

Lemma fold_set_entries (V : Type) (kvs : list (string * V)) (d : dict V)
  (k : string) (v : V) :
  In (k, v) (fold_left (fun d kv => dict_set d (fst kv) (snd kv)) kvs d) ->
  In (k, v) kvs \/ In (k, v) d.
Proof.
  revert d. induction kvs as [|[k0 v0] kvs IH]; intros d H; [now right|].
  simpl in H. destruct (IH _ H) as [Hin|Hin]; [left; now right|].
  apply dict_set_entries in Hin. destruct Hin as [E|Hin].
  - left. left. now symmetry.
  - now right.
Qed.

Lemma fold_set_fresh (V : Type) (kvs d0 : dict V) :
  NoDup (dict_keys d0 ++ dict_keys kvs) ->
  fold_left (fun d kv => dict_set d (fst kv) (snd kv)) kvs d0 = d0 ++ kvs.
Proof.
  revert d0. induction kvs as [|[k v] kvs IH]; intros d0 H.
  - simpl. now rewrite app_nil_r.
  - simpl. rewrite <- (app_nil_r d0) at 1. rewrite dict_set_app.
    + simpl. rewrite IH.
      * now rewrite <- app_assoc.
      * unfold dict_keys in *. rewrite map_app. simpl.
        now rewrite <- app_assoc.
    + apply NoDup_remove_2 in H. intros Hin. apply H.
      apply in_or_app. now left.
Qed.

Lemma fold_set_map (V U : Type) (g : string * U -> V)
  (items : list (string * U)) (acc : dict V) :
  fold_left (fun d kl => dict_set d (fst kl) (g kl)) items acc
  = fold_left (fun d kv => dict_set d (fst kv) (snd kv))
      (map (fun kl => (fst kl, g kl)) items) acc.
Proof.
  revert acc. induction items as [|kl items IH]; intros acc; [reflexivity|].
  simpl. apply IH.
Qed.

Lemma dict_get_map (V U : Type) (h : U -> V) (items : dict U) (k : string) :
  dict_get (map (fun kl => (fst kl, h (snd kl))) items) k
  = option_map h (dict_get items k).
Proof.
  induction items as [|[k0 l0] items IH]; [reflexivity|].
  simpl. now destruct (String.eqb k k0).
Qed.

Lemma stats_loop_spec (f : list cell -> cell) (items : dict loc)
  (acc : dict cell) (w : world) :
  (forall kl, In kl items ->
              existsb (String.eqb "portfolio_log_return")
                (columns (nth (snd kl) (heap w) empty_frame)) = true) ->
  stats_loop f items acc w
  = (Ok (fold_left (fun d kl => dict_set d (fst kl)
                                   (f (returns_at (heap w) (snd kl))))
           items acc), w).
Proof.
  revert acc. induction items as [|[name l] items IH]; intros acc H;
    [reflexivity|].
  cbn [stats_loop]. unfold bind, read_object. unfold getitem.
  pose proof (H (name, l) (or_introl eq_refl)) as H0. cbn [snd] in H0.
  rewrite H0. cbn [fold_left fst snd]. apply IH.
  intros kl Hkl. apply H. now right.
Qed.

(** With a store whose tables all have the returns column, a report over a
    store that is not empty is the store with each table replaced by the
    statistic of its returns. *)
Lemma stats_of_store (f : list cell -> cell) (store : dict loc) (w : world) :
  NoDup (dict_keys store) ->
  (forall kl, In kl store ->
              existsb (String.eqb "portfolio_log_return")
                (columns (nth (snd kl) (heap w) empty_frame)) = true) ->
  stats_loop f store [] w
  = (Ok (map (fun kl => (fst kl, f (returns_at (heap w) (snd kl)))) store), w).
Proof.
  intros Hnd H. rewrite (stats_loop_spec f store [] w H).
  rewrite fold_set_map, fold_set_fresh; [reflexivity|].
  cbn [dict_keys map app]. unfold dict_keys. rewrite map_map. exact Hnd.
Qed.

Lemma dict_set_nonempty (V : Type) (d : dict V) (k : string) (v : V) :
  dict_set d k v <> [].
Proof.
  destruct d as [|[k0 v0] d]; simpl; [discriminate|].
  destruct (String.eqb k k0); discriminate.
Qed.

Lemma fold_set_nonempty (V : Type) (kvs : list (string * V)) (d : dict V) :
  d <> [] \/ kvs <> [] ->
  fold_left (fun d kv => dict_set d (fst kv) (snd kv)) kvs d <> [].
Proof.
  revert d. induction kvs as [|kv kvs IH]; intros d H.
  - simpl. destruct H as [H|H]; [exact H | congruence].
  - simpl. apply IH. left. apply dict_set_nonempty.
Qed.

Section StoreAfterRun.
Context {sorter : ArgSort}.
Variable np_exp : Qc -> Qc.
Variable py_format : Qc -> string.

(** What a completed run leaves in the store: distinct labels, an entry when
    a band was asked for, and behind every entry a performance table. *)
Lemma store_after_run (percentiles : list (Qc * Qc)) (w w' : world) :
  construct_performances_for_percentiles np_exp py_format percentiles w
  = (Ok tt, w') ->
  NoDup (dict_keys (percentile_results (self w')))
  /\ (percentiles = [] -> percentile_results (self w') = [])
  /\ (percentiles <> [] -> percentile_results (self w') <> [])
  /\ forall kl, In kl (percentile_results (self w')) ->
       exists W D,
         nth (snd kl) (heap w') empty_frame
         = compute_index_level_and_returns np_exp W D (Qc_of_Z 100).
Proof.
  intros Hrun. unfold construct_performances_for_percentiles in Hrun.
  rewrite (@bind_ok _ _ get_self _ w w (self w) eq_refl) in Hrun.
  destruct (data (self w)) as [D|] eqn:HD; [|discriminate].
  unfold bind at 1, set_percentile_results at 1 in Hrun.
  match type of Hrun with
  | scenario_loop _ _ _ ?w1 = _ =>
      pose proof (@scenario_loop_spec sorter np_exp py_format D percentiles
                    w1 w' HD Hrun) as Hspec
  end.
  cbv zeta in Hspec. cbn [heap self percentile_results performance] in Hspec.
  destruct Hspec as (_ & _ & _ & Hstore & Hcont & _).
  rewrite Hstore. split; [|split; [|split]].
  - apply fold_set_keys_NoDup. constructor.
  - intros ->. reflexivity.
  - intros Hne. apply fold_set_nonempty. right.
    destruct percentiles; [congruence | discriminate].
  - intros [k l] Hkl. apply fold_set_entries in Hkl.
    destruct Hkl as [Hkl|[]].
    apply (in_map snd) in Hkl. cbn [snd] in Hkl.
    apply stored_locs in Hkl. destruct Hkl as (i & Hi & ->).
    destruct (nth_error percentiles i) as [band|] eqn:Hb;
      [|apply nth_error_None in Hb; lia].
    destruct (Hcont i band Hb) as (perf & Hp & Hn).
    unfold performance_of in Hp.
    destruct (compute_weight_momentum_12_minus_1 D (fst band) (snd band))
      as [W|e]; [|discriminate].
    injection Hp as <-. exists W, D. cbn [snd].
    now apply nth_error_nth.
Qed.

End StoreAfterRun.

(** ** The columns of a weight table *)

Lemma add_key_present (acc : list string) (k : string) :
  In k acc -> add_key acc k = acc.
Proof.
  intros H. unfold add_key. apply existsb_eqb_In in H. now rewrite H.
Qed.

Lemma add_key_fresh (acc : list string) (k : string) :
  ~ In k acc -> add_key acc k = acc ++ [k].
Proof.
  intros H. unfold add_key. apply existsb_eqb_not_In in H. now rewrite H.
Qed.

Lemma add_keys_present (ks acc : list string) :
  incl ks acc -> fold_left add_key ks acc = acc.
Proof.
  induction ks as [|k ks IH]; intros H; [reflexivity|].
  simpl. rewrite add_key_present by (apply H; now left).
  apply IH. intros x Hx. apply H. now right.
Qed.

Lemma add_keys_fresh (ks acc : list string) :
  NoDup (acc ++ ks) -> fold_left add_key ks acc = acc ++ ks.
Proof.
  revert acc. induction ks as [|k ks IH]; intros acc H.
  - simpl. now rewrite app_nil_r.
  - simpl. rewrite add_key_fresh.
    + rewrite IH by now rewrite <- app_assoc.
      now rewrite <- app_assoc.
    + apply NoDup_remove_2 in H. intros Hin. apply H.
      apply in_or_app. now left.
Qed.

Lemma fold_set_present_keys (V : Type) (v : V) (sel : list string)
  (d : dict V) :
  incl sel (dict_keys d) ->
  dict_keys (fold_left (fun d t => dict_set d t v) sel d) = dict_keys d.
Proof.
  revert d. induction sel as [|k sel IH]; intros d H; [reflexivity|].
  simpl. rewrite IH.
  - rewrite dict_set_keys. apply add_key_present. apply H. now left.
  - rewrite dict_set_keys, add_key_present by (apply H; now left).
    intros x Hx. apply H. now right.
Qed.

(** The keys of a weight record are the tickers of the sorted row, in its
    order, whatever the percentiles. *)
Lemma band_weights_keys_any (pmin pmax : Qc) (l : nat) (sorted_row : Series) :
  NoDup (map fst sorted_row) ->
  dict_keys (band_weights pmin pmax l sorted_row) = map fst sorted_row.
Proof.
  intros Hnd. rewrite band_weights_unfold.
  assert (E : dict_keys (fold_left (fun d t => dict_set d t 0)
                           (map fst sorted_row) [])
              = map fst sorted_row).
  { rewrite dict_comprehension by exact Hnd.
    cbn [app]. unfold dict_keys. rewrite map_map. cbn [fst]. apply map_id. }
  rewrite fold_set_present_keys; [exact E|].
  rewrite E. apply selected_tickers_incl.
Qed.

Lemma record_columns_first (records : list record) (r0 : record)
  (rs : list record) :
  records = r0 :: rs ->
  NoDup (dict_keys (snd r0)) ->
  (forall r, In r rs -> incl (dict_keys (snd r)) (dict_keys (snd r0))) ->
  record_columns records = dict_keys (snd r0).
Proof.
  intros -> Hnd Hincl. unfold record_columns. cbn [fold_left].
  rewrite add_keys_fresh by exact Hnd. cbn [app].
  induction rs as [|r rs IH]; [reflexivity|].
  cbn [fold_left]. rewrite add_keys_present by (apply Hincl; now left).
  apply IH. intros r' Hr'. apply Hincl. now right.
Qed.

Lemma momentum_signal_row_length (data : DataFrame) (d : date)
  (cells : list cell) :
  In (d, cells) (rows (momentum_signal data)) ->
  List.length cells = List.length (columns data).
Proof.
  intros Hin. apply In_nth_error in Hin. destruct Hin as [i Hi].
  assert (Hlen : List.length (rows (momentum_signal data))
                 = List.length (rows data)).
  { rewrite <- !(length_map fst).
    change (List.length (index (momentum_signal data))
            = List.length (index data)).
    now rewrite momentum_signal_index. }
  destruct (nth_error (rows data) i) as [[d' vs]|] eqn:Hd.
  - rewrite (@momentum_signal_nth data i d' vs Hd) in Hi.
    injection Hi as _ <-. now rewrite length_map, length_seq.
  - apply nth_error_None in Hd.
    pose proof (@nth_error_Some_lt _ _ _ _ Hi). lia.
Qed.

Lemma iterrows_full_labels (df : DataFrame) (d : date) (row : Series) :
  Forall (fun r => List.length (snd r) = List.length (columns df)) (rows df) ->
  In (d, row) (iterrows df) -> map fst row = columns df.
Proof.
  intros Hwf Hin. unfold iterrows in Hin. apply in_map_iff in Hin.
  destruct Hin as ([d' vs] & E & Hin). inversion E; subst.
  rewrite Forall_forall in Hwf. specialize (Hwf _ Hin). cbn [snd] in *.
  rewrite combine_labels, Hwf. apply firstn_all.
Qed.

(** ** The return as an average over the holdings *)

Lemma sum_skipna_support (f : ticker -> cell) (a u : list ticker) :
  NoDup a -> NoDup u -> incl a u ->
  (forall t, In t u -> ~ In t a -> f t = None \/ f t = Some 0) ->
  sum_skipna (map f u) = sum_skipna (map f a).
Proof.
  intros Ha Hu Hincl Hz.
  destruct (@NoDup_incl_split _ a u Ha Hu Hincl) as [rest [Hp Hrest]].
  rewrite (@sum_skipna_perm (map f u) (map f (a ++ rest)))
    by now apply Permutation_map.
  rewrite map_app, sum_skipna_app.
  rewrite (@sum_skipna_zeros _ f rest).
  - ring.
  - intros t Ht. apply Hz; [|now apply Hrest].
    eapply Permutation_in; [symmetry; exact Hp|].
    apply in_or_app. now right.
Qed.

Lemma sum_skipna_cons_Some (x : Qc) (cs : list cell) :
  sum_skipna (Some x :: cs) = x + sum_skipna cs.
Proof. reflexivity. Qed.

Lemma sum_skipna_cons_None (cs : list cell) :
  sum_skipna (None :: cs) = sum_skipna cs.
Proof. reflexivity. Qed.

Lemma sum_skipna_scale (w : Qc) (g : ticker -> cell) (a : list ticker) :
  sum_skipna (map (fun t => cell_binop Qcmult (Some w) (g t)) a)
  = w * sum_skipna (map g a).
Proof.
  induction a as [|t a IH]; [unfold sum_skipna; simpl; ring|].
  cbn [map].
  set (rest := map (fun t => cell_binop Qcmult (Some w) (g t)) a) in *.
  destruct (g t) as [r|]; cbn [cell_binop].
  - rewrite !sum_skipna_cons_Some, IH. ring.
  - now rewrite !sum_skipna_cons_None.
Qed.

Lemma selected_tickers_NoDup (pmin pmax : Qc) (l : nat) (sorted_row : Series) :
  NoDup (map fst sorted_row) ->
  NoDup (selected_tickers pmin pmax l sorted_row).
Proof.
  intros H. unfold selected_tickers, py_slice.
  now apply NoDup_firstn, NoDup_skipn.
Qed.

(** ** The signal, written out *)

Lemma firstn_S_snoc (A : Type) (l : list A) (i : nat) (x : A) :
  nth_error l i = Some x -> firstn (S i) l = firstn i l ++ [x].
Proof.
  revert i. induction l as [|y l IH]; intros i H.
  - destruct i; discriminate.
  - destruct i as [|i]; simpl in *.
    + now inversion H.
    + f_equal. now apply IH.
Qed.

(** The window starts with the current row. *)
Lemma trailing_head (A : Type) (n i : nat) (l : list A) (x : A) :
  nth_error l i = Some x ->
  trailing (S n) i l = x :: firstn n (rev (firstn i l)).
Proof.
  intros H. unfold trailing.
  now rewrite (firstn_S_snoc l i H), rev_app_distr.
Qed.

Lemma all_valued (cs : list cell) :
  List.length (nonnan cs) = List.length cs -> cs = map Some (nonnan cs).
Proof.
  induction cs as [|[x|] cs IH]; intros H; [reflexivity| |].
  - simpl in *. f_equal. apply IH. lia.
  - simpl in H. pose proof (nonnan_length_le cs). lia.
Qed.

Lemma nth_map_seq (A : Type) (f : nat -> A) (n j : nat) (d : A) :
  (j < n)%nat -> nth j (map f (seq 0 n)) d = f j.
Proof.
  intros H. apply nth_error_nth.
  rewrite nth_error_map, nth_error_seq.
  destruct (Nat.ltb_spec j n); [reflexivity | lia].
Qed.

Lemma trailing_length (A : Type) (w i : nat) (l : list A) :
  (List.length (trailing w i l) <= w)%nat.
Proof. unfold trailing. rewrite length_firstn. lia. Qed.

(** ** The size of a band and the place of the tickers without a value *)

Lemma slice_index_floor (p : Qc) (l : nat) :
  0 <= p -> slice_index p l = floor (p * Qc_of_nat l / Qc_of_Z 100).
Proof.
  intros H. unfold slice_index, floor. apply py_int_floor, scaled_nonneg, H.
Qed.

Lemma selected_tickers_length (pmin pmax : Qc) (l : nat) (sorted_row : Series) :
  (l <= List.length sorted_row)%nat ->
  0 <= pmin -> pmin <= pmax -> pmax <= Qc_of_Z 100 ->
  Z.of_nat (List.length (selected_tickers pmin pmax l sorted_row))
  = (slice_index pmax l - slice_index pmin l)%Z.
Proof.
  intros Hl H0 Hmm H100.
  destruct (@slice_indices pmin pmax l H0 Hmm H100) as [[Hs0 Hse] Hel].
  fold (slice_index pmin l) in Hs0, Hse. fold (slice_index pmax l) in Hse, Hel.
  unfold selected_tickers.
  rewrite py_slice_within by (rewrite ?length_map; lia).
  rewrite length_firstn, length_skipn, length_map. lia.
Qed.

Lemma firstn_le_incl (A : Type) (m n : nat) (l : list A) :
  (m <= n)%nat -> incl (firstn m l) (firstn n l).
Proof.
  intros H x Hx. apply In_nth_error in Hx. destruct Hx as [k Hk].
  assert (Hkm : (k < m)%nat).
  { pose proof (@nth_error_Some_lt _ _ _ _ Hk) as Hlt.
    rewrite length_firstn in Hlt. lia. }
  rewrite (@nth_error_prefix _ l m k Hkm) in Hk.
  apply (@nth_error_In_firstn _ l n k x Hk). lia.
Qed.

Section ValuedFirst.
Context {sorter : ArgSort}.

(** With the slice starting at the head of the ranking, a ticker without a
    value is inside only if every valued ticker is. *)
Lemma top_slice_takes_valued_first (row : Series) (pmax : Qc) (l : nat)
  (a b : ticker) (vb : Qc) :
  NoDup (map fst row) ->
  In (a, None) row -> In (b, Some vb) row ->
  In a (selected_tickers 0 pmax l (sort_values_desc row)) ->
  In b (selected_tickers 0 pmax l (sort_values_desc row)).
Proof.
  intros Hnd Ha Hb Hsa.
  unfold selected_tickers in *.
  rewrite slice_index_0, py_slice_from_0 in *.
  set (m := py_slice_bound _ _) in *.
  destruct (sort_values_desc_parts row) as [N [Hparts _]].
  set (V := dropna (sort_values_desc row)) in *.
  assert (HaV : ~ In a (map fst V)).
  { intros Hin. apply in_map_iff in Hin. destruct Hin as ([a' c] & E & Hin).
    simpl in E. subst a'. unfold V, dropna in Hin. apply filter_In in Hin.
    destruct Hin as [Hin Hc].
    assert (Hrow : In (a, c) row)
      by (eapply Permutation_in; [apply sort_values_desc_perm | exact Hin]).
    rewrite (@NoDup_keys_functional _ _ row a c None Hnd Hrow Ha) in Hc.
    discriminate. }
  assert (HbV : In b (map fst V)).
  { change b with (fst (b, Some vb)). apply in_map.
    now apply valued_in_dropna. }
  assert (Htickers : map fst (sort_values_desc row) = map fst V ++ map fst N)
    by now rewrite Hparts at 1; rewrite map_app.
  assert (Hm : (List.length (map fst V) <= m)%nat).
  { destruct (Nat.le_gt_cases (List.length (map fst V)) m) as [H|H];
      [exact H|].
    exfalso. apply HaV. rewrite Htickers in Hsa.
    rewrite firstn_app in Hsa.
    replace (m - List.length (map fst V))%nat with 0%nat in Hsa by lia.
    cbn [firstn] in Hsa. rewrite app_nil_r in Hsa.
    now apply incl_firstn in Hsa. }
  apply (@firstn_le_incl _ (List.length (map fst V)) m _ Hm).
  rewrite Htickers, firstn_app, Nat.sub_diag, firstn_all.
  cbn [firstn]. now rewrite app_nil_r.
Qed.

End ValuedFirst.

(** ** What a run leaves in the engine's own fields *)

Section LastBand.
Context {sorter : ArgSort}.
Variable np_exp : Qc -> Qc.
Variable py_format : Qc -> string.

Lemma scenario_loop_last (D : DataFrame) (band : Qc * Qc)
  (front : list (Qc * Qc)) :
  forall w w',
    data (self w) = Some D ->
    scenario_loop np_exp py_format (front ++ [band]) w = (Ok tt, w') ->
    exists W l,
      compute_weight_momentum_12_minus_1 D (fst band) (snd band) = Ok W
      /\ weights (self w') = Some W
      /\ performance (self w') = Some l
      /\ nth_error (heap w') l
         = Some (compute_index_level_and_returns np_exp W D (Qc_of_Z 100)).
Proof.
  induction front as [|b front IH]; intros w w' HD Hrun.
  - cbn [app] in Hrun.
    pose proof (@scenario_iteration sorter np_exp py_format D band [] w HD)
      as Hit.
    destruct (compute_weight_momentum_12_minus_1 D (fst band) (snd band))
      as [W|e] eqn:E.
    + cbv zeta in Hit. rewrite Hit in Hrun. cbn [scenario_loop] in Hrun.
      unfold ret in Hrun. injection Hrun as <-.
      exists W, (List.length (heap w)). cbn [self heap weights performance].
      repeat split.
      rewrite nth_error_app2 by lia. now rewrite Nat.sub_diag.
    + destruct Hit as [w1 Hw1]. rewrite Hw1 in Hrun. discriminate.
  - cbn [app] in Hrun.
    pose proof (@scenario_iteration sorter np_exp py_format D b
                  (front ++ [band]) w HD) as Hit.
    destruct (compute_weight_momentum_12_minus_1 D (fst b) (snd b))
      as [Wb|e].
    + cbv zeta in Hit. rewrite Hit in Hrun.
      match type of Hrun with
      | scenario_loop _ _ _ ?w1 = _ => exact (IH w1 w' eq_refl Hrun)
      end.
    + destruct Hit as [w1 Hw1]. rewrite Hw1 in Hrun. discriminate.
Qed.

End LastBand.

(** ** Facts about the worked examples *)

Lemma panel4_sorted : StronglySorted Z.lt (index panel4).
Proof. repeat constructor. Qed.

Lemma panel4_columns : NoDup (columns panel4).
Proof.
  repeat constructor; simpl; intuition discriminate.
Qed.

Lemma panel13_columns : NoDup (columns panel13).
Proof. repeat constructor; simpl; intuition discriminate. Qed.

(** The compounder keeps every period of the panel: a period without a
    lagged weight row sums to 0.0 and [dropna] finds nothing to drop. *)
Lemma no_period_is_dropped (np_exp : Qc -> Qc) (W D : DataFrame) (start : Qc) :
  StronglySorted Z.lt (index D) -> incl (index W) (index D) ->
  index (compute_index_level_and_returns np_exp W D start) = index D.
Proof.
  intros Hs Hi. rewrite compute_index_level_and_returns_index.
  now apply union_index_cover.
Qed.

(** * The claims *)



(** The spec's scenario: period 2 earns 0.5 * 0.02 + 0.5 * (-0.01). *)
Example performance4_period2 :
  lookup performance4 2%Z "portfolio_log_return" = pct 5 1000.
Proof. vm_compute. f_equal. now apply Qc_is_canon. Qed.

(** C2.  On the four-ticker panel the performance table still has a row for
    period 1, the first panel period: its lagged weights are all NaN, the
    row sum is 0.0, and so the period is emitted with return 0 and index
    level [100 * exp 0] instead of being dropped. *)
Theorem first_period_is_emitted :
  index panel4 = [1; 2; 3]%Z /\
  index performance4 = [1; 2; 3]%Z /\
  lookup (shift1 weights4) 1%Z "A" = None /\
  lookup performance4 1%Z "portfolio_log_return" = Some 0 /\
  lookup performance4 1%Z "cumulative_log_return" = Some 0 /\
  lookup performance4 1%Z "index_level" = Some (Qc_of_Z 100 * exp_order1 0).
Proof.
  repeat split; try reflexivity; vm_compute; f_equal; now apply Qc_is_canon.
Qed.

(** C4, as the claim states it, fails: in period 12 of [panel13] ticker B has
    no signal, yet the weight row of that period holds an explicit 0 for B
    instead of leaving B out. *)
Lemma no_value_ticker_is_written_as_zero :
  compute_weight_momentum_12_minus_1 (sorter := insertion_sorter) panel13
    (Qc_of_Z 100) (Qc_of_Z 0) = Ok momentum_weights13
  /\ lookup (momentum_signal panel13) 12%Z "B" = None
  /\ lookup momentum_weights13 12%Z "A" = Some 1
  /\ lookup momentum_weights13 12%Z "B" = Some 0
  /\ lookup momentum_weights13 12%Z "B" <> None.
Proof.
  repeat split; try reflexivity. vm_compute. discriminate.
Qed.

(** C4, amended.  With distinct tickers and percentiles within [0, 100]:
    every row that [compute_weight_momentum_12_minus_1] emits is computed
    with [l] the number of tickers that have a signal in that period, and
    holds the weight 0 for each ticker without a signal; and every row that
    [compute_weights_last_month_direction] emits holds a value, not NaN, for
    each ticker without a signal.  In both tables such a ticker is present
    in the row, not absent. *)
Theorem no_value_tickers_in_weight_rows (sorter : ArgSort) (data : DataFrame)
  (top bottom : Qc) :
  NoDup (columns data) ->
  0 <= top -> top <= Qc_of_Z 100 -> 0 <= bottom -> bottom <= Qc_of_Z 100 ->
  (forall W d ws,
     compute_weight_momentum_12_minus_1 data top bottom = Ok W ->
     In (d, ws) (rows W) ->
     exists row_signal,
       In (d, row_signal) (iterrows (momentum_signal data)) /\
       ws = map (dict_get
                   (band_weights (py_min top bottom) (py_max top bottom)
                      (List.length (dropna row_signal))
                      (sort_values_desc row_signal)))
              (columns W) /\
       forall t, In (t, None) row_signal ->
                 cell_of (columns W) ws t = Some 0)
  /\ (forall W d ws,
        compute_weights_last_month_direction data top bottom = Ok W ->
        In (d, ws) (rows W) ->
        exists row,
          In (d, row) (iterrows data) /\
          forall t, In (t, None) row -> cell_of (columns W) ws t <> None).
Proof.
  intros Hc Ht0 Ht1 Hb0 Hb1.
  destruct (@band_bounds top bottom Ht0 Ht1 Hb0 Hb1) as (H0 & Hmm & H100).
  split; intros W d ws HW Hin.
  - destruct (@rows_of_records _ _ _ _ HW Hin) as (HcW & r & Hr & -> & ->).
    pose proof (record_columns_cover _ _ Hr) as Hcover. rewrite <- HcW in Hcover.
    destruct (momentum_records_In _ _ _ _ Hr) as (row & Hrow & _ & _ & E).
    assert (Hc' : NoDup (columns (momentum_signal data))) by exact Hc.
    destruct (@iterrows_labels (momentum_signal data) _ _ Hc' Hrow)
      as [Hnd _].
    assert (Hnd' : NoDup (map fst (sort_values_desc row)))
      by (eapply Permutation_NoDup; [symmetry; apply sorted_labels|exact Hnd]).
    pose proof (dropna_length_le (sort_values_desc row)) as Hl.
    exists row. split; [exact Hrow|]. split.
    + rewrite E. now rewrite dropna_sorted_length.
    + intros t Ht.
      assert (Hk := @band_weights_keys _ _ _ _ Hnd' Hl H0 Hmm H100).
      rewrite <- E in Hk.
      destruct (slice_indices (List.length (dropna (sort_values_desc row)))
                  H0 Hmm H100) as [[Hs Hse] He].
      assert (Htail : In t (skipn (List.length (dropna (sort_values_desc row)))
                              (map fst (sort_values_desc row)))).
      { rewrite skipn_map. apply (in_map fst) in Ht as Ht'.
        apply sorted_tail in Ht. now apply (in_map fst) in Ht. }
      rewrite cell_of_map.
      * rewrite E, band_weights_eq by assumption. cbv zeta.
        apply band_dict_tail; [exact Hnd' | lia |].
        eapply incl_skipn; [|exact Htail]. lia.
      * apply Hcover. rewrite Hk.
        rewrite <- (firstn_skipn
                      (List.length (dropna (sort_values_desc row)))
                      (map fst (sort_values_desc row))).
        apply in_or_app. now right.
  - destruct (@rows_of_records _ _ _ _ HW Hin) as (HcW & r & Hr & -> & ->).
    pose proof (record_columns_cover _ _ Hr) as Hcover. rewrite <- HcW in Hcover.
    destruct (last_month_records_In _ _ _ _ Hr) as (row & Hrow & E).
    destruct (@iterrows_labels data _ _ Hc Hrow) as [Hnd _].
    assert (Hnd' : NoDup (map fst (sort_values_desc row)))
      by (eapply Permutation_NoDup; [symmetry; apply sorted_labels|exact Hnd]).
    exists row. split; [exact Hrow|]. intros t Ht.
    assert (Hk := @band_weights_keys _ _ _ _ Hnd' (le_n _) H0 Hmm H100).
    rewrite <- E in Hk.
    assert (Hin' : In t (dict_keys (snd r))).
    { rewrite Hk. eapply Permutation_in; [symmetry; apply sorted_labels|].
      now apply (in_map fst) in Ht. }
    rewrite cell_of_map by now apply Hcover.
    now apply dict_get_present.
Qed.

Lemma no_value_tickers_in_weight_rows_witness :
  exists row_signal,
    In (12%Z, row_signal) (iterrows (momentum_signal panel13)) /\
    nth 0 (map snd (rows momentum_weights13)) []
    = map (dict_get
             (band_weights (py_min (Qc_of_Z 100) (Qc_of_Z 0))
                (py_max (Qc_of_Z 100) (Qc_of_Z 0))
                (List.length (dropna row_signal))
                (sort_values_desc (sorter := insertion_sorter) row_signal)))
        (columns momentum_weights13) /\
    forall t, In (t, None) row_signal ->
              cell_of (columns momentum_weights13)
                (nth 0 (map snd (rows momentum_weights13)) []) t = Some 0.
Proof.
  apply (proj1 (@no_value_tickers_in_weight_rows insertion_sorter panel13
                  (Qc_of_Z 100) (Qc_of_Z 0) panel13_columns
                  ltac:(unfold Qcle, Qle; simpl; lia)
                  ltac:(unfold Qcle, Qle; simpl; lia)
                  ltac:(unfold Qcle, Qle; simpl; lia)
                  ltac:(unfold Qcle, Qle; simpl; lia))
          momentum_weights13 12%Z).
  - reflexivity.
  - left. reflexivity.
Defined.

(** C5.  On [panel13] the first eleven periods have no signal for any
    ticker and the weight table starts at period 12; the performance table
    nevertheless has a row for every one of the thirteen periods, the first
    twelve with return 0 and index level 100. *)
Theorem short_history_periods_are_emitted :
  forallb (fun r => forallb isna (snd r))
    (firstn 11 (rows (momentum_signal panel13))) = true
  /\ index momentum_weights13 = [12; 13]%Z
  /\ index performance13 = [1; 2; 3; 4; 5; 6; 7; 8; 9; 10; 11; 12; 13]%Z
  /\ map snd (firstn 12 (get_column performance13 "portfolio_log_return"))
     = repeat (Some 0) 12
  /\ map snd (firstn 12 (get_column performance13 "index_level"))
     = repeat (Some (Qc_of_Z 100 * exp_order1 0)) 12.
Proof.
  repeat split; reflexivity.
Qed.

(** C6.  Swapping the two percentiles of the band changes nothing: each
    allocator returns the same result, weight table or error, for [(a, b)]
    and for [(b, a)]. *)
Theorem band_orientation_is_irrelevant (sorter : ArgSort) (data : DataFrame)
  (a b : Qc) :
  compute_weights_last_month_direction data a b
  = compute_weights_last_month_direction data b a
  /\ compute_weight_momentum_12_minus_1 data a b
     = compute_weight_momentum_12_minus_1 data b a.
Proof.
  unfold compute_weights_last_month_direction,
    compute_weight_momentum_12_minus_1.
  now rewrite (py_min_comm a b), (py_max_comm a b).
Qed.



(** C8.  In the table produced with a start value of 100, every row holds
    the period's portfolio return [r], the running sum [c] of the returns up
    to and including that row, and the index level [100 * exp c]. *)
Theorem index_level_round_trip (np_exp : Qc -> Qc) (W D : DataFrame) (i : nat) :
  let perf := compute_index_level_and_returns np_exp W D (Qc_of_Z 100) in
  (i < List.length (rows perf))%nat ->
  exists d r c,
    nth_error (get_column perf "portfolio_log_return") i = Some (d, Some r) /\
    nth_error (get_column perf "cumulative_log_return") i = Some (d, Some c) /\
    nth_error (get_column perf "index_level") i
    = Some (d, Some (Qc_of_Z 100 * np_exp c)) /\
    c = sum_skipna
          (map snd (firstn (S i) (get_column perf "portfolio_log_return"))).
Proof.
  intros perf Hi. subst perf.
  unfold get_column.
  rewrite compute_index_level_and_returns_columns.
  rewrite compute_index_level_and_returns_rows in *.
  set (l := row_sums (df_mul (shift1 W) D)) in *.
  rewrite compounded_length in Hi.
  destruct (nth_error l i) as [[d r]|] eqn:El;
    [|apply nth_error_None in El; lia].
  destruct (compounded_nth np_exp (Qc_of_Z 100) l 0 i El) as (c & Hc & Hn).
  exists d, r, c. rewrite !nth_error_map, Hn. cbn [option_map fst snd].
  repeat split.
  rewrite Hc, Qcplus_0_l.
  change (map (fun r0 : date * list cell =>
                 (fst r0,
                  cell_of ["portfolio_log_return"; "cumulative_log_return";
                           "index_level"]%string (snd r0)
                    "portfolio_log_return"))
            (compounded np_exp (Qc_of_Z 100) 0 l))
    with (map (fun r0 : date * list cell => (fst r0, nth 0 (snd r0) None))
            (compounded np_exp (Qc_of_Z 100) 0 l)).
  rewrite compounded_returns, firstn_map, map_map. cbn [snd].
  unfold sum_skipna. now rewrite nonnan_map_Some.
Qed.

Lemma index_level_round_trip_witness :
  exists d r c,
    nth_error (get_column performance4 "portfolio_log_return") 2 = Some (d, Some r) /\
    nth_error (get_column performance4 "cumulative_log_return") 2 = Some (d, Some c) /\
    nth_error (get_column performance4 "index_level") 2
    = Some (d, Some (Qc_of_Z 100 * exp_order1 c)) /\
    c = sum_skipna
          (map snd (firstn 3 (get_column performance4 "portfolio_log_return"))).
Proof.
  apply (@index_level_round_trip exp_order1 weights4 panel4 2%nat).
  vm_compute. reflexivity.
Defined.

(** C9.  [compute_weights_last_month_direction] does not skip a period
    whose row is entirely NaN: on [panel_gap] it emits a weight row for
    period 2 and gives ticker A, which has no value there, the whole weight.
    And the eleven periods that the momentum allocator does skip on
    [panel13] are rows of the performance table all the same. *)
Theorem all_nan_period_is_emitted :
  forallb isna (map snd (nth 1 (map snd (iterrows panel_gap)) [])) = true
  /\ compute_weights_last_month_direction (sorter := insertion_sorter)
       panel_gap (Qc_of_Z 50) (Qc_of_Z 0) = Ok weights_gap
  /\ index weights_gap = [1; 2; 3]%Z
  /\ lookup weights_gap 2%Z "A" = Some 1
  /\ lookup weights_gap 2%Z "B" = Some 0
  /\ forallb isna (map snd (nth 4 (map snd (iterrows (momentum_signal panel13))) []))
     = true
  /\ ~ In 5%Z (index momentum_weights13)
  /\ lookup performance13 5%Z "portfolio_log_return" = Some 0.
Proof.
  repeat split; try reflexivity.
  vm_compute. intuition discriminate.
Qed.

(** C10.  A run that completes on distinct labels leaves a store whose keys
    are the labels ["Top {top}% / Bottom {bottom}%"] of the requested bands,
    built from the pairs as given and in the order given, whatever the store
    held before.  The entry of each band names an object of its own that
    holds the band's performance table: no two entries name one object, none
    names the object in [self.performance], and changing the object of one
    entry leaves the object of every other entry as it was. *)
Theorem scenario_store_holds_independent_copies (sorter : ArgSort)
  (np_exp : Qc -> Qc) (py_format : Qc -> string)
  (percentiles : list (Qc * Qc)) (w w' : world) :
  construct_performances_for_percentiles np_exp py_format percentiles w
  = (Ok tt, w') ->
  NoDup (map (key_name py_format) percentiles) ->
  exists D,
    data (self w) = Some D /\
    dict_keys (percentile_results (self w'))
    = map (key_name py_format) percentiles /\
    (forall i band,
        nth_error percentiles i = Some band ->
        exists l W,
          nth_error (percentile_results (self w')) i
          = Some (key_name py_format band, l) /\
          compute_weight_momentum_12_minus_1 D (fst band) (snd band) = Ok W /\
          nth_error (heap w') l
          = Some (compute_index_level_and_returns np_exp W D (Qc_of_Z 100))) /\
    NoDup (map snd (percentile_results (self w'))) /\
    (forall l, In l (map snd (percentile_results (self w'))) ->
               performance (self w') <> Some l) /\
    (forall l l' v,
        In l (map snd (percentile_results (self w'))) ->
        In l' (map snd (percentile_results (self w'))) ->
        l <> l' ->
        nth_error (update l v (heap w')) l' = nth_error (heap w') l').
Proof.
  intros Hrun Hnd. unfold construct_performances_for_percentiles in Hrun.
  rewrite (@bind_ok _ _ get_self _ w w (self w) eq_refl) in Hrun.
  destruct (data (self w)) as [D|] eqn:HD; [|discriminate].
  exists D. split; [reflexivity|].
  unfold bind at 1, set_percentile_results at 1 in Hrun.
  match type of Hrun with
  | scenario_loop _ _ _ ?w1 = _ =>
      pose proof (@scenario_loop_spec sorter np_exp py_format D percentiles
                    w1 w' HD Hrun) as Hspec
  end.
  cbv zeta in Hspec. cbn [heap self percentile_results performance] in Hspec.
  destruct Hspec as (_ & Hlen & _ & Hstore & Hcont & Hperf).
  rewrite fold_dict_set_fresh in Hstore
    by (cbn [dict_keys map app]; now rewrite stored_keys).
  cbn [app] in Hstore. rewrite Hstore.
  repeat split.
  - apply stored_keys.
  - intros i band Hi. destruct (Hcont i band Hi) as (perf & Hp & Hn).
    unfold performance_of in Hp.
    destruct (compute_weight_momentum_12_minus_1 D (fst band) (snd band))
      as [W|e]; [|discriminate].
    inversion Hp; subst perf.
    exists (List.length (heap w) + 2 * i + 1)%nat, W.
    repeat split; [now apply stored_nth | exact Hn].
  - apply stored_NoDup.
  - intros l Hl Hp. apply stored_locs in Hl. destruct Hl as (i & Hi & ->).
    rewrite Hperf in Hp. destruct percentiles; [simpl in Hi; lia|].
    inversion Hp. lia.
  - intros l l' v _ _ Hne. now apply update_other.
Qed.

Lemma scenario_store_holds_independent_copies_witness :
  exists D,
    data (self world13) = Some D /\
    dict_keys (percentile_results (self world13'))
    = map (key_name format_int) bands13 /\
    (forall i band,
        nth_error bands13 i = Some band ->
        exists l W,
          nth_error (percentile_results (self world13')) i
          = Some (key_name format_int band, l) /\
          compute_weight_momentum_12_minus_1 (sorter := insertion_sorter) D
            (fst band) (snd band) = Ok W /\
          nth_error (heap world13') l
          = Some (compute_index_level_and_returns exp_order1 W D (Qc_of_Z 100))) /\
    NoDup (map snd (percentile_results (self world13'))) /\
    (forall l, In l (map snd (percentile_results (self world13'))) ->
               performance (self world13') <> Some l) /\
    (forall l l' v,
        In l (map snd (percentile_results (self world13'))) ->
        In l' (map snd (percentile_results (self world13'))) ->
        l <> l' ->
        nth_error (update l v (heap world13')) l' = nth_error (heap world13') l').
Proof.
  apply (@scenario_store_holds_independent_copies insertion_sorter exp_order1
           format_int bands13 world13 world13').
  - vm_compute. reflexivity.
  - vm_compute. repeat constructor; simpl; intuition discriminate.
Defined.

(** The store after the run on [world13]: the old entry is gone and the two
    labels keep the pairs as given, the second one unnormalised. *)
Example store13 :
  percentile_results (self world13')
  = [("Top 100% / Bottom 0%"%string, 2%nat);
     ("Top 0% / Bottom 50%"%string, 4%nat)]
  /\ performance (self world13') = Some 3%nat.
Proof. split; vm_compute; reflexivity. Qed.

(** * Further properties *)

(** The signal that [compute_weight_momentum_12_minus_1] ranks by: in the
    row of period [i], the cell of column [j] is [R12 - R1], where [R12] is
    the sum of the twelve cells of the column up to and including period
    [i], defined only when there are twelve and all hold a value, and [R1]
    is the cell of period [i] itself. *)
Theorem momentum_signal_is_R12_minus_R1 (data : DataFrame) (i : nat) (d : date)
  (vs : list cell) :
  nth_error (rows data) i = Some (d, vs) ->
  nth_error (rows (momentum_signal data)) i
  = Some (d, map (fun j =>
                    cell_binop Qcminus
                      (window_sum 12
                         (column_of j (trailing 12 i (map snd (rows data)))))
                      (nth j vs None))
               (seq 0 (List.length (columns data)))).
Proof. apply momentum_signal_nth. Qed.

Lemma momentum_signal_is_R12_minus_R1_witness :
  nth_error (rows (momentum_signal panel13)) 11
  = Some (12%Z,
          map (fun j =>
                 cell_binop Qcminus
                   (window_sum 12
                      (column_of j (trailing 12 11 (map snd (rows panel13)))))
                   (nth j [pct 12 100; pct 8 100] None))
            (seq 0 (List.length (columns panel13)))).
Proof.
  apply (@momentum_signal_is_R12_minus_R1 panel13 11%nat 12%Z
           [pct 12 100; pct 8 100]).
  reflexivity.
Defined.

(** A period among the first eleven of a panel with ascending periods has
    no signal for any ticker, and the weight table of
    [compute_weight_momentum_12_minus_1] has no row for it. *)
Theorem short_history_gives_no_signal_and_no_weights (sorter : ArgSort)
  (data W : DataFrame) (top bottom : Qc) (i : nat) (d : date)
  (cells : list cell) :
  StronglySorted Z.lt (index data) ->
  compute_weight_momentum_12_minus_1 data top bottom = Ok W ->
  (i < 11)%nat ->
  nth_error (rows (momentum_signal data)) i = Some (d, cells) ->
  forallb isna cells = true /\ ~ In d (index W).
Proof.
  intros Hs HW Hi Hn.
  assert (Hnan : forallb isna cells = true)
    by (eapply momentum_signal_short_history; eauto).
  split; [exact Hnan|].
  eapply momentum_skips_empty_signal; eauto.
Qed.

Lemma panel13_sorted : StronglySorted Z.lt (index panel13).
Proof. repeat constructor. Qed.

Lemma short_history_gives_no_signal_and_no_weights_witness :
  forallb isna [None; None] = true /\ ~ In 5%Z (index momentum_weights13).
Proof.
  apply (@short_history_gives_no_signal_and_no_weights insertion_sorter
           panel13 momentum_weights13 (Qc_of_Z 100) (Qc_of_Z 0) 4%nat 5%Z
           [None; None]).
  - exact panel13_sorted.
  - reflexivity.
  - lia.
  - reflexivity.
Defined.

(** On a panel with ascending periods, the performance table computed from
    a weight table of either allocator has exactly the periods of the
    panel: none is dropped. *)
Theorem performance_covers_every_panel_period (sorter : ArgSort)
  (np_exp : Qc -> Qc) (data W : DataFrame) (top bottom start : Qc) :
  StronglySorted Z.lt (index data) ->
  compute_weights_last_month_direction data top bottom = Ok W
  \/ compute_weight_momentum_12_minus_1 data top bottom = Ok W ->
  index (compute_index_level_and_returns np_exp W data start) = index data.
Proof.
  intros Hs HW.
  destruct (@allocator_periods sorter data W top bottom Hs HW) as [_ Hincl].
  now apply no_period_is_dropped.
Qed.

Lemma performance_covers_every_panel_period_witness :
  index performance13 = index panel13.
Proof.
  apply (@performance_covers_every_panel_period insertion_sorter exp_order1
           panel13 momentum_weights13 (Qc_of_Z 100) (Qc_of_Z 0) (Qc_of_Z 100)).
  - exact panel13_sorted.
  - right. reflexivity.
Defined.

(** Whatever the sorter, [sort_values(ascending=False)] lists the tickers
    that have a value first, in non-increasing order of value, and the
    tickers without a value after them. *)
Theorem sorted_row_is_descending_with_nan_last (sorter : ArgSort)
  (row : Series) :
  (exists vals,
      map snd (dropna (sort_values_desc row)) = map Some vals /\
      StronglySorted (fun x y => y <= x) vals)
  /\ forallb (fun kv => isna (snd kv))
       (skipn (List.length (dropna (sort_values_desc row)))
          (sort_values_desc row)) = true
  /\ Permutation (sort_values_desc row) row.
Proof.
  split; [apply sort_values_desc_descending|]. split.
  - rewrite dropna_sorted at 1. rewrite sort_values_desc_split.
    rewrite skipn_app, Nat.sub_diag, skipn_all. cbn [app skipn].
    apply forallb_forall. intros x Hx. now apply (@nan_positions_isna row).
  - apply sort_values_desc_perm.
Qed.

(** The weight of a ticker at period [T] is computed from the rows of the
    panel up to and including [T] only: two panels with the same tickers
    that agree on every row up to [T] get the same weight at [T] from either
    allocator, whatever their later rows hold. *)
Theorem weights_ignore_later_periods (sorter : ArgSort)
  (data1 data2 W1 W2 : DataFrame) (top bottom : Qc) (i : nat) (T : date)
  (t : ticker) :
  StronglySorted Z.lt (index data1) -> StronglySorted Z.lt (index data2) ->
  columns data1 = columns data2 ->
  firstn (S i) (rows data1) = firstn (S i) (rows data2) ->
  nth_error (index data1) i = Some T ->
  (compute_weights_last_month_direction data1 top bottom = Ok W1 /\
   compute_weights_last_month_direction data2 top bottom = Ok W2)
  \/ (compute_weight_momentum_12_minus_1 data1 top bottom = Ok W1 /\
      compute_weight_momentum_12_minus_1 data2 top bottom = Ok W2) ->
  lookup W1 T t = lookup W2 T t.
Proof.
  intros Hs1 Hs2 Hc Hp HT HW.
  unfold index in HT. rewrite nth_error_map in HT.
  destruct (nth_error (rows data1) i) as [[T0 vs]|] eqn:Hr1; [|discriminate].
  injection HT as ->.
  assert (Hr2 : nth_error (rows data2) i = Some (T, vs)).
  { rewrite <- Hr1. symmetry.
    apply (@nth_error_firstn_eq _ (rows data1) (rows data2) (S i) i Hp).
    lia. }
  destruct HW as [[HW1 HW2]|[HW1 HW2]].
  - assert (H1 : In (T, combine (columns data1) vs) (iterrows data1)).
    { unfold iterrows. apply in_map_iff. exists (T, vs).
      split; [reflexivity|]. eapply nth_error_In; eauto. }
    assert (H2 : In (T, combine (columns data1) vs) (iterrows data2)).
    { unfold iterrows. apply in_map_iff. exists (T, vs).
      split; [now rewrite Hc|]. eapply nth_error_In; eauto. }
    rewrite (@last_month_weight_cell sorter data1 W1 top bottom T _ t
               Hs1 HW1 H1).
    now rewrite (@last_month_weight_cell sorter data2 W2 top bottom T _ t
                   Hs2 HW2 H2).
  - pose proof (@momentum_signal_nth data1 i T vs Hr1) as S1.
    pose proof (@momentum_signal_nth data2 i T vs Hr2) as S2.
    assert (Ht : trailing 12 i (map snd (rows data2))
                 = trailing 12 i (map snd (rows data1))).
    { unfold trailing. now rewrite !firstn_map, Hp. }
    rewrite Ht, <- Hc in S2.
    set (cells := map _ (seq 0 (List.length (columns data1)))) in S1, S2.
    assert (H1 : In (T, combine (columns (momentum_signal data1)) cells)
                   (iterrows (momentum_signal data1))).
    { unfold iterrows. apply in_map_iff. exists (T, cells).
      split; [reflexivity|]. eapply nth_error_In; eauto. }
    assert (H2 : In (T, combine (columns (momentum_signal data1)) cells)
                   (iterrows (momentum_signal data2))).
    { unfold iterrows. apply in_map_iff. exists (T, cells).
      split; [|eapply nth_error_In; eauto].
      cbn [fst snd]. f_equal. unfold momentum_signal, df_sub. cbn [columns].
      unfold rolling_sum. cbn [columns]. now rewrite Hc. }
    rewrite (@momentum_weight_cell sorter data1 W1 top bottom T _ t
               Hs1 HW1 H1).
    now rewrite (@momentum_weight_cell sorter data2 W2 top bottom T _ t
                   Hs2 HW2 H2).
Qed.

Lemma weights_ignore_later_periods_witness :
  lookup weights4 2%Z "A" = lookup weights4_later 2%Z "A".
Proof.
  apply (@weights_ignore_later_periods insertion_sorter panel4 panel4_later
           weights4 weights4_later (Qc_of_Z 50) (Qc_of_Z 0) 1%nat 2%Z "A"%string).
  - exact panel4_sorted.
  - repeat constructor.
  - reflexivity.
  - reflexivity.
  - reflexivity.
  - left. split; reflexivity.
Defined.

(** A band whose lower percentile is 0 holds the best performers: at a
    period of the weight table of either allocator, a ticker with a
    non-zero weight has a value in the ranked row (the panel row for
    [compute_weights_last_month_direction], the signal row for
    [compute_weight_momentum_12_minus_1]) at least as large as any valued
    ticker whose weight is 0. *)
Theorem top_band_holds_the_best (sorter : ArgSort) (data W : DataFrame)
  (top : Qc) (T : date) (row : Series) (a b : ticker) (va vb wa : Qc) :
  StronglySorted Z.lt (index data) -> NoDup (columns data) -> 0 <= top ->
  (compute_weights_last_month_direction data top 0 = Ok W
   /\ In (T, row) (iterrows data))
  \/ (compute_weight_momentum_12_minus_1 data top 0 = Ok W
      /\ In (T, row) (iterrows (momentum_signal data))) ->
  In (a, Some va) row -> In (b, Some vb) row ->
  lookup W T a = Some wa -> wa <> 0 -> lookup W T b = Some 0 ->
  vb <= va.
Proof.
  intros Hs Hc Htop HW Ha Hb Hwa Hnz Hwb.
  assert (Hcases : exists l,
             NoDup (map fst row)
             /\ forall t, lookup W T t
                          = dict_get (band_weights 0 top l
                                        (sort_values_desc row)) t).
  { destruct HW as [[HW Hin]|[HW Hin]].
    - exists (List.length (sort_values_desc row)). split.
      + exact (proj1 (@iterrows_labels data T row Hc Hin)).
      + intros t.
        rewrite (@last_month_weight_cell sorter data W top 0 T row t
                   Hs HW Hin).
        now rewrite py_min_nonneg_0, py_max_nonneg_0.
    - exists (List.length (dropna (sort_values_desc row))). split.
      + exact (proj1 (@iterrows_labels (momentum_signal data) T row Hc Hin)).
      + intros t.
        rewrite (@momentum_weight_row sorter data W top 0 T row a wa
                   Hs HW Hin Hwa t).
        now rewrite py_min_nonneg_0, py_max_nonneg_0. }
  destruct Hcases as [l [Hnd Hget]].
  rewrite Hget in Hwa, Hwb.
  apply weight_selected_or_zero in Hwa, Hwb.
  destruct Hwa as [[Hsa _]|[_ [_ E]]]; [|contradiction].
  destruct Hwb as [[_ E]|[Hsb _]].
  - exfalso. symmetry in E. revert E. apply ticker_weight_neq_0.
  - exact (@top_slice_outranks sorter row top l a b va vb Hnd Ha Hb Hsa Hsb).
Qed.

Lemma top_band_holds_the_best_witness : Q2Qc (0 # 100) <= Q2Qc (1 # 100).
Proof.
  apply (@top_band_holds_the_best insertion_sorter panel4 weights4
           (Qc_of_Z 50) 1%Z
           [("A", pct 1 100); ("B", pct (-2) 100); ("C", pct 3 100);
            ("D", pct 0 100)]%string
           "A"%string "D"%string (Q2Qc (1 # 100)) (Q2Qc (0 # 100))
           (Q2Qc (1 # 2))).
  - exact panel4_sorted.
  - exact panel4_columns.
  - unfold Qcle, Qle; simpl; lia.
  - left. split; [reflexivity | left; reflexivity].
  - left. reflexivity.
  - right. right. right. left. reflexivity.
  - vm_compute. reflexivity.
  - intros E. discriminate E.
  - vm_compute. reflexivity.
Defined.

(** In the table computed from the weights of either allocator, the first
    period of a panel with ascending periods has the portfolio return 0, the
    cumulative return 0 and the index level [start * exp 0]: the lagged
    weights have no value there and the row sum of no value is 0. *)
Theorem first_period_return_is_zero (sorter : ArgSort) (np_exp : Qc -> Qc)
  (data W : DataFrame) (top bottom start : Qc) (T0 : date) :
  StronglySorted Z.lt (index data) ->
  compute_weights_last_month_direction data top bottom = Ok W
  \/ compute_weight_momentum_12_minus_1 data top bottom = Ok W ->
  nth_error (index data) 0 = Some T0 ->
  let perf := compute_index_level_and_returns np_exp W data start in
  lookup perf T0 "portfolio_log_return" = Some 0
  /\ lookup perf T0 "cumulative_log_return" = Some 0
  /\ lookup perf T0 "index_level" = Some (start * np_exp 0).
Proof.
  intros Hs HW H0.
  destruct (@allocator_periods sorter data W top bottom Hs HW) as [HsW Hincl].
  apply (@flat_before_weights np_exp W data start 0 T0 Hs HsW Hincl H0).
  intros d' Hd'. apply Hincl in Hd'. apply In_nth_error in Hd'.
  destruct Hd' as [k Hk].
  apply (@sorted_nth_le (index data) 0 k T0 d' Hs); [lia | assumption | assumption].
Qed.

Lemma first_period_return_is_zero_witness :
  lookup performance4 1%Z "portfolio_log_return" = Some 0
  /\ lookup performance4 1%Z "cumulative_log_return" = Some 0
  /\ lookup performance4 1%Z "index_level"
     = Some (Qc_of_Z 100 * exp_order1 0).
Proof.
  apply (@first_period_return_is_zero insertion_sorter exp_order1 panel4
           weights4 (Qc_of_Z 50) (Qc_of_Z 0) (Qc_of_Z 100) 1%Z).
  - exact panel4_sorted.
  - left. reflexivity.
  - reflexivity.
Defined.

(** With the weights of [compute_weight_momentum_12_minus_1], each of the
    first twelve periods of a panel with ascending periods has the
    portfolio return 0, the cumulative return 0 and the index level
    [start * exp 0]: the first eleven have no weight row, and the twelfth is
    at best the first row of the weight table, whose lagged weights have no
    value. *)
Theorem momentum_first_twelve_returns_are_zero (sorter : ArgSort)
  (np_exp : Qc -> Qc) (data W : DataFrame) (top bottom start : Qc) (i : nat)
  (T : date) :
  StronglySorted Z.lt (index data) ->
  compute_weight_momentum_12_minus_1 data top bottom = Ok W ->
  (i < 12)%nat -> nth_error (index data) i = Some T ->
  let perf := compute_index_level_and_returns np_exp W data start in
  lookup perf T "portfolio_log_return" = Some 0
  /\ lookup perf T "cumulative_log_return" = Some 0
  /\ lookup perf T "index_level" = Some (start * np_exp 0).
Proof.
  intros Hs HW Hi HT.
  destruct (@allocator_periods sorter data W top bottom Hs (or_intror HW))
    as [HsW Hincl].
  apply (@flat_before_weights np_exp W data start i T Hs HsW Hincl HT).
  intros d' Hd'. pose proof (Hincl d' Hd') as Hin.
  apply In_nth_error in Hin. destruct Hin as [k Hk].
  destruct (Nat.lt_ge_cases k 11) as [Hlt|Hge].
  - exfalso.
    exact (@short_history_has_no_weight_row sorter data W top bottom k d'
             Hs HW Hlt Hk Hd').
  - apply (@sorted_nth_le (index data) i k T d' Hs); [lia | assumption | assumption].
Qed.

Lemma momentum_first_twelve_returns_are_zero_witness :
  lookup performance13 12%Z "portfolio_log_return" = Some 0
  /\ lookup performance13 12%Z "cumulative_log_return" = Some 0
  /\ lookup performance13 12%Z "index_level"
     = Some (Qc_of_Z 100 * exp_order1 0).
Proof.
  apply (@momentum_first_twelve_returns_are_zero insertion_sorter exp_order1
           panel13 momentum_weights13 (Qc_of_Z 100) (Qc_of_Z 0) (Qc_of_Z 100)
           11%nat 12%Z).
  - exact panel13_sorted.
  - reflexivity.
  - lia.
  - reflexivity.
Defined.

(** A band of no width holds nothing: when both percentiles are equal,
    every weight that either allocator writes is 0, and on a panel with
    ascending periods the portfolio return of every period is 0. *)
Theorem zero_width_band_holds_nothing (sorter : ArgSort) (np_exp : Qc -> Qc)
  (data W : DataFrame) (p start : Qc) :
  StronglySorted Z.lt (index data) ->
  compute_weights_last_month_direction data p p = Ok W
  \/ compute_weight_momentum_12_minus_1 data p p = Ok W ->
  (forall T t w, lookup W T t = Some w -> w = 0)
  /\ (forall T, In T (index data) ->
        lookup (compute_index_level_and_returns np_exp W data start) T
          "portfolio_log_return" = Some 0).
Proof.
  intros Hs HW.
  assert (Hz : forall T t w, lookup W T t = Some w -> w = 0).
  { intros T t w Hw.
    destruct (@weight_cell_source sorter data W p p T t w HW Hw)
      as [l [row Hget]].
    rewrite py_min_same, py_max_same in Hget.
    apply weight_selected_or_zero in Hget.
    destruct Hget as [[Hsel _]|[_ [_ E]]]; [|exact E].
    rewrite selected_tickers_same in Hsel. destruct Hsel. }
  split; [exact Hz|].
  intros T HT.
  destruct (@allocator_periods sorter data W p p Hs HW) as [HsW Hincl].
  apply In_nth_error in HT. destruct HT as [i Hi].
  destruct (@performance_cells np_exp W data start i T Hs Hincl Hi)
    as (Hr & _).
  rewrite Hr. f_equal.
  apply weighted_return_of_zero_weights; [|exact Hz].
  now apply sorted_lt_NoDup.
Qed.

Lemma zero_width_band_holds_nothing_witness :
  (forall T t w,
      lookup (frame_of (compute_weights_last_month_direction
                          (sorter := insertion_sorter) panel4 (Qc_of_Z 50)
                          (Qc_of_Z 50))) T t = Some w -> w = 0)
  /\ (forall T, In T (index panel4) ->
        lookup (compute_index_level_and_returns exp_order1
                  (frame_of (compute_weights_last_month_direction
                               (sorter := insertion_sorter) panel4
                               (Qc_of_Z 50) (Qc_of_Z 50)))
                  panel4 (Qc_of_Z 100)) T
          "portfolio_log_return" = Some 0).
Proof.
  apply (@zero_width_band_holds_nothing insertion_sorter exp_order1 panel4
           _ (Qc_of_Z 50) (Qc_of_Z 100)).
  - exact panel4_sorted.
  - left. reflexivity.
Defined.

(** Under the full band (100, 0), [compute_weight_momentum_12_minus_1]
    gives every ticker that has a signal in the period the same weight
    [1 / l], with [l] the number of tickers that have a signal, and the
    weight 0 to every ticker without a signal. *)
Theorem full_band_momentum_weighs_valued_tickers (sorter : ArgSort)
  (data W : DataFrame) (T : date) (row : Series) (t : ticker) (c : cell) :
  StronglySorted Z.lt (index data) -> NoDup (columns data) ->
  compute_weight_momentum_12_minus_1 data (Qc_of_Z 100) 0 = Ok W ->
  In (T, row) (iterrows (momentum_signal data)) -> In T (index W) ->
  In (t, c) row ->
  lookup W T t
  = match c with
    | Some _ => Some (1 / Qc_of_nat (List.length (dropna row)))
    | None => Some 0
    end.
Proof.
  intros Hs Hc HW Hin HT Ht.
  destruct (@momentum_row_of_period sorter data W (Qc_of_Z 100) 0 T row
              Hs HW Hin HT) as [Hl Hget].
  rewrite Hget, (py_min_nonneg_0 Qc_100_nonneg), (py_max_nonneg_0 Qc_100_nonneg).
  pose proof (proj1 (@iterrows_labels (momentum_signal data) T row Hc Hin))
    as Hnd.
  destruct c as [v|].
  - rewrite band_weights_selected.
    + rewrite (ticker_weight_full Hl). now rewrite dropna_sorted_length.
    + rewrite full_slice_is_valued.
      change t with (fst (t, Some v)). apply in_map.
      now apply valued_in_dropna.
  - apply band_weights_unselected.
    + rewrite full_slice_is_valued. intros Hsel.
      apply in_map_iff in Hsel. destruct Hsel as ([t' c'] & E & Hin').
      simpl in E. subst t'. unfold dropna in Hin'.
      apply filter_In in Hin'. destruct Hin' as [Hin' Hc'].
      assert (Hrow : In (t, c') row)
        by (eapply Permutation_in; [apply sort_values_desc_perm | exact Hin']).
      rewrite (@NoDup_keys_functional _ _ row t c' None Hnd Hrow Ht) in Hc'.
      discriminate.
    + eapply Permutation_in; [symmetry; apply sorted_labels|].
      now apply (in_map fst) in Ht.
Qed.

Lemma full_band_momentum_weighs_valued_tickers_witness :
  lookup momentum_weights13 12%Z "B" = Some 0.
Proof.
  apply (@full_band_momentum_weighs_valued_tickers insertion_sorter panel13
           momentum_weights13 12%Z
           (nth 11 (map snd (iterrows (momentum_signal panel13))) [])
           "B"%string None).
  - exact panel13_sorted.
  - exact panel13_columns.
  - reflexivity.
  - apply (@nth_error_In _ (iterrows (momentum_signal panel13)) 11).
    reflexivity.
  - left. reflexivity.
  - vm_compute. right. left. reflexivity.
Defined.

(** Under the full band (100, 0), [compute_weights_last_month_direction]
    gives every ticker of the row the weight [1 / n], with [n] the number of
    tickers of the row, whether the ticker has an observation in the period
    or not: its population size counts the tickers without a value. *)
Theorem full_band_last_month_weighs_every_ticker (sorter : ArgSort)
  (data W : DataFrame) (T : date) (row : Series) (t : ticker) (c : cell) :
  StronglySorted Z.lt (index data) ->
  compute_weights_last_month_direction data (Qc_of_Z 100) 0 = Ok W ->
  In (T, row) (iterrows data) -> In (t, c) row ->
  lookup W T t = Some (1 / Qc_of_nat (List.length row)).
Proof.
  intros Hs HW Hin Ht.
  rewrite (@last_month_weight_cell sorter data W (Qc_of_Z 100) 0 T row t
             Hs HW Hin).
  rewrite (py_min_nonneg_0 Qc_100_nonneg), (py_max_nonneg_0 Qc_100_nonneg).
  rewrite band_weights_selected.
  - rewrite ticker_weight_full, sort_values_desc_length; [reflexivity|].
    rewrite sort_values_desc_length. destruct row; [destruct Ht | discriminate].
  - rewrite full_slice_is_everything.
    eapply Permutation_in; [symmetry; apply sorted_labels|].
    now apply (in_map fst) in Ht.
Qed.

Lemma full_band_last_month_weighs_every_ticker_witness :
  lookup (frame_of (compute_weights_last_month_direction
                      (sorter := insertion_sorter) panel_gap (Qc_of_Z 100) 0))
    2%Z "B"
  = Some (1 / Qc_of_nat 2).
Proof.
  apply (@full_band_last_month_weighs_every_ticker insertion_sorter panel_gap
           _ 2%Z [("A", None); ("B", None)]%string "B"%string None).
  - repeat constructor.
  - reflexivity.
  - right. left. reflexivity.
  - right. left. reflexivity.
Defined.

(** Adjacent bands share no ticker: for percentiles
    [0 <= a <= b <= c <= 100], on a panel with ascending periods and
    distinct tickers, a ticker that has a non-zero weight in a period under
    the band (b, a) has the weight 0 in that period under the band (c, b),
    with either allocator. *)
Theorem adjacent_bands_share_no_ticker (sorter : ArgSort)
  (data W1 W2 : DataFrame) (a b c : Qc) (T : date) (row : Series) (t : ticker)
  (w : Qc) :
  StronglySorted Z.lt (index data) -> NoDup (columns data) ->
  0 <= a -> a <= b -> b <= c -> c <= Qc_of_Z 100 ->
  (compute_weights_last_month_direction data b a = Ok W1
   /\ compute_weights_last_month_direction data c b = Ok W2
   /\ In (T, row) (iterrows data))
  \/ (compute_weight_momentum_12_minus_1 data b a = Ok W1
      /\ compute_weight_momentum_12_minus_1 data c b = Ok W2
      /\ In (T, row) (iterrows (momentum_signal data))) ->
  lookup W1 T t = Some w -> w <> 0 -> lookup W2 T t = Some 0.
Proof.
  intros Hs Hc H0 Hab Hbc H100 HW Hw Hnz.
  assert (Hsrc : exists l,
             (l <= List.length (sort_values_desc row))%nat
             /\ NoDup (map fst row)
             /\ lookup W1 T t
                = dict_get (band_weights a b l (sort_values_desc row)) t
             /\ lookup W2 T t
                = dict_get (band_weights b c l (sort_values_desc row)) t).
  { destruct HW as [(HW1 & HW2 & Hin)|(HW1 & HW2 & Hin)].
    - exists (List.length (sort_values_desc row)).
      split; [lia|]. split.
      + exact (proj1 (@iterrows_labels data T row Hc Hin)).
      + rewrite (@last_month_weight_cell sorter data W1 b a T row t
                   Hs HW1 Hin).
        rewrite (@last_month_weight_cell sorter data W2 c b T row t
                   Hs HW2 Hin).
        now rewrite !py_min_ordered, !py_max_ordered by assumption.
    - exists (List.length (dropna (sort_values_desc row))).
      split; [apply dropna_length_le|]. split.
      + exact (proj1 (@iterrows_labels (momentum_signal data) T row Hc Hin)).
      + pose proof (@momentum_weight_cell sorter data W1 b a T row t
                      Hs HW1 Hin) as E1.
        pose proof (@momentum_weight_cell sorter data W2 c b T row t
                      Hs HW2 Hin) as E2.
        rewrite E1 in Hw. rewrite E1, E2.
        unfold momentum_record in *.
        destruct (forallb isna (map snd row)); [discriminate|].
        cbv zeta in *.
        destruct (List.length (dropna (sort_values_desc row)) =? 0)%nat;
          [discriminate|].
        now rewrite !py_min_ordered, !py_max_ordered by assumption. }
  destruct Hsrc as (l & Hl & Hnd & E1 & E2).
  rewrite E1 in Hw. rewrite E2.
  apply weight_selected_or_zero in Hw.
  destruct Hw as [[Hsel _]|[_ [_ E]]]; [|contradiction].
  apply band_weights_unselected.
  - apply (@adjacent_slices_disjoint a b c l (sort_values_desc row) t);
      try assumption.
    now apply sorted_labels_NoDup.
  - apply (@selected_tickers_incl a b l (sort_values_desc row)). exact Hsel.
Qed.

Lemma adjacent_bands_share_no_ticker_witness :
  lookup (frame_of (compute_weights_last_month_direction
                      (sorter := insertion_sorter) panel4 (Qc_of_Z 100)
                      (Qc_of_Z 50))) 1%Z "A"
  = Some 0.
Proof.
  apply (@adjacent_bands_share_no_ticker insertion_sorter panel4 weights4 _
           (Qc_of_Z 0) (Qc_of_Z 50) (Qc_of_Z 100) 1%Z
           [("A", pct 1 100); ("B", pct (-2) 100); ("C", pct 3 100);
            ("D", pct 0 100)]%string
           "A"%string (Q2Qc (1 # 2))).
  - exact panel4_sorted.
  - exact panel4_columns.
  - unfold Qcle, Qle; simpl; lia.
  - unfold Qcle, Qle; simpl; lia.
  - unfold Qcle, Qle; simpl; lia.
  - unfold Qcle, Qle; simpl; lia.
  - left. split; [reflexivity|]. split; [reflexivity | left; reflexivity].
  - vm_compute. reflexivity.
  - intros E. discriminate E.
Defined.

(** A band too narrow for the population holds nothing: with
    [0 <= bottom <= top] and [top * l < 100], where [l] is the population
    size of the period (every ticker of the row for
    [compute_weights_last_month_direction], the tickers with a signal for
    [compute_weight_momentum_12_minus_1]), every ticker of a period that has
    a weight row gets the weight 0. *)
Theorem narrow_band_holds_nothing (sorter : ArgSort) (data W : DataFrame)
  (top bottom : Qc) (T : date) (row : Series) (l : nat) (t : ticker)
  (c : cell) :
  StronglySorted Z.lt (index data) ->
  0 <= bottom -> bottom <= top -> top * Qc_of_nat l < Qc_of_Z 100 ->
  (compute_weights_last_month_direction data top bottom = Ok W
   /\ In (T, row) (iterrows data) /\ l = List.length row)
  \/ (compute_weight_momentum_12_minus_1 data top bottom = Ok W
      /\ In (T, row) (iterrows (momentum_signal data))
      /\ In T (index W)
      /\ l = List.length (dropna row)) ->
  In (t, c) row ->
  lookup W T t = Some 0.
Proof.
  intros Hs H0 Hbt Hsmall HW Ht.
  assert (Htop0 : 0 <= top) by (eapply Qcle_trans; eauto).
  assert (Hsrc : lookup W T t
                 = dict_get (band_weights bottom top l (sort_values_desc row))
                     t).
  { destruct HW as [(HW & Hin & ->)|(HW & Hin & HT & ->)].
    - rewrite (@last_month_weight_cell sorter data W top bottom T row t
                 Hs HW Hin).
      now rewrite py_min_ordered, py_max_ordered, sort_values_desc_length
        by assumption.
    - destruct (@momentum_row_of_period sorter data W top bottom T row
                  Hs HW Hin HT) as [_ Hget].
      rewrite Hget.
      now rewrite py_min_ordered, py_max_ordered, dropna_sorted_length
        by assumption. }
  rewrite Hsrc. apply band_weights_unselected.
  - unfold selected_tickers.
    rewrite (@slice_index_small top l Htop0 Hsmall).
    rewrite (@slice_index_small bottom l H0).
    + rewrite py_slice_same. intros [].
    + eapply Qcle_lt_trans; [|exact Hsmall].
      apply Qcmult_le_compat_r; [exact Hbt | apply Qc_of_nat_nonneg].
  - eapply Permutation_in; [symmetry; apply sorted_labels|].
    now apply (in_map fst) in Ht.
Qed.

Lemma narrow_band_holds_nothing_witness :
  lookup (frame_of (compute_weights_last_month_direction
                      (sorter := insertion_sorter) panel4 (Qc_of_Z 20)
                      (Qc_of_Z 0))) 1%Z "C"
  = Some 0.
Proof.
  apply (@narrow_band_holds_nothing insertion_sorter panel4 _
           (Qc_of_Z 20) (Qc_of_Z 0) 1%Z
           [("A", pct 1 100); ("B", pct (-2) 100); ("C", pct 3 100);
            ("D", pct 0 100)]%string
           4%nat "C"%string (pct 3 100)).
  - exact panel4_sorted.
  - unfold Qcle, Qle; simpl; lia.
  - unfold Qcle, Qle; simpl; lia.
  - unfold Qclt, Qlt; simpl; lia.
  - left. split; [reflexivity|]. split; [left; reflexivity | reflexivity].
  - right. right. left. reflexivity.
Defined.





(** Without a panel every computing method raises [ValueError] before it
    touches the engine: the weights, the performance table and the stored
    results are as they were.  [compute_index_level_and_returns] does so
    too when only the weights are missing. *)
Theorem methods_need_data (sorter : ArgSort) (np_exp : Qc -> Qc)
  (py_format : Qc -> string) (w : world) (top bottom start : Qc)
  (percentiles : list (Qc * Qc)) :
  data (self w) = None \/ weights (self w) = None ->
  self_compute_index_level_and_returns np_exp start w
  = (Raise (ValueError "Weights or Data missing."), w)
  /\ (data (self w) = None ->
      self_compute_weights_last_month_direction top bottom w
      = (Raise (ValueError "Data not fetched. Call fetch_data() first."), w)
      /\ self_compute_weight_momentum_12_minus_1 top bottom w
         = (Raise (ValueError "Data not fetched."), w)
      /\ construct_performances_for_percentiles np_exp py_format percentiles w
         = (Raise (ValueError "Data not loaded. Please call fetch_data() first."),
            w)).
Proof.
  intros H. split.
  - unfold self_compute_index_level_and_returns, bind, get_self, raise.
    destruct H as [H|H]; rewrite H; [|reflexivity].
    now destruct (weights (self w)).
  - intros HD.
    unfold self_compute_weights_last_month_direction,
      self_compute_weight_momentum_12_minus_1,
      construct_performances_for_percentiles, bind, get_self, raise.
    now rewrite HD.
Qed.

Lemma methods_need_data_witness :
  self_compute_index_level_and_returns exp_order1 (Qc_of_Z 100) world0
  = (Raise (ValueError "Weights or Data missing."), world0)
  /\ (data (self world0) = None ->
      self_compute_weights_last_month_direction (sorter := insertion_sorter)
        (Qc_of_Z 10) (Qc_of_Z 0) world0
      = (Raise (ValueError "Data not fetched. Call fetch_data() first."),
         world0)
      /\ self_compute_weight_momentum_12_minus_1 (sorter := insertion_sorter)
           (Qc_of_Z 10) (Qc_of_Z 0) world0
         = (Raise (ValueError "Data not fetched."), world0)
      /\ construct_performances_for_percentiles (sorter := insertion_sorter)
           exp_order1 format_int bands13 world0
         = (Raise (ValueError "Data not loaded. Please call fetch_data() first."),
            world0)).
Proof.
  apply (@methods_need_data insertion_sorter exp_order1 format_int world0
           (Qc_of_Z 10) (Qc_of_Z 0) (Qc_of_Z 100) bands13).
  left. reflexivity.
Defined.



(** After a run of [construct_performances_for_percentiles] that completes,
    the store holds under the label of a band the performance table of the
    last band of the list that has this label: a later band with the same
    label replaces the result of an earlier one. *)
Theorem store_holds_last_result_per_label (sorter : ArgSort)
  (np_exp : Qc -> Qc) (py_format : Qc -> string)
  (percentiles : list (Qc * Qc)) (w w' : world) (i : nat) (band : Qc * Qc) :
  construct_performances_for_percentiles np_exp py_format percentiles w
  = (Ok tt, w') ->
  nth_error percentiles i = Some band ->
  (forall j band', (i < j)%nat -> nth_error percentiles j = Some band' ->
                   key_name py_format band' <> key_name py_format band) ->
  exists D l W,
    data (self w) = Some D
    /\ dict_get (percentile_results (self w')) (key_name py_format band)
       = Some l
    /\ compute_weight_momentum_12_minus_1 D (fst band) (snd band) = Ok W
    /\ nth_error (heap w') l
       = Some (compute_index_level_and_returns np_exp W D (Qc_of_Z 100)).
Proof.
  intros Hrun Hi Hlast. unfold construct_performances_for_percentiles in Hrun.
  rewrite (@bind_ok _ _ get_self _ w w (self w) eq_refl) in Hrun.
  destruct (data (self w)) as [D|] eqn:HD; [|discriminate].
  unfold bind at 1, set_percentile_results at 1 in Hrun.
  match type of Hrun with
  | scenario_loop _ _ _ ?w1 = _ =>
      pose proof (@scenario_loop_spec sorter np_exp py_format D percentiles
                    w1 w' HD Hrun) as Hspec
  end.
  cbv zeta in Hspec. cbn [heap self percentile_results performance] in Hspec.
  destruct Hspec as (_ & _ & _ & Hstore & Hcont & _).
  destruct (Hcont i band Hi) as (perf & Hp & Hn).
  unfold performance_of in Hp.
  destruct (compute_weight_momentum_12_minus_1 D (fst band) (snd band))
    as [W|e] eqn:HWb; [|discriminate].
  injection Hp as <-.
  exists D, (List.length (heap w) + 2 * i + 1)%nat, W.
  split; [reflexivity|]. split; [|split; [exact HWb | exact Hn]].
  rewrite Hstore.
  apply (@fold_set_last loc (stored py_format (List.length (heap w)) percentiles)
           [] i).
  - now apply stored_nth.
  - intros j kv Hj Hkv.
    destruct (nth_error percentiles j) as [band'|] eqn:Hb.
    + rewrite (@stored_nth py_format (List.length (heap w)) percentiles j band' Hb)
        in Hkv.
      injection Hkv as <-. cbn [fst]. now apply (Hlast j).
    + apply nth_error_None in Hb.
      pose proof (@nth_error_Some_lt _ _ _ _ Hkv) as Hlt.
      assert (Hlen : List.length (stored py_format (List.length (heap w))
                                    percentiles)
                     = List.length percentiles).
      { rewrite <- (length_map fst).
        change (List.length (dict_keys (stored py_format (List.length (heap w))
                                          percentiles))
                = List.length percentiles).
        now rewrite stored_keys, length_map. }
      lia.
Qed.

Lemma store_holds_last_result_per_label_witness :
  exists D l W,
    data (self world13) = Some D
    /\ dict_get (percentile_results (self world13_twice))
         (key_name format_int (Qc_of_Z 100, Qc_of_Z 0))
       = Some l
    /\ compute_weight_momentum_12_minus_1 (sorter := insertion_sorter) D
         (fst (Qc_of_Z 100, Qc_of_Z 0)) (snd (Qc_of_Z 100, Qc_of_Z 0))
       = Ok W
    /\ nth_error (heap world13_twice) l
       = Some (compute_index_level_and_returns exp_order1 W D (Qc_of_Z 100)).
Proof.
  apply (@store_holds_last_result_per_label insertion_sorter exp_order1
           format_int bands13_twice world13 world13_twice 2%nat
           (Qc_of_Z 100, Qc_of_Z 0)).
  - vm_compute. reflexivity.
  - reflexivity.
  - intros j band' Hj Hn.
    destruct j as [|[|[|j]]]; try lia.
    destruct j; discriminate Hn.
Defined.

(** The average holding-period return ties in with the index: in a
    performance table of [n + 1] rows, the mean [m] of the column
    "portfolio_log_return" (what
    [construct_portfolio_average_holding_period_returns] reports) times the
    number of rows is the last cumulative return, and the last index level
    is [start * exp (m * (n + 1))]. *)
Theorem mean_return_times_periods_is_total_return (np_exp : Qc -> Qc)
  (W D : DataFrame) (start : Qc) (n : nat) :
  let perf := compute_index_level_and_returns np_exp W D start in
  List.length (rows perf) = S n ->
  exists col m d,
    getitem perf "portfolio_log_return" = Ok col
    /\ series_mean col = Some m
    /\ nth_error (get_column perf "cumulative_log_return") n
       = Some (d, Some (m * Qc_of_nat (S n)))
    /\ nth_error (get_column perf "index_level") n
       = Some (d, Some (start * np_exp (m * Qc_of_nat (S n)))).
Proof.
  intros perf Hlen. subst perf.
  rewrite performance_length in Hlen.
  rewrite performance_returns_column.
  unfold get_column.
  rewrite compute_index_level_and_returns_columns,
    compute_index_level_and_returns_rows.
  set (l := row_sums (df_mul (shift1 W) D)) in *.
  destruct (nth_error l n) as [[d r]|] eqn:El;
    [|apply nth_error_None in El; lia].
  destruct (@compounded_nth np_exp start l 0 n d r El) as (c & Hc & Hn).
  rewrite firstn_all2 in Hc by lia. rewrite Qcplus_0_l in Hc.
  assert (Hvals : nonnan (map (fun dr : date * Qc => Some (snd dr)) l)
                  = map snd l) by apply nonnan_map_Some.
  assert (Hne : map snd l <> []).
  { intros E. apply (f_equal (@List.length Qc)) in E.
    rewrite length_map in E. simpl in E. lia. }
  exists (map (fun dr => Some (snd dr)) l),
         (Qcsum (map snd l) / Qc_of_nat (S n)), d.
  assert (Hm : Qcsum (map snd l) / Qc_of_nat (S n) * Qc_of_nat (S n) = c).
  { rewrite Hc. field. apply Qc_of_nat_S_neq_0. }
  split; [reflexivity|]. split.
  - rewrite series_mean_Some by (rewrite Hvals; exact Hne).
    now rewrite Hvals, length_map, Hlen.
  - rewrite !nth_error_map, Hn. cbn [option_map fst snd].
    rewrite Hm. split; reflexivity.
Qed.

Lemma mean_return_times_periods_is_total_return_witness :
  exists col m d,
    getitem performance4 "portfolio_log_return" = Ok col
    /\ series_mean col = Some m
    /\ nth_error (get_column performance4 "cumulative_log_return") 2
       = Some (d, Some (m * Qc_of_nat 3))
    /\ nth_error (get_column performance4 "index_level") 2
       = Some (d, Some (Qc_of_Z 100 * exp_order1 (m * Qc_of_nat 3))).
Proof.
  apply (@mean_return_times_periods_is_total_return exp_order1 weights4
           panel4 (Qc_of_Z 100) 2%nat).
  vm_compute. reflexivity.
Defined.

(** The standard deviation that
    [construct_portfolio_average_standard_deviation_for_holding_period_return]
    reports for a performance table is NaN exactly when the table has fewer
    than two rows; otherwise [np.sqrt] is applied to a variance that is not
    negative. *)
Theorem std_of_returns_is_defined_from_two_periods (np_exp : Qc -> Qc)
  (W D : DataFrame) (start : Qc) :
  let perf := compute_index_level_and_returns np_exp W D start in
  exists col,
    getitem perf "portfolio_log_return" = Ok col
    /\ (forall np_sqrt,
          series_std np_sqrt col = None
          <-> (List.length (rows perf) <= 1)%nat)
    /\ (forall np_sqrt s,
          series_std np_sqrt col = Some s ->
          exists v, 0 <= v /\ s = np_sqrt v).
Proof.
  intros perf. subst perf.
  exists (map (fun dr => Some (snd dr)) (row_sums (df_mul (shift1 W) D))).
  split; [apply performance_returns_column|]. split.
  - intros np_sqrt. rewrite performance_length.
    rewrite <- (length_map snd (row_sums (df_mul (shift1 W) D))).
    rewrite <- (nonnan_map_Some snd (row_sums (df_mul (shift1 W) D))).
    rewrite <- series_var_None. unfold series_std.
    destruct (series_var _); simpl; split; intros; congruence.
  - intros np_sqrt s Hs. unfold series_std in Hs.
    destruct (series_var _) as [v|] eqn:Hv; [|discriminate].
    simpl in Hs. injection Hs as <-.
    exists v. split; [|reflexivity]. now apply (series_var_nonneg _ Hv).
Qed.

(** The two reports after a run of [construct_performances_for_percentiles]
    that completed.  After a run over no band the store is empty and each
    report prints its one line and returns [None].  Otherwise nothing is
    printed and each report is a series named "Average HPR (Log)" (resp.
    "Std Dev HPR (Log)") with one entry per label of the store, in the order
    of the store: the mean (resp. the standard deviation) of the returns of
    the table stored under the label.  Neither report changes the engine. *)
Theorem reports_follow_the_store (sorter : ArgSort) (np_exp : Qc -> Qc)
  (py_format : Qc -> string) (np_sqrt : Qc -> Qc)
  (percentiles : list (Qc * Qc)) (w w' : world) :
  construct_performances_for_percentiles np_exp py_format percentiles w
  = (Ok tt, w') ->
  match percentiles with
  | [] =>
      construct_portfolio_average_holding_period_returns w'
      = (Ok (["No performances stored. Run construct_performances_for_percentiles() first."%string],
             None), w')
      /\ construct_portfolio_average_standard_deviation_for_holding_period_return
           np_sqrt w'
         = (Ok (["No performances stored. Run construct_performances_for_percentiles() first."%string],
                None), w')
  | _ :: _ =>
      construct_portfolio_average_holding_period_returns w'
      = (Ok ([], Some ("Average HPR (Log)"%string,
                       map (fun kl => (fst kl,
                                       series_mean
                                         (returns_at (heap w') (snd kl))))
                         (percentile_results (self w')))), w')
      /\ construct_portfolio_average_standard_deviation_for_holding_period_return
           np_sqrt w'
         = (Ok ([], Some ("Std Dev HPR (Log)"%string,
                          map (fun kl => (fst kl,
                                          series_std np_sqrt
                                            (returns_at (heap w') (snd kl))))
                            (percentile_results (self w')))), w')
  end.
Proof.
  intros Hrun.
  destruct (@store_after_run sorter np_exp py_format percentiles w w' Hrun)
    as (Hnd & Hnil & Hcons & Htab).
  unfold construct_portfolio_average_holding_period_returns,
    construct_portfolio_average_standard_deviation_for_holding_period_return.
  rewrite !(@bind_ok _ _ get_self _ w' w' (self w') eq_refl).
  destruct percentiles as [|band rest].
  - rewrite (Hnil eq_refl). split; reflexivity.
  - assert (Hne : percentile_results (self w') <> [])
      by (apply Hcons; discriminate).
    assert (Hcol : forall kl, In kl (percentile_results (self w')) ->
              existsb (String.eqb "portfolio_log_return")
                (columns (nth (snd kl) (heap w') empty_frame)) = true).
    { intros kl Hkl. destruct (Htab kl Hkl) as (W & D & ->).
      now rewrite compute_index_level_and_returns_columns. }
    destruct (percentile_results (self w')) as [|kl0 store] eqn:Hstore;
      [congruence|].
    split.
    + rewrite (@bind_ok _ _ _ _ _ _ _
                 (@stats_of_store series_mean (kl0 :: store) w' Hnd Hcol)).
      reflexivity.
    + rewrite (@bind_ok _ _ _ _ _ _ _
                 (@stats_of_store (series_std np_sqrt) (kl0 :: store) w'
                    Hnd Hcol)).
      reflexivity.
Qed.

Lemma reports_follow_the_store_witness :
  construct_portfolio_average_holding_period_returns world13'
  = (Ok ([], Some ("Average HPR (Log)"%string,
                   map (fun kl => (fst kl,
                                   series_mean
                                     (returns_at (heap world13') (snd kl))))
                     (percentile_results (self world13')))), world13')
  /\ construct_portfolio_average_standard_deviation_for_holding_period_return
       (fun x => x) world13'
     = (Ok ([], Some ("Std Dev HPR (Log)"%string,
                      map (fun kl => (fst kl,
                                      series_std (fun x => x)
                                        (returns_at (heap world13') (snd kl))))
                        (percentile_results (self world13')))), world13').
Proof.
  apply (@reports_follow_the_store insertion_sorter exp_order1 format_int
           (fun x => x) bands13 world13 world13').
  vm_compute. reflexivity.
Defined.

(** The columns of a weight table are the tickers of the panel in the order
    of the ranking of the table's first period, not in the panel's column
    order: [pd.DataFrame(rows)] takes the keys of the dicts in order of first
    appearance, and every dict lists the tickers as sorted.  Stated for a
    panel with distinct tickers whose rows have one cell per ticker. *)
Theorem weight_table_columns_follow_first_ranking (sorter : ArgSort)
  (data W S : DataFrame) (top bottom : Qc) :
  NoDup (columns data) ->
  (compute_weights_last_month_direction data top bottom = Ok W
   /\ S = data
   /\ Forall (fun r => List.length (snd r) = List.length (columns data))
        (rows data))
  \/ (compute_weight_momentum_12_minus_1 data top bottom = Ok W
      /\ S = momentum_signal data) ->
  Permutation (columns W) (columns data)
  /\ exists T0 row0,
       nth_error (index W) 0 = Some T0
       /\ In (T0, row0) (iterrows S)
       /\ columns W = map fst (sort_values_desc row0).
Proof.
  intros Hc HW.
  assert (Hrec : exists records,
             DataFrame_of_records records = Ok W
             /\ forall r, In r records ->
                  exists row l,
                    In (fst r, row) (iterrows S)
                    /\ map fst row = columns data
                    /\ snd r = band_weights (py_min top bottom)
                                 (py_max top bottom) l (sort_values_desc row)).
  { destruct HW as [(HW & -> & Hwf)|(HW & ->)].
    - eexists. split; [exact HW|]. intros r Hr.
      apply last_month_records_In in Hr. destruct Hr as [row [Hin E]].
      exists row, (List.length (sort_values_desc row)).
      split; [exact Hin|]. split; [|exact E].
      exact (@iterrows_full_labels data (fst r) row Hwf Hin).
    - eexists. split; [exact HW|]. intros r Hr.
      apply momentum_records_In in Hr.
      destruct Hr as [row [Hin [_ [_ E]]]].
      exists row, (List.length (dropna (sort_values_desc row))).
      split; [exact Hin|]. split; [|exact E].
      apply (@iterrows_full_labels (momentum_signal data) (fst r) row);
        [|exact Hin].
      apply Forall_forall. intros [d cells] Hd.
      exact (@momentum_signal_row_length data d cells Hd). }
  destruct Hrec as [records [Hrecs Hall]].
  assert (Hkeys : forall r, In r records ->
                    NoDup (dict_keys (snd r))
                    /\ Permutation (dict_keys (snd r)) (columns data)).
  { intros r Hr. destruct (Hall r Hr) as (row & l & _ & Hlab & E).
    assert (Hnd : NoDup (map fst row)) by now rewrite Hlab.
    rewrite E, (band_weights_keys_any _ _ _ _ (sorted_labels_NoDup row Hnd)).
    split; [now apply sorted_labels_NoDup|].
    rewrite <- Hlab. apply sorted_labels. }
  pose proof (@DataFrame_of_records_index records W Hrecs) as Hidx.
  apply DataFrame_of_records_Ok in Hrecs. destruct Hrecs as [Hne HWeq].
  destruct records as [|r0 rs]; [congruence|].
  assert (Hcols : columns W = dict_keys (snd r0)).
  { rewrite HWeq. cbn [columns].
    apply (@record_columns_first (r0 :: rs) r0 rs eq_refl).
    - exact (proj1 (Hkeys r0 (or_introl eq_refl))).
    - intros r Hr x Hx.
      eapply Permutation_in;
        [symmetry; exact (proj2 (Hkeys r0 (or_introl eq_refl)))|].
      eapply Permutation_in; [exact (proj2 (Hkeys r (or_intror Hr)))|].
      exact Hx. }
  split.
  - rewrite Hcols. exact (proj2 (Hkeys r0 (or_introl eq_refl))).
  - destruct (Hall r0 (or_introl eq_refl)) as (row & l & Hin & Hlab & E).
    exists (fst r0), row. split; [now rewrite Hidx|]. split; [exact Hin|].
    rewrite Hcols, E. apply band_weights_keys_any.
    apply sorted_labels_NoDup. now rewrite Hlab.
Qed.

Lemma weight_table_columns_follow_first_ranking_witness :
  Permutation (columns weights4) (columns panel4)
  /\ exists T0 row0,
       nth_error (index weights4) 0 = Some T0
       /\ In (T0, row0) (iterrows panel4)
       /\ columns weights4
          = map fst (sort_values_desc (sorter := insertion_sorter) row0).
Proof.
  apply (@weight_table_columns_follow_first_ranking insertion_sorter panel4
           weights4 panel4 (Qc_of_Z 50) (Qc_of_Z 0)).
  - exact panel4_columns.
  - left. split; [reflexivity|]. split; [reflexivity|].
    repeat constructor.
Defined.

(** The column order of the weight table of the four-ticker panel: the
    ranking of period 1, C, A, D, B. *)
Example weights4_columns : columns weights4 = ["C"; "A"; "D"; "B"]%string.
Proof. reflexivity. Qed.

(** The portfolio return is the equal-weighted sum over the holdings: for
    two consecutive periods [T], [T'] of the weight table of either
    allocator, the return reported at [T'] is the ticker weight of [T] times
    the sum, over the tickers selected at [T], of their returns at [T'].  A
    selected ticker with no return at [T'] adds nothing to the sum and still
    counts in the weight. *)
Theorem portfolio_return_is_weighted_sum_over_holdings (sorter : ArgSort)
  (np_exp : Qc -> Qc) (data W : DataFrame) (top bottom start : Qc) (i : nat)
  (T T' : date) (row : Series) (l : nat) :
  StronglySorted Z.lt (index data) -> NoDup (columns data) ->
  (compute_weights_last_month_direction data top bottom = Ok W
   /\ In (T, row) (iterrows data) /\ l = List.length row)
  \/ (compute_weight_momentum_12_minus_1 data top bottom = Ok W
      /\ In (T, row) (iterrows (momentum_signal data))
      /\ l = List.length (dropna row)) ->
  nth_error (index W) i = Some T -> nth_error (index W) (S i) = Some T' ->
  lookup (compute_index_level_and_returns np_exp W data start) T'
    "portfolio_log_return"
  = Some (ticker_weight (py_min top bottom) (py_max top bottom) l
          * sum_skipna
              (map (fun t => lookup data T' t)
                 (selected_tickers (py_min top bottom) (py_max top bottom) l
                    (sort_values_desc row)))).
Proof.
  intros Hs Hc HW Hi HSi.
  set (pmin := py_min top bottom). set (pmax := py_max top bottom).
  assert (Hsrc : (compute_weights_last_month_direction data top bottom = Ok W
                  \/ compute_weight_momentum_12_minus_1 data top bottom = Ok W)
                 /\ NoDup (map fst row)
                 /\ incl (map fst row) (columns data)
                 /\ forall t, lookup W T t
                      = dict_get (band_weights pmin pmax l
                                    (sort_values_desc row)) t).
  { destruct HW as [(HW & Hin & ->)|(HW & Hin & ->)].
    - split; [now left|].
      destruct (@iterrows_labels data T row Hc Hin) as [Hnd Hincl].
      split; [exact Hnd|]. split; [exact Hincl|]. intros t.
      rewrite (@last_month_weight_cell sorter data W top bottom T row t
                 Hs HW Hin).
      now rewrite sort_values_desc_length.
    - split; [now right|].
      destruct (@iterrows_labels (momentum_signal data) T row Hc Hin)
        as [Hnd Hincl].
      split; [exact Hnd|]. split; [exact Hincl|]. intros t.
      destruct (@momentum_row_of_period sorter data W top bottom T row
                  Hs HW Hin (nth_error_In _ _ Hi)) as [_ Hget].
      rewrite Hget. now rewrite dropna_sorted_length. }
  destruct Hsrc as (HW' & Hnd & Hincl & Hget).
  destruct (@allocator_periods sorter data W top bottom Hs HW') as [HsW HinclW].
  rewrite (@lagged_return np_exp W data start i T T' Hs Hc
             (sorted_lt_NoDup HsW) HinclW Hi HSi).
  f_equal.
  pose proof (@sorted_labels_NoDup sorter row Hnd) as Hnd'.
  set (sel := selected_tickers pmin pmax l (sort_values_desc row)).
  assert (Hsel : incl sel (columns data)).
  { intros t Ht. apply Hincl.
    eapply Permutation_in; [apply sorted_labels|].
    now apply (@selected_tickers_incl pmin pmax l (sort_values_desc row)). }
  rewrite (@sum_skipna_support _ sel (columns data)
             (@selected_tickers_NoDup pmin pmax l (sort_values_desc row)
                Hnd') Hc Hsel).
  - rewrite <- sum_skipna_scale. f_equal. apply map_ext_in.
    intros t Ht. rewrite Hget.
    now rewrite (@band_weights_selected pmin pmax l (sort_values_desc row)
                   t Ht).
  - intros t _ Ht. rewrite Hget.
    destruct (in_dec string_dec t (map fst (sort_values_desc row)))
      as [Hin|Hout].
    + rewrite (@band_weights_unselected pmin pmax l (sort_values_desc row)
                 t Ht Hin).
      destruct (lookup data T' t) as [r|]; [right | now left].
      simpl. f_equal. ring.
    + rewrite (@band_weights_absent pmin pmax l (sort_values_desc row)
                 t Hout).
      now left.
Qed.

Lemma portfolio_return_is_weighted_sum_over_holdings_witness :
  lookup performance4 2%Z "portfolio_log_return"
  = Some (ticker_weight (py_min (Qc_of_Z 50) (Qc_of_Z 0))
            (py_max (Qc_of_Z 50) (Qc_of_Z 0)) 4
          * sum_skipna
              (map (fun t => lookup panel4 2%Z t)
                 (selected_tickers (py_min (Qc_of_Z 50) (Qc_of_Z 0))
                    (py_max (Qc_of_Z 50) (Qc_of_Z 0)) 4
                    (sort_values_desc (sorter := insertion_sorter)
                       [("A", pct 1 100); ("B", pct (-2) 100);
                        ("C", pct 3 100); ("D", pct 0 100)]%string)))).
Proof.
  apply (@portfolio_return_is_weighted_sum_over_holdings insertion_sorter
           exp_order1 panel4 weights4 (Qc_of_Z 50) (Qc_of_Z 0) (Qc_of_Z 100)
           0%nat 1%Z 2%Z
           [("A", pct 1 100); ("B", pct (-2) 100); ("C", pct 3 100);
            ("D", pct 0 100)]%string 4%nat).
  - exact panel4_sorted.
  - exact panel4_columns.
  - left. split; [reflexivity|]. split; [left; reflexivity | reflexivity].
  - reflexivity.
  - reflexivity.
Defined.

(** The holdings of period 1 of the four-ticker panel under the band
    (50, 0) are C and A, each with the weight one half. *)
Example holdings4 :
  selected_tickers (py_min (Qc_of_Z 50) (Qc_of_Z 0))
    (py_max (Qc_of_Z 50) (Qc_of_Z 0)) 4
    (sort_values_desc (sorter := insertion_sorter)
       [("A", pct 1 100); ("B", pct (-2) 100); ("C", pct 3 100);
        ("D", pct 0 100)]%string)
  = ["C"; "A"]%string
  /\ ticker_weight (py_min (Qc_of_Z 50) (Qc_of_Z 0))
       (py_max (Qc_of_Z 50) (Qc_of_Z 0)) 4
     = Q2Qc (1 # 2).
Proof. split; [reflexivity|]. apply Qc_is_canon. reflexivity. Qed.

(** A table that [compute_index_level_and_returns] returned is not touched
    by a later call: every call binds [self.performance] to a new object, so
    after new weights and a second call the first table still holds what it
    held, under a location other than the one [self.performance] now
    names. *)
Theorem earlier_table_survives_recomputation (sorter : ArgSort)
  (np_exp : Qc -> Qc) (D W : DataFrame) (start start' top bottom : Qc)
  (w w1 w2 w3 : world) (l1 l2 : loc) :
  data (self w) = Some D -> weights (self w) = Some W ->
  self_compute_index_level_and_returns np_exp start w = (Ok l1, w1) ->
  self_compute_weight_momentum_12_minus_1 top bottom w1 = (Ok tt, w2) ->
  self_compute_index_level_and_returns np_exp start' w2 = (Ok l2, w3) ->
  l1 <> l2
  /\ performance (self w3) = Some l2
  /\ nth_error (heap w3) l1
     = Some (compute_index_level_and_returns np_exp W D start)
  /\ exists W',
       compute_weight_momentum_12_minus_1 D top bottom = Ok W'
       /\ nth_error (heap w3) l2
          = Some (compute_index_level_and_returns np_exp W' D start').
Proof.
  intros HD HW H1 H2 H3.
  rewrite (@self_compute_index_level_and_returns_ok np_exp D W start w HD HW)
    in H1.
  injection H1 as <- <-.
  destruct (compute_weight_momentum_12_minus_1 D top bottom) as [W'|e] eqn:E.
  - match type of H2 with
    | self_compute_weight_momentum_12_minus_1 _ _ ?wa = _ =>
        rewrite (@self_compute_weight_momentum_12_minus_1_ok sorter D W' top
                   bottom wa eq_refl E) in H2
    end.
    injection H2 as <-.
    match type of H3 with
    | self_compute_index_level_and_returns _ _ ?wb = _ =>
        rewrite (@self_compute_index_level_and_returns_ok np_exp D W' start'
                   wb eq_refl eq_refl) in H3
    end.
    injection H3 as <- <-.
    cbn [heap self performance]. rewrite length_app. cbn [List.length].
    split; [lia|]. split; [reflexivity|]. split.
    + rewrite nth_error_app1 by (rewrite length_app; simpl; lia).
      rewrite nth_error_app2 by lia. now rewrite Nat.sub_diag.
    + exists W'. split; [reflexivity|].
      rewrite nth_error_app2 by (rewrite length_app; simpl; lia).
      rewrite length_app. cbn [List.length].
      now rewrite Nat.sub_diag.
  - match type of H2 with
    | self_compute_weight_momentum_12_minus_1 _ _ ?wa = _ =>
        destruct (@self_compute_weight_momentum_12_minus_1_raise sorter D top
                    bottom wa e eq_refl E) as [w' Hw']
    end.
    rewrite Hw' in H2. discriminate.
Qed.

Lemma earlier_table_survives_recomputation_witness :
  1%nat <> 2%nat
  /\ performance (self world13_second) = Some 2%nat
  /\ nth_error (heap world13_second) 1
     = Some (compute_index_level_and_returns exp_order1 momentum_weights13
               panel13 (Qc_of_Z 100))
  /\ exists W',
       compute_weight_momentum_12_minus_1 (sorter := insertion_sorter) panel13
         (Qc_of_Z 0) (Qc_of_Z 50) = Ok W'
       /\ nth_error (heap world13_second) 2
          = Some (compute_index_level_and_returns exp_order1 W' panel13
                    (Qc_of_Z 100)).
Proof.
  apply (@earlier_table_survives_recomputation insertion_sorter exp_order1
           panel13 momentum_weights13 (Qc_of_Z 100) (Qc_of_Z 100)
           (Qc_of_Z 0) (Qc_of_Z 50)
           world13_weighted world13_first world13_reweighted world13_second).
  - reflexivity.
  - reflexivity.
  - vm_compute. reflexivity.
  - vm_compute. reflexivity.
  - vm_compute. reflexivity.
Defined.

(** The signal of a ticker in a period is the sum of its eleven returns
    before the period, the period's own return left out; it has a value
    exactly when the ticker has a return in the period and in each of the
    eleven periods before it.  [window] lists the twelve cells, the current
    one first. *)
Theorem signal_is_sum_of_previous_eleven (data : DataFrame) (i j : nat)
  (d : date) (vs : list cell) :
  nth_error (rows data) i = Some (d, vs) ->
  (j < List.length (columns data))%nat ->
  let window := column_of j (trailing 12 i (map snd (rows data))) in
  exists cells,
    nth_error (rows (momentum_signal data)) i = Some (d, cells)
    /\ forall s,
         nth j cells None = Some s
         <-> exists r0 prev,
               window = map Some (r0 :: prev)
               /\ List.length prev = 11%nat /\ s = Qcsum prev.
Proof.
  intros Hi Hj window.
  eexists. split; [exact (@momentum_signal_nth data i d vs Hi)|].
  intros s. rewrite (nth_map_seq _ _ Hj). fold window.
  assert (Hvs : nth_error (map snd (rows data)) i = Some vs)
    by now rewrite nth_error_map, Hi.
  assert (Hhead : exists tl, window = nth j vs None :: tl).
  { subst window. rewrite (trailing_head 11 _ _ Hvs).
    eexists. reflexivity. }
  destruct Hhead as [tl Hw].
  assert (Hlen : (List.length window <= 12)%nat).
  { subst window. unfold column_of. rewrite length_map.
    apply trailing_length. }
  split.
  - intros Hs. unfold window_sum in Hs.
    destruct (Nat.leb_spec 12 (List.length (nonnan window))) as [H12|H12];
      [|discriminate].
    destruct (nth j vs None) as [r0|] eqn:Hr0; [|discriminate].
    cbn [cell_binop] in Hs. injection Hs as <-.
    pose proof (nonnan_length_le window) as Hle.
    assert (Hall : window = map Some (nonnan window))
      by (apply all_valued; lia).
    rewrite Hw in Hall at 2. cbn [nonnan] in Hall.
    exists r0, (nonnan tl). split; [exact Hall|]. split.
    + rewrite Hw in H12, Hlen. cbn [nonnan List.length] in H12, Hlen.
      pose proof (nonnan_length_le tl). lia.
    + rewrite Hw. cbn [nonnan Qcsum fold_right].
      change (fold_right Qcplus 0 (nonnan tl)) with (Qcsum (nonnan tl)).
      unfold Qcminus. ring.
  - intros (r0 & prev & Hwin & Hprev & ->).
    unfold window_sum. rewrite Hwin, nonnan_map_Some_id.
    cbn [List.length]. rewrite Hprev. cbn [Nat.leb].
    rewrite Hw in Hwin. cbn [map] in Hwin. injection Hwin as -> _.
    cbn [cell_binop Qcsum fold_right]. f_equal.
    change (fold_right Qcplus 0 prev) with (Qcsum prev).
    unfold Qcminus. ring.
Qed.

Lemma signal_is_sum_of_previous_eleven_witness :
  exists cells,
    nth_error (rows (momentum_signal panel13)) 11 = Some (12%Z, cells)
    /\ forall s,
         nth 0 cells None = Some s
         <-> exists r0 prev,
               column_of 0 (trailing 12 11 (map snd (rows panel13)))
               = map Some (r0 :: prev)
               /\ List.length prev = 11%nat /\ s = Qcsum prev.
Proof.
  apply (@signal_is_sum_of_previous_eleven panel13 11%nat 0%nat 12%Z
           [pct 12 100; pct 8 100]).
  - reflexivity.
  - simpl. lia.
Defined.

(** On the thirteen-period panel the signal of A in period 12 is the sum of
    its returns of periods 1 to 11, 0.66, and B, which has no observation in
    period 1, has no signal there. *)
Example signal13 :
  lookup (momentum_signal panel13) 12%Z "A" = pct 66 100
  /\ lookup (momentum_signal panel13) 12%Z "B" = None.
Proof.
  split; [|reflexivity]. vm_compute. f_equal. now apply Qc_is_canon.
Qed.

(** The size of a band: for percentiles [0 <= bottom <= top <= 100], the
    tickers with a non-zero weight in a period are the selected ones, and
    there are [floor(top * l / 100) - floor(bottom * l / 100)] of them,
    [l] being the population size of the period. *)
Theorem band_holds_difference_of_floors (sorter : ArgSort)
  (data W : DataFrame) (top bottom : Qc) (T : date) (row : Series) (l : nat) :
  StronglySorted Z.lt (index data) -> NoDup (columns data) ->
  0 <= bottom -> bottom <= top -> top <= Qc_of_Z 100 ->
  (compute_weights_last_month_direction data top bottom = Ok W
   /\ In (T, row) (iterrows data) /\ l = List.length row)
  \/ (compute_weight_momentum_12_minus_1 data top bottom = Ok W
      /\ In (T, row) (iterrows (momentum_signal data))
      /\ In T (index W)
      /\ l = List.length (dropna row)) ->
  exists held,
    NoDup held
    /\ Z.of_nat (List.length held)
       = (floor (top * Qc_of_nat l / Qc_of_Z 100)
          - floor (bottom * Qc_of_nat l / Qc_of_Z 100))%Z
    /\ forall t, In t held <-> exists w, lookup W T t = Some w /\ w <> 0.
Proof.
  intros Hs Hc H0 Hbt H100 HW.
  assert (Htop0 : 0 <= top) by (eapply Qcle_trans; eauto).
  assert (Hsrc : NoDup (map fst row)
                 /\ (l <= List.length (sort_values_desc row))%nat
                 /\ forall t, lookup W T t
                      = dict_get (band_weights bottom top l
                                    (sort_values_desc row)) t).
  { destruct HW as [(HW & Hin & ->)|(HW & Hin & HT & ->)].
    - split; [exact (proj1 (@iterrows_labels data T row Hc Hin))|].
      split; [now rewrite sort_values_desc_length|]. intros t.
      rewrite (@last_month_weight_cell sorter data W top bottom T row t
                 Hs HW Hin).
      now rewrite py_min_ordered, py_max_ordered, sort_values_desc_length
        by assumption.
    - split;
        [exact (proj1 (@iterrows_labels (momentum_signal data) T row Hc Hin))|].
      split.
      + rewrite <- dropna_sorted_length. apply dropna_length_le.
      + intros t.
        destruct (@momentum_row_of_period sorter data W top bottom T row
                    Hs HW Hin HT) as [_ Hget].
        rewrite Hget.
        now rewrite py_min_ordered, py_max_ordered, dropna_sorted_length
          by assumption. }
  destruct Hsrc as (Hnd & Hl & Hget).
  exists (selected_tickers bottom top l (sort_values_desc row)).
  split; [|split].
  - apply selected_tickers_NoDup. now apply sorted_labels_NoDup.
  - rewrite (@selected_tickers_length bottom top l (sort_values_desc row)
               Hl H0 Hbt H100).
    now rewrite !slice_index_floor by assumption.
  - intros t. rewrite Hget. split.
    + intros Hin. exists (ticker_weight bottom top l). split.
      * now apply band_weights_selected.
      * apply ticker_weight_neq_0.
    + intros (w & Hw & Hnz). apply weight_selected_or_zero in Hw.
      destruct Hw as [[Hsel _]|[_ [_ E]]]; [exact Hsel | contradiction].
Qed.

Lemma band_holds_difference_of_floors_witness :
  exists held,
    NoDup held
    /\ Z.of_nat (List.length held)
       = (floor (Qc_of_Z 50 * Qc_of_nat 4 / Qc_of_Z 100)
          - floor (Qc_of_Z 0 * Qc_of_nat 4 / Qc_of_Z 100))%Z
    /\ forall t, In t held
                 <-> exists w, lookup weights4 1%Z t = Some w /\ w <> 0.
Proof.
  apply (@band_holds_difference_of_floors insertion_sorter panel4 weights4
           (Qc_of_Z 50) (Qc_of_Z 0) 1%Z
           [("A", pct 1 100); ("B", pct (-2) 100); ("C", pct 3 100);
            ("D", pct 0 100)]%string 4%nat).
  - exact panel4_sorted.
  - exact panel4_columns.
  - unfold Qcle, Qle; simpl; lia.
  - unfold Qcle, Qle; simpl; lia.
  - unfold Qcle, Qle; simpl; lia.
  - left. split; [reflexivity|]. split; [left; reflexivity | reflexivity].
Defined.

(** [compute_weights_last_month_direction] ranks the tickers without an
    observation after all the others: under a band whose lower percentile
    is 0, such a ticker has a non-zero weight in a period only if every
    ticker with an observation has that weight too. *)
Theorem last_month_holds_valued_tickers_first (sorter : ArgSort)
  (data W : DataFrame) (top : Qc) (T : date) (row : Series) (a b : ticker)
  (vb wa : Qc) :
  StronglySorted Z.lt (index data) -> NoDup (columns data) -> 0 <= top ->
  compute_weights_last_month_direction data top 0 = Ok W ->
  In (T, row) (iterrows data) ->
  In (a, None) row -> In (b, Some vb) row ->
  lookup W T a = Some wa -> wa <> 0 ->
  lookup W T b = Some wa.
Proof.
  intros Hs Hc Htop HW Hin Ha Hb Hwa Hnz.
  pose proof (proj1 (@iterrows_labels data T row Hc Hin)) as Hnd.
  rewrite (@last_month_weight_cell sorter data W top 0 T row a Hs HW Hin)
    in Hwa.
  rewrite (@last_month_weight_cell sorter data W top 0 T row b Hs HW Hin).
  rewrite py_min_nonneg_0, py_max_nonneg_0 in * by assumption.
  apply weight_selected_or_zero in Hwa.
  destruct Hwa as [[Hsel ->]|[_ [_ E]]]; [|contradiction].
  apply band_weights_selected.
  exact (@top_slice_takes_valued_first sorter row top _ a b vb Hnd Ha Hb Hsel).
Qed.

Lemma last_month_holds_valued_tickers_first_witness :
  lookup (frame_of (compute_weights_last_month_direction
                      (sorter := insertion_sorter) panel13 (Qc_of_Z 100) 0))
    1%Z "A"
  = Some (Q2Qc (1 # 2)).
Proof.
  apply (@last_month_holds_valued_tickers_first insertion_sorter panel13 _
           (Qc_of_Z 100) 1%Z [("A", pct 1 100); ("B", None)]%string
           "B"%string "A"%string (Q2Qc (1 # 100)) (Q2Qc (1 # 2))).
  - exact panel13_sorted.
  - exact panel13_columns.
  - unfold Qcle, Qle; simpl; lia.
  - reflexivity.
  - left. reflexivity.
  - right. left. reflexivity.
  - left. reflexivity.
  - vm_compute. reflexivity.
  - intros E. discriminate E.
Defined.

(** A run of [construct_performances_for_percentiles] does not restore the
    engine's own tables: when it completes, [self.weights] is the weight
    table of the last band of the list and [self.performance] names the
    performance table computed for that band. *)
Theorem run_leaves_the_last_band_tables (sorter : ArgSort)
  (np_exp : Qc -> Qc) (py_format : Qc -> string) (front : list (Qc * Qc))
  (band : Qc * Qc) (w w' : world) :
  construct_performances_for_percentiles np_exp py_format (front ++ [band]) w
  = (Ok tt, w') ->
  exists D W l,
    data (self w) = Some D
    /\ compute_weight_momentum_12_minus_1 D (fst band) (snd band) = Ok W
    /\ weights (self w') = Some W
    /\ performance (self w') = Some l
    /\ nth_error (heap w') l
       = Some (compute_index_level_and_returns np_exp W D (Qc_of_Z 100)).
Proof.
  intros Hrun. unfold construct_performances_for_percentiles in Hrun.
  rewrite (@bind_ok _ _ get_self _ w w (self w) eq_refl) in Hrun.
  destruct (data (self w)) as [D|] eqn:HD; [|discriminate].
  unfold bind at 1, set_percentile_results at 1 in Hrun.
  match type of Hrun with
  | scenario_loop _ _ _ ?w1 = _ =>
      destruct (@scenario_loop_last sorter np_exp py_format D band front
                  w1 w' HD Hrun) as (W & l & HW & Hwt & Hp & Hh)
  end.
  exists D, W, l. repeat split; assumption.
Qed.

Lemma run_leaves_the_last_band_tables_witness :
  exists D W l,
    data (self world13) = Some D
    /\ compute_weight_momentum_12_minus_1 (sorter := insertion_sorter) D
         (fst (Qc_of_Z 0, Qc_of_Z 50)) (snd (Qc_of_Z 0, Qc_of_Z 50)) = Ok W
    /\ weights (self world13') = Some W
    /\ performance (self world13') = Some l
    /\ nth_error (heap world13') l
       = Some (compute_index_level_and_returns exp_order1 W D (Qc_of_Z 100)).
Proof.
  apply (@run_leaves_the_last_band_tables insertion_sorter exp_order1
           format_int [(Qc_of_Z 100, Qc_of_Z 0)] (Qc_of_Z 0, Qc_of_Z 50)
           world13 world13').
  vm_compute. reflexivity.
Defined.
